(** * HunYuanDiT forward pass (HunYuan/models/models.py): a shallow embedding

    The Python module glues PyTorch layers into a diffusion transformer.
    This development embeds the control flow that the module itself
    implements: the resolution table, the modulation helper, block
    construction and the block forward pass, the final layer, the skip
    stack of [forward_raw], rotary-table selection, weight initialisation,
    [unpatchify], and the outer [forward] wrapper.

    Conventions.
    - Sizes, counts and indices that come from tensor shapes are [nat];
      integer expressions that can become negative ([depth // 2 - 1]) are
      computed in [Z].
    - A tensor is its shape together with its entries in row-major order.
      Entries are taken in an abstract type of scalars with the
      operations of the class [Scalar]; no law is assumed of them.  A
      statement that needs laws names them: [ScalarLaws] are laws of
      exact arithmetic, [FloatLaws] are laws that IEEE arithmetic has,
      stated for the entries that are finite or zero.
    - Python exceptions are values of [exn]; code that touches the disk or
      the random generator runs in the monad [M] over a [world].
    - Layers of classes imported from other modules ([Attention], [Mlp],
      [RMSNorm], [PatchEmbed], ...) are objects with an uninterpreted
      [call]; the class [Externals] collects their constructors. *)

From Stdlib Require Import Arith ZArith QArith List String Ascii Bool Lia.
From stdpp Require Import gmap strings pretty list fin_maps.

Local Open Scope string_scope.
Local Open Scope list_scope.
Local Open Scope nat_scope.

(** ** Exceptions and results *)

Inductive exn : Type :=
| ValueError (msg : string)
| AssertionError
| IndexError
| TypeError
| AttributeError
| ZeroDivisionError
| RuntimeError
| FileNotFoundError (path : string)
| UnpicklingError (path : string).

Inductive result (A : Type) : Type :=
| Ok (a : A)
| Raise (e : exn).
Arguments Ok {A} a.
Arguments Raise {A} e.

Definition rbind {A B} (r : result A) (k : A -> result B) : result B :=
  match r with
  | Ok a => k a
  | Raise e => Raise e
  end.

Definition is_ok {A} (r : result A) : bool :=
  match r with Ok _ => true | Raise _ => false end.

(** The [ValueError] of an unpacking [a, b, ... = seq] that expects
    [expected] values and finds [got]. *)
Definition unpack_error (expected got : nat) : exn :=
  ValueError
    (if got <? expected
     then "not enough values to unpack (expected " +:+ pretty expected
            +:+ ", got " +:+ pretty got +:+ ")"
     else "too many values to unpack (expected " +:+ pretty expected +:+ ")").

(** ** Tensors *)

Record tensor (A : Type) : Type := Tensor { shape : list nat; data : list A }.
Arguments Tensor {A} shape data.
Arguments shape {A} t.
Arguments data {A} t.

Definition numel (s : list nat) : nat := fold_right Nat.mul 1 s.

Definition wf_tensor {A} (t : tensor A) : Prop :=
  length (data t) = numel (shape t).

(** Row-major offsets: [unravel s i] is the multi-index of offset [i] in a
    tensor of shape [s], and [ravel s idx] the offset of a multi-index. *)
Fixpoint unravel (s : list nat) (i : nat) : list nat :=
  match s with
  | [] => []
  | _ :: s' => (i / numel s') :: unravel s' (i mod numel s')
  end.

Fixpoint ravel (s idx : list nat) : nat :=
  match s, idx with
  | _ :: s', k :: idx' => k * numel s' + ravel s' idx'
  | _, _ => 0
  end.

Definition in_bounds (s idx : list nat) : Prop :=
  Forall2 (fun k d => k < d) idx s.

Definition tget {A} `{Inhabited A} (t : tensor A) (idx : list nat) : A :=
  data t !!! ravel (shape t) idx.

(** The tensor of shape [s] whose entry at [idx] is [f idx]. *)
Definition tabulate {A} (s : list nat) (f : list nat -> A) : tensor A :=
  Tensor s (map (fun i => f (unravel s i)) (seq 0 (numel s))).

Definition tmap {A B} (f : A -> B) (t : tensor A) : tensor B :=
  Tensor (shape t) (map f (data t)).

Definition full {A} (s : list nat) (a : A) : tensor A :=
  Tensor s (replicate (numel s) a).

(** *** Shape manipulation *)

(** [x.reshape(s)] for an explicit shape [s]: the entries stay in place. *)
Definition reshape {A} (s : list nat) (t : tensor A) : result (tensor A) :=
  if numel s =? length (data t) then Ok (Tensor s (data t)) else Raise RuntimeError.

(** [x.view(...)] where one extent may be [-1] (written [None]) and is
    inferred from the number of entries. *)
Definition view {A} (spec : list (option nat)) (t : tensor A) : result (tensor A) :=
  let known := numel (omap id spec) in
  let n := length (data t) in
  match length (filter (fun o => o = None) spec) with
  | 0 => reshape (omap id spec) t
  | 1 =>
      if (known =? 0) || negb (n mod known =? 0) then Raise RuntimeError
      else Ok (Tensor (map (default (n / known)) spec) (data t))
  | _ => Raise RuntimeError
  end.

(** [x.unsqueeze(d)] for [0 <= d <= x.dim()]. *)
Definition unsqueeze {A} (d : nat) (t : tensor A) : result (tensor A) :=
  if d <=? length (shape t)
  then Ok (Tensor (take d (shape t) ++ 1 :: drop d (shape t)) (data t))
  else Raise IndexError.

(** *** Broadcasting *)

Fixpoint broadcast_rev (ra rb : list nat) : result (list nat) :=
  match ra, rb with
  | [], _ => Ok rb
  | _, [] => Ok ra
  | a :: ra', b :: rb' =>
      rbind (broadcast_rev ra' rb') (fun r =>
        if a =? b then Ok (a :: r)
        else if a =? 1 then Ok (b :: r)
        else if b =? 1 then Ok (a :: r)
        else Raise RuntimeError)
  end.

(** Shapes are aligned at their last axis; an extent of one is stretched. *)
Definition broadcast_shapes (sa sb : list nat) : result (list nat) :=
  rbind (broadcast_rev (rev sa) (rev sb)) (fun r => Ok (rev r)).

(** The multi-index into an operand of shape [s] that feeds entry [idx] of
    the broadcast result. *)
Definition bidx (s idx : list nat) : list nat :=
  zip_with (fun d k => if d =? 1 then 0 else k) s (drop (length idx - length s) idx).

Definition broadcast2 {A B C} `{Inhabited A, Inhabited B}
    (f : A -> B -> C) (a : tensor A) (b : tensor B) : result (tensor C) :=
  rbind (broadcast_shapes (shape a) (shape b)) (fun s =>
    Ok (tabulate s (fun idx =>
      f (tget a (bidx (shape a) idx)) (tget b (bidx (shape b) idx))))).

(** [torch.where(cond, a, b)]. *)
Definition where_ {A} `{Inhabited A}
    (cond : tensor bool) (a b : tensor A) : result (tensor A) :=
  rbind (broadcast2 pair a b) (fun ab =>
    broadcast2 (fun (m : bool) (p : A * A) => if m then p.1 else p.2) cond ab).

(** *** Repetition, concatenation, slicing *)

(** [x.repeat(r0, r1, ...)]: the shape is padded with leading ones up to the
    number of repeat factors, and every axis is tiled. *)
Definition repeat_ {A} `{Inhabited A} (reps : list nat) (t : tensor A) : result (tensor A) :=
  if length reps <? length (shape t) then Raise RuntimeError
  else
    let s := replicate (length reps - length (shape t)) 1 ++ shape t in
    Ok (tabulate (zip_with Nat.mul reps s) (fun idx =>
          tget (Tensor s (data t)) (zip_with Nat.modulo idx s))).

(** [torch.cat([a, b], dim=d)] for a non-negative axis [d]. *)
Definition cat {A} `{Inhabited A} (d : nat) (a b : tensor A) : result (tensor A) :=
  match shape a !! d, shape b !! d with
  | Some na, Some nb =>
      if bool_decide (<[d := 0]> (shape a) = <[d := 0]> (shape b))
      then Ok (tabulate (<[d := na + nb]> (shape a)) (fun idx =>
                 match idx !! d with
                 | Some k => if k <? na then tget a idx
                             else tget b (<[d := k - na]> idx)
                 | None => inhabitant
                 end))
      else Raise RuntimeError
  | _, _ => Raise IndexError
  end.

(** The slice [start:stop] along axis [d]; bounds are clamped as Python
    does ([x[:k]] is [slice_ 0 0 k x], [x[:, k:]] is [slice_ 1 k n x] for
    the extent [n]). *)
Definition slice_ {A} `{Inhabited A} (d start stop : nat) (t : tensor A) : result (tensor A) :=
  match shape t !! d with
  | Some n =>
      Ok (tabulate (<[d := Nat.min stop n - Nat.min start n]> (shape t)) (fun idx =>
            tget t (alter (fun k => k + Nat.min start n) d idx)))
  | None => Raise IndexError
  end.

(** [x[:, 0]]: entry 0 is selected along axis 1 and that axis disappears. *)
Definition select_col0 {A} `{Inhabited A} (t : tensor A) : result (tensor A) :=
  match shape t with
  | n :: m :: s =>
      if m =? 0 then Raise IndexError
      else Ok (tabulate (n :: s) (fun idx =>
                 match idx with
                 | i :: idx' => tget t (i :: 0 :: idx')
                 | [] => inhabitant
                 end))
  | _ => Raise IndexError
  end.

(** [a, b = x.chunk(2, dim=1)]: pieces of [ceil(n/2)] columns; unpacking
    fails unless exactly two pieces come back. *)
Definition chunk2_dim1 {A} `{Inhabited A} (t : tensor A) : result (tensor A * tensor A) :=
  match shape t !! 1 with
  | Some n =>
      let k := (n + 1) / 2 in
      if (n =? 0) || (k <? n) then
        rbind (slice_ 1 0 k t) (fun a =>
        rbind (slice_ 1 k n t) (fun b => Ok (a, b)))
      else Raise (unpack_error 2 1)
  | None => Raise IndexError
  end.

(** ['nhwpqc->nchpwq'] of [torch.einsum]: entry [(n,c,h,p,w,q)] of the
    result is entry [(n,h,w,p,q,c)] of the argument. *)
Definition einsum_nhwpqc_nchpwq {A} `{Inhabited A} (t : tensor A) : result (tensor A) :=
  match shape t with
  | [n; h; w; p; q; c] =>
      Ok (tabulate [n; c; h; p; w; q] (fun idx =>
            match idx with
            | [i_n; i_c; i_h; i_p; i_w; i_q] => tget t [i_n; i_h; i_w; i_p; i_q; i_c]
            | _ => inhabitant
            end))
  | _ => Raise RuntimeError
  end.

(** ** Scalars *)

(** Entries of floating-point tensors.  [float_] and [half] are the dtype
    casts [.float()] and [.half()] (the module computes in float16, so a
    cast back to the dtype of the input is [half]); [silu] is
    [torch.nn.functional.silu] on one entry; [truthy] is [.bool()] and
    [to_int] is [.to(torch.int)]. *)
Class Scalar (R : Type) : Type := {
  s0 : R;
  s1 : R;
  sadd : R -> R -> R;
  smul : R -> R -> R;
  silu : R -> R;
  float_ : R -> R;
  half : R -> R;
  truthy : R -> bool;
  to_int : R -> Z;
}.

(** Laws of exact arithmetic.  The second one fails in IEEE arithmetic
    for a NaN and for an infinity; the statements that need it say so. *)
Class ScalarLaws (R : Type) `{Scalar R} : Prop := {
  sadd_0_r : forall x : R, sadd x s0 = x;
  smul_0_r : forall x : R, smul x s0 = s0;
  smul_1_r : forall x : R, smul x s1 = x;
}.

(** What IEEE arithmetic guarantees of the entries that are finite
    ([is_finite]: neither NaN nor an infinity) or zero ([is_zero]: the
    entry compares equal to 0, whatever its sign).  Nothing is said of a
    product or a sum with a NaN or an infinity. *)
Class FloatLaws (R : Type) `{Scalar R} : Type := {
  is_finite : R -> bool;
  is_zero : R -> bool;
  is_zero_s0 : is_zero s0 = true;
  is_zero_finite : forall z : R, is_zero z = true -> is_finite z = true;
  (** a sum of zeros is a zero *)
  sadd_zero : forall a b : R, is_zero a = true -> is_zero b = true -> is_zero (sadd a b) = true;
  (** a finite entry times a zero is a zero *)
  smul_zero_r : forall v z : R,
    is_finite v = true -> is_zero z = true -> is_zero (smul v z) = true;
  (** adding a zero to a finite entry, or multiplying it by one plus a
      zero, returns the entry *)
  sadd_zero_finite : forall v z : R,
    is_finite v = true -> is_zero z = true -> is_finite (sadd v z) = true;
  smul_one_finite : forall v z : R,
    is_finite v = true -> is_zero z = true -> is_finite (smul v (sadd s1 z)) = true;
  (** [silu] does not increase the magnitude of an entry, so the cast
      back to the dtype of the input does not overflow *)
  silu_finite : forall v : R, is_finite v = true -> is_finite (half (silu (float_ v))) = true;
}.

#[global] Instance scalar_inhabited {R} `{Scalar R} : Inhabited R := populate s0.

Definition tadd {R} `{Scalar R} (a b : tensor R) : result (tensor R) :=
  broadcast2 sadd a b.
Definition tmul {R} `{Scalar R} (a b : tensor R) : result (tensor R) :=
  broadcast2 smul a b.

(** ** Helpers and layers defined in the module *)

(** [modulate(x, shift, scale)]:
    [x * (1 + scale.unsqueeze(1)) + shift.unsqueeze(1)]. *)
Definition modulate {R} `{Scalar R} (x shift scale : tensor R) : result (tensor R) :=
  rbind (unsqueeze 1 scale) (fun sc =>
  rbind (tmul x (tmap (sadd s1) sc)) (fun m =>
  rbind (unsqueeze 1 shift) (fun sh =>
  tadd m sh))).

(** [FP32_SiLU.forward]: [silu(inputs.float()).to(inputs.dtype)]. *)
Definition FP32_SiLU_forward {R} `{Scalar R} (inputs : tensor R) : tensor R :=
  tmap (fun v => half (silu (float_ v))) inputs.

(** [nn.Linear]: a weight of shape [(out_features, in_features)] and a bias
    of shape [(out_features)]. *)
Record Linear (R : Type) : Type := { weight : tensor R; bias : tensor R }.
Arguments weight {R} l.
Arguments bias {R} l.

Definition wf_Linear {R} (l : Linear R) (n_in n_out : nat) : Prop :=
  shape (weight l) = [n_out; n_in] /\ wf_tensor (weight l) /\
  shape (bias l) = [n_out] /\ wf_tensor (bias l).

(** [F.linear(x, weight, bias)]: the last axis of [x] is contracted with
    the rows of [weight]. *)
Definition Linear_forward {R} `{Scalar R} (l : Linear R) (x : tensor R) : result (tensor R) :=
  match shape (weight l), last (shape x) with
  | [n_out; n_in], Some n =>
      if (n =? n_in) && bool_decide (shape (bias l) = [n_out]) then
        Ok (tabulate (take (length (shape x) - 1) (shape x) ++ [n_out]) (fun idx =>
              let pre := take (length idx - 1) idx in
              let j := default 0 (last idx) in
              sadd (fold_right (fun k acc =>
                      sadd (smul (tget x (pre ++ [k])) (tget (weight l) [j; k])) acc)
                    s0 (seq 0 n_in))
                   (tget (bias l) [j])))
      else Raise RuntimeError
  | _, _ => Raise RuntimeError
  end.

(** [nn.init.constant_(t, 0)]. *)
Definition constant_0 {R} `{Scalar R} (t : tensor R) : tensor R :=
  Tensor (shape t) (map (fun _ => s0) (data t)).

Definition all_zero {R} `{Scalar R} (t : tensor R) : Prop :=
  Forall (fun v => v = s0) (data t).

(** ** Resolution buckets *)

Record Resolution : Type := { width : nat; height : nat }.

(** [Resolution.__str__]: [f'{self.height}x{self.width}']. *)
Definition Resolution_str (r : Resolution) : string :=
  pretty (height r) +:+ "x" +:+ pretty (width r).

Module ResolutionGroup.

Record t : Type := { data : list Resolution; supported_sizes : gset (nat * nat) }.

(** [ResolutionGroup.__init__]; the constructor of [Resolution] takes the
    width first. *)
Definition init : t :=
  let data := [
    Build_Resolution 768 768;
    Build_Resolution 1024 1024;
    Build_Resolution 1280 1280;
    Build_Resolution 1024 768;
    Build_Resolution 1152 864;
    Build_Resolution 1280 960;
    Build_Resolution 768 1024;
    Build_Resolution 864 1152;
    Build_Resolution 960 1280;
    Build_Resolution 1280 768;
    Build_Resolution 768 1280 ] in
  {| data := data;
     supported_sizes := list_to_set (map (fun r => (width r, height r)) data) |}.

Definition is_valid (self : t) (width height : nat) : bool :=
  bool_decide ((width, height) ∈ supported_sizes self).

End ResolutionGroup.

(** ** Imported layers and functions *)

(** An object of a layer class that is defined outside the module: only
    its call is visible. *)
Record Module (I O : Type) : Type := { call : I -> result O }.
Arguments call {I O} m x.

(** How an initialiser draws the entries of a parameter. *)
Inductive init_kind : Type :=
| DefaultInit
| Randn
| XavierUniform
| Normal (std : Q).

(** [PatchEmbed] objects expose [patch_size] and [num_patches]. *)
Record PatchEmbed (R : Type) : Type := {
  pe_patch_size : nat * nat;
  pe_num_patches : nat;
  pe_module : Module (tensor R) (tensor R);
}.
Arguments pe_patch_size {R} p.
Arguments pe_num_patches {R} p.
Arguments pe_module {R} p.

(** What the module imports: the random generator behind parameter
    initialisation, the formatting used by the debug dumps, and the
    constructors and functions of [torch], [timm], [attn_layers],
    [embedders], [norm_layers], [poolers] and [posemb_layers].
    Constructors take their arguments in the order of the call sites. *)
Class Externals (R : Type) : Type := {
  (** [folder_paths.output_directory] *)
  output_directory : string;
  rng_state : Type;
  rand : init_kind -> rng_state -> R * rng_state;
  pyobj : Type;
  py_repr : pyobj -> string;
  tensor_repr : tensor R -> string;
  int_tensor_repr : tensor Z -> string;
  rope : Type;
  crop_box : Type;
  F_layer_norm :
    tensor R -> list nat -> option (tensor R) -> option (tensor R) -> Q -> result (tensor R);
  RMSNorm_new : nat -> bool -> Q -> rng_state -> Module (tensor R) (tensor R) * rng_state;
  FlashSelfMHAModified_new :
    nat -> nat -> bool -> bool -> rng_state ->
    Module (tensor R * rope) (tensor R * list (tensor R)) * rng_state;
  Attention_new :
    nat -> nat -> bool -> bool -> rng_state ->
    Module (tensor R * rope) (tensor R * list (tensor R)) * rng_state;
  FlashCrossMHAModified_new :
    nat -> nat -> nat -> bool -> bool -> rng_state ->
    Module (tensor R * tensor R * rope) (tensor R * list (tensor R)) * rng_state;
  CrossAttention_new :
    nat -> nat -> nat -> bool -> bool -> rng_state ->
    Module (tensor R * tensor R * rope) (tensor R * list (tensor R)) * rng_state;
  Mlp_new : nat -> Z -> rng_state -> Module (tensor R) (tensor R) * rng_state;
  AttentionPool_new :
    nat -> nat -> nat -> nat -> rng_state -> Module (tensor R) (tensor R) * rng_state;
  Embedding_new : nat -> nat -> rng_state -> Module (tensor Z) (tensor R) * rng_state;
  PatchEmbed_new : nat * nat -> nat -> nat -> nat -> rng_state -> PatchEmbed R * rng_state;
  TimestepEmbedder_new : nat -> rng_state -> Module (tensor R) (tensor R) * rng_state;
  timestep_embedding : tensor Z -> nat -> result (tensor R);
  get_fill_resize_and_crop : nat * nat -> nat -> result (crop_box * crop_box);
  get_2d_rotary_pos_embed : nat -> crop_box -> crop_box -> nat * nat -> result rope;
  (** the effect of [_basic_init] on the [nn.Linear] children of an object *)
  basic_init_children : forall I O, Module I O -> rng_state -> Module I O * rng_state;
  (** [xavier_uniform_] on [proj.weight] and [constant_] on [proj.bias] *)
  PatchEmbed_init_proj : PatchEmbed R -> rng_state -> PatchEmbed R * rng_state;
  (** [normal_] on [mlp[0].weight] and [mlp[2].weight] *)
  TimestepEmbedder_init_mlp :
    Module (tensor R) (tensor R) -> rng_state -> Module (tensor R) (tensor R) * rng_state;
}.
Arguments basic_init_children {R _ I O} m g.

(** ** The world: the output directory and the random generator *)

Inductive file_content (R : Type) : Type :=
| TextFile (s : string)
| TensorFile (t : tensor R).
Arguments TextFile {R} s.
Arguments TensorFile {R} t.

Record world (R : Type) `{Externals R} : Type := World {
  files : gmap string (file_content R);
  rng : rng_state;
}.
Arguments World {R _} files rng.
Arguments files {R _} w.
Arguments rng {R _} w.

Definition M (R : Type) `{Externals R} (A : Type) : Type :=
  world R -> result A * world R.

Definition ret {R} `{Externals R} {A} (a : A) : M R A := fun w => (Ok a, w).

Definition raise {R} `{Externals R} {A} (e : exn) : M R A := fun w => (Raise e, w).

Definition bind {R} `{Externals R} {A B} (m : M R A) (k : A -> M R B) : M R B :=
  fun w =>
    match m w with
    | (Ok a, w') => k a w'
    | (Raise e, w') => (Raise e, w')
    end.

Definition lift {R} `{Externals R} {A} (r : result A) : M R A := fun w => (r, w).

(** A constructor that draws from the random generator. *)
Definition draw {R} `{Externals R} {A} (f : rng_state -> A * rng_state) : M R A :=
  fun w => let (a, g) := f (rng w) in (Ok a, World (files w) g).

Declare Scope M_scope.
Delimit Scope M_scope with M.
Notation "x <- m ;; k" := (bind m (fun x => k))
  (at level 90, m at level 80, right associativity) : M_scope.
Notation "m ;;; k" := (bind m (fun _ => k))
  (at level 90, right associativity) : M_scope.

(** [f'{folder_paths.output_directory}/name']. *)
Definition path_of {R} `{Externals R} (name : string) : string :=
  output_directory +:+ "/" +:+ name.

(** [with open(path, 'w') as file: file.write(text)]. *)
Definition write_text {R} `{Externals R} (name text : string) : M R unit :=
  fun w => (Ok tt, World (<[path_of name := TextFile text]> (files w)) (rng w)).

(** [open(path, 'w')] alone: the file is created, or emptied, before the
    text to write is computed. *)
Definition open_w {R} `{Externals R} (name : string) : M R unit := write_text name "".

(** [torch.load(path)]. *)
Definition torch_load {R} `{Externals R} (name : string) : M R (tensor R) :=
  fun w =>
    match files w !! path_of name with
    | Some (TensorFile t) => (Ok t, w)
    | Some (TextFile _) => (Raise (UnpicklingError (path_of name)), w)
    | None => (Raise (FileNotFoundError (path_of name)), w)
    end.

(** [str] of a [torch.Size]. *)
Definition shape_repr (s : list nat) : string :=
  "torch.Size([" +:+ String.concat ", " (map pretty s) +:+ "])".

Local Open Scope M_scope.

Section Model.
Context {R : Type} `{Scalar R} `{Externals R}.

(** *** Parameters *)

Fixpoint draws (k : init_kind) (n : nat) (g : rng_state) : list R * rng_state :=
  match n with
  | 0 => ([], g)
  | S n' =>
      let (v, g1) := rand k g in
      let (vs, g2) := draws k n' g1 in
      (v :: vs, g2)
  end.

(** An in-place initialiser of [nn.init]: every entry is drawn afresh,
    the shape stays. *)
Definition init_ (k : init_kind) (t : tensor R) : M R (tensor R) :=
  draw (fun g =>
    let (vs, g') := draws k (length (data t)) g in (Tensor (shape t) vs, g')).

(** [nn.Linear(n_in, n_out, bias=True)]. *)
Definition nn_Linear (n_in n_out : nat) : M R (Linear R) :=
  w <- init_ DefaultInit (full [n_out; n_in] s0) ;;
  b <- init_ DefaultInit (full [n_out] s0) ;;
  ret {| weight := w; bias := b |}.

(** [_basic_init] on an [nn.Linear]. *)
Definition basic_init_Linear (l : Linear R) : M R (Linear R) :=
  w <- init_ XavierUniform (weight l) ;;
  ret {| weight := w; bias := constant_0 (bias l) |}.

(** [nn.Sequential(nn.Linear, FP32_SiLU(), nn.Linear)]. *)
Definition Linear_SiLU_Linear_forward (p : Linear R * Linear R) (x : tensor R)
    : result (tensor R) :=
  rbind (Linear_forward p.1 x) (fun y => Linear_forward p.2 (FP32_SiLU_forward y)).

(** [nn.Sequential(FP32_SiLU(), nn.Linear)]. *)
Definition SiLU_Linear_forward (l : Linear R) (x : tensor R) : result (tensor R) :=
  Linear_forward l (FP32_SiLU_forward x).

(** *** Normalisation layers *)

Definition eps_1e_6 : Q := 1 # 1000000.

(** The two classes that [norm_type] selects between. *)
Inductive norm_class : Type := FP32_Layernorm | RMSNorm.

(** An object of one of them.  [FP32_Layernorm] extends [nn.LayerNorm]
    and is defined in the module; [RMSNorm] is imported. *)
Inductive norm_object : Type :=
| FP32_Layernorm_object
    (normalized_shape : nat) (ln_weight ln_bias : option (tensor R)) (eps : Q)
| RMSNorm_object (m : Module (tensor R) (tensor R)).

Definition class_of (o : norm_object) : norm_class :=
  match o with
  | FP32_Layernorm_object _ _ _ _ => FP32_Layernorm
  | RMSNorm_object _ => RMSNorm
  end.

(** [norm_layer(dim, elementwise_affine=..., eps=...)]. *)
Definition norm_new (cls : norm_class) (dim : nat) (elementwise_affine : bool) (eps : Q)
    : M R norm_object :=
  match cls with
  | FP32_Layernorm =>
      ret (if elementwise_affine
           then FP32_Layernorm_object dim (Some (full [dim] s1)) (Some (full [dim] s0)) eps
           else FP32_Layernorm_object dim None None eps)
  | RMSNorm =>
      m <- draw (RMSNorm_new dim elementwise_affine eps) ;;
      ret (RMSNorm_object m)
  end.

(** [FP32_Layernorm.forward], or the call of an [RMSNorm]. *)
Definition norm_forward (o : norm_object) (inputs : tensor R) : result (tensor R) :=
  match o with
  | FP32_Layernorm_object n (Some w) (Some b) eps =>
      rbind (F_layer_norm (tmap float_ inputs) [n]
               (Some (tmap float_ w)) (Some (tmap float_ b)) eps)
            (fun y => Ok (tmap half y))
  | FP32_Layernorm_object _ _ _ _ => Raise AttributeError
  | RMSNorm_object m => call m inputs
  end.

(** *** HunYuanDiTBlock *)

Record HunYuanDiTBlock : Type := {
  use_flash_attn : bool;
  norm1 : norm_object;
  attn1 : Module (tensor R * rope) (tensor R * list (tensor R));
  norm2 : norm_object;
  mlp : Module (tensor R) (tensor R);
  (** [nn.Sequential(FP32_SiLU(), nn.Linear(c_emb_size, hidden_size))] *)
  default_modulation : Linear R;
  attn2 : Module (tensor R * tensor R * rope) (tensor R * list (tensor R));
  norm3 : norm_object;
  (** [(skip_norm, skip_linear)], or [None] when [skip_linear is None] *)
  skip_layers : option (norm_object * Linear R);
}.

(** [int(hidden_size * mlp_ratio)], with the product taken exactly: the
    code rounds it to a binary64 float before it truncates.  The value
    only reaches the constructor of the imported [Mlp]. *)
Definition int_mul (n : nat) (q : Q) : Z :=
  Z.quot (Z.of_nat n * Qnum q) (Z.pos (Qden q)).

(** [HunYuanDiTBlock.__init__]. *)
Definition HunYuanDiTBlock_init
    (hidden_size c_emb_size num_heads : nat) (mlp_ratio : Q) (text_states_dim : nat)
    (use_flash_attn qk_norm : bool) (norm_type : string) (skip : bool)
    : M R HunYuanDiTBlock :=
  let use_ele_affine := true in
  norm_layer <-
    (if decide (norm_type = "layer") then ret FP32_Layernorm
     else if decide (norm_type = "rms") then ret RMSNorm
     else raise (ValueError ("Unknown norm_type: " +:+ norm_type))) ;;
  norm1 <- norm_new norm_layer hidden_size use_ele_affine eps_1e_6 ;;
  attn1 <-
    (if use_flash_attn
     then draw (FlashSelfMHAModified_new hidden_size num_heads true qk_norm)
     else draw (Attention_new hidden_size num_heads true qk_norm)) ;;
  norm2 <- norm_new norm_layer hidden_size use_ele_affine eps_1e_6 ;;
  let mlp_hidden_dim := int_mul hidden_size mlp_ratio in
  mlp <- draw (Mlp_new hidden_size mlp_hidden_dim) ;;
  default_modulation <- nn_Linear c_emb_size hidden_size ;;
  attn2 <-
    (if use_flash_attn
     then draw (FlashCrossMHAModified_new hidden_size text_states_dim num_heads true qk_norm)
     else draw (CrossAttention_new hidden_size text_states_dim num_heads true qk_norm)) ;;
  norm3 <- norm_new norm_layer hidden_size true eps_1e_6 ;;
  skip_layers <-
    (if skip then
       skip_norm <- norm_new norm_layer (2 * hidden_size) true eps_1e_6 ;;
       skip_linear <- nn_Linear (2 * hidden_size) hidden_size ;;
       ret (Some (skip_norm, skip_linear))
     else ret None) ;;
  ret {| use_flash_attn := use_flash_attn;
         norm1 := norm1; attn1 := attn1; norm2 := norm2; mlp := mlp;
         default_modulation := default_modulation;
         attn2 := attn2; norm3 := norm3; skip_layers := skip_layers |}.

(** The four steps of the block as functions of their inputs. *)

Definition skip_step (self : HunYuanDiTBlock) (x : tensor R) (skip : option (tensor R))
    : result (tensor R) :=
  match skip_layers self with
  | Some (skip_norm, skip_linear) =>
      match skip with
      | Some s =>
          rbind (cat (length (shape x) - 1) x s) (fun c =>
          rbind (norm_forward skip_norm c) (fun c =>
          Linear_forward skip_linear c))
      | None => Raise TypeError
      end
  | None => Ok x
  end.

Definition shift_msa_of (self : HunYuanDiTBlock) (c : tensor R) : result (tensor R) :=
  rbind (SiLU_Linear_forward (default_modulation self) c) (unsqueeze 1).

Definition self_attention_step (self : HunYuanDiTBlock)
    (x c : tensor R) (freq_cis_img : rope) : result (tensor R) :=
  rbind (shift_msa_of self c) (fun shift_msa =>
  rbind (norm_forward (norm1 self) x) (fun n =>
  rbind (tadd n shift_msa) (fun a =>
  rbind (call (attn1 self) (a, freq_cis_img)) (fun o =>
  tadd x o.1)))).

Definition cross_attention_step (self : HunYuanDiTBlock)
    (x text_states : tensor R) (freq_cis_img : rope) : result (tensor R) :=
  rbind (norm_forward (norm3 self) x) (fun n =>
  rbind (call (attn2 self) (n, text_states, freq_cis_img)) (fun o =>
  tadd x o.1)).

Definition ffn_step (self : HunYuanDiTBlock) (x : tensor R) : result (tensor R) :=
  rbind (norm_forward (norm2 self) x) (fun n =>
  rbind (call (mlp self) n) (fun o =>
  tadd x o)).

(** The block as the composition of the steps, in the order of the
    statements of [forward]: skip, self-attention, cross-attention,
    feed-forward. *)
Definition block_steps (self : HunYuanDiTBlock)
    (x c text_states : tensor R) (freq_cis_img : rope) (skip : option (tensor R))
    : result (tensor R) :=
  rbind (skip_step self x skip) (fun x =>
  rbind (self_attention_step self x c freq_cis_img) (fun x =>
  rbind (cross_attention_step self x text_states freq_cis_img) (fun x =>
  ffn_step self x))).

(** [f'name{t.shape}{t}']. *)
Definition dump (name : string) (t : tensor R) : string :=
  name +:+ shape_repr (shape t) +:+ tensor_repr t.

(** [HunYuanDiTBlock.forward], statement by statement. *)
Definition HunYuanDiTBlock_forward (self : HunYuanDiTBlock)
    (x c text_states : tensor R) (freq_cis_img : rope) (skip : option (tensor R))
    : M R (tensor R) :=
  write_text "x1.txt" (dump "x" x) ;;;
  x <- match skip_layers self with
       | Some (skip_norm, skip_linear) =>
           s <- match skip with Some s => ret s | None => raise TypeError end ;;
           c <- lift (cat (length (shape x) - 1) x s) ;;
           c <- lift (norm_forward skip_norm c) ;;
           lift (Linear_forward skip_linear c)
       | None => ret x
       end ;;
  m <- lift (SiLU_Linear_forward (default_modulation self) c) ;;
  shift_msa <- lift (unsqueeze 1 m) ;;
  write_text "shift_msa.txt" (dump "shift_msa" shift_msa) ;;;
  open_w "x.txt" ;;;
  n <- lift (norm_forward (norm1 self) x) ;;
  n' <- lift (norm_forward (norm1 self) x) ;;
  write_text "x.txt" ("self.norm1(x)" +:+ shape_repr (shape n) +:+ tensor_repr n') ;;;
  n <- lift (norm_forward (norm1 self) x) ;;
  a <- lift (tadd n shift_msa) ;;
  o <- lift (call (attn1 self) (a, freq_cis_img)) ;;
  x <- lift (tadd x o.1) ;;
  n <- lift (norm_forward (norm3 self) x) ;;
  o <- lift (call (attn2 self) (n, text_states, freq_cis_img)) ;;
  x <- lift (tadd x o.1) ;;
  mlp_inputs <- lift (norm_forward (norm2 self) x) ;;
  o <- lift (call (mlp self) mlp_inputs) ;;
  x <- lift (tadd x o) ;;
  ret x.

(** *** FinalLayer *)

Record FinalLayer : Type := {
  (** [nn.LayerNorm(final_hidden_size, elementwise_affine=False, eps=1e-6)] *)
  norm_final : nat;
  linear : Linear R;
  (** [nn.Sequential(FP32_SiLU(), nn.Linear(c_emb_size, 2 * final_hidden_size))] *)
  adaLN_modulation : Linear R;
}.

Definition FinalLayer_init (final_hidden_size c_emb_size patch_size out_channels : nat)
    : M R FinalLayer :=
  linear <- nn_Linear final_hidden_size (patch_size * patch_size * out_channels) ;;
  adaLN_modulation <- nn_Linear c_emb_size (2 * final_hidden_size) ;;
  ret {| norm_final := final_hidden_size; linear := linear;
         adaLN_modulation := adaLN_modulation |}.

(** [FinalLayer.forward]. *)
Definition FinalLayer_forward (self : FinalLayer) (x c : tensor R) : result (tensor R) :=
  rbind (SiLU_Linear_forward (adaLN_modulation self) c) (fun m =>
  rbind (chunk2_dim1 m) (fun '(shift, scale) =>
  rbind (F_layer_norm x [norm_final self] None None eps_1e_6) (fun n =>
  rbind (modulate n shift scale) (fun x =>
  Linear_forward (linear self) x)))).

(** *** HunYuan *)

Record HunYuan : Type := {
  use_fp16 : bool;
  depth : nat;
  learn_sigma : bool;
  in_channels : nat;
  out_channels : nat;
  patch_size : nat;
  num_heads : nat;
  hidden_size : nat;
  text_states_dim : nat;
  text_states_dim_t5 : nat;
  text_len : nat;
  text_len_t5 : nat;
  norm : string;
  head_size : nat;
  (** [nn.Sequential(nn.Linear, FP32_SiLU(), nn.Linear)] *)
  mlp_t5 : Linear R * Linear R;
  text_embedding_padding : tensor R;
  pooler : Module (tensor R) (tensor R);
  style_embedder : Module (tensor Z) (tensor R);
  extra_in_dim : nat;
  x_embedder : PatchEmbed R;
  t_embedder : Module (tensor R) (tensor R);
  (** [nn.Sequential(nn.Linear, FP32_SiLU(), nn.Linear)] *)
  extra_embedder : Linear R * Linear R;
  blocks : list HunYuanDiTBlock;
  final_layer : FinalLayer;
  unpatchify_channels : nat;
}.

(** [a // b] on non-negative integers. *)
Definition floordiv (a b : nat) : result nat :=
  if b =? 0 then Raise ZeroDivisionError else Ok (a / b).

Fixpoint mapM_M {A B} (f : A -> M R B) (l : list A) : M R (list B) :=
  match l with
  | [] => ret []
  | a :: l' => b <- f a ;; bs <- mapM_M f l' ;; ret (b :: bs)
  end.

(** [_basic_init] reaching the [nn.Linear] layers of a block. *)
Definition basic_init_norm (o : norm_object) : M R norm_object :=
  match o with
  | FP32_Layernorm_object _ _ _ _ => ret o
  | RMSNorm_object m => m' <- draw (basic_init_children m) ;; ret (RMSNorm_object m')
  end.

Definition basic_init_block (b : HunYuanDiTBlock) : M R HunYuanDiTBlock :=
  norm1' <- basic_init_norm (norm1 b) ;;
  attn1' <- draw (basic_init_children (attn1 b)) ;;
  norm2' <- basic_init_norm (norm2 b) ;;
  mlp' <- draw (basic_init_children (mlp b)) ;;
  default_modulation' <- basic_init_Linear (default_modulation b) ;;
  attn2' <- draw (basic_init_children (attn2 b)) ;;
  norm3' <- basic_init_norm (norm3 b) ;;
  skip_layers' <-
    match skip_layers b with
    | Some (skip_norm, skip_linear) =>
        skip_norm' <- basic_init_norm skip_norm ;;
        skip_linear' <- basic_init_Linear skip_linear ;;
        ret (Some (skip_norm', skip_linear'))
    | None => ret None
    end ;;
  ret {| use_flash_attn := use_flash_attn b;
         norm1 := norm1'; attn1 := attn1'; norm2 := norm2'; mlp := mlp';
         default_modulation := default_modulation';
         attn2 := attn2'; norm3 := norm3'; skip_layers := skip_layers' |}.

Definition zero_Linear (l : Linear R) : Linear R :=
  {| weight := constant_0 (weight l); bias := constant_0 (bias l) |}.

(** The loop "Zero-out adaLN modulation layers in HunYuanDiT blocks". *)
Definition zero_default_modulation (b : HunYuanDiTBlock) : HunYuanDiTBlock :=
  {| use_flash_attn := use_flash_attn b;
     norm1 := norm1 b; attn1 := attn1 b; norm2 := norm2 b; mlp := mlp b;
     default_modulation := zero_Linear (default_modulation b);
     attn2 := attn2 b; norm3 := norm3 b; skip_layers := skip_layers b |}.

(** "Zero-out output layers". *)
Definition zero_final_layer (f : FinalLayer) : FinalLayer :=
  {| norm_final := norm_final f;
     linear := zero_Linear (linear f);
     adaLN_modulation := zero_Linear (adaLN_modulation f) |}.

(** [HunYuan.initialize_weights]. *)
Definition initialize_weights (self : HunYuan) : M R HunYuan :=
  (* self.apply(_basic_init) *)
  t5a <- basic_init_Linear (mlp_t5 self).1 ;;
  t5b <- basic_init_Linear (mlp_t5 self).2 ;;
  pooler' <- draw (basic_init_children (pooler self)) ;;
  style_embedder' <- draw (basic_init_children (style_embedder self)) ;;
  xm <- draw (basic_init_children (pe_module (x_embedder self))) ;;
  let x_embedder' :=
    {| pe_patch_size := pe_patch_size (x_embedder self);
       pe_num_patches := pe_num_patches (x_embedder self);
       pe_module := xm |} in
  t_embedder' <- draw (basic_init_children (t_embedder self)) ;;
  ea <- basic_init_Linear (extra_embedder self).1 ;;
  eb <- basic_init_Linear (extra_embedder self).2 ;;
  blocks' <- mapM_M basic_init_block (blocks self) ;;
  fl_linear <- basic_init_Linear (linear (final_layer self)) ;;
  fl_ada <- basic_init_Linear (adaLN_modulation (final_layer self)) ;;
  (* Initialize patch_embed like nn.Linear *)
  x_embedder' <- draw (PatchEmbed_init_proj x_embedder') ;;
  (* Initialize label embedding table *)
  eaw <- init_ (Normal (2 # 100)) (weight ea) ;;
  ebw <- init_ (Normal (2 # 100)) (weight eb) ;;
  (* Initialize timestep embedding MLP *)
  t_embedder' <- draw (TimestepEmbedder_init_mlp t_embedder') ;;
  (* Zero-out adaLN modulation layers in HunYuanDiT blocks *)
  let blocks' := map zero_default_modulation blocks' in
  (* Zero-out output layers *)
  let final_layer' :=
    zero_final_layer
      {| norm_final := norm_final (final_layer self);
         linear := fl_linear; adaLN_modulation := fl_ada |} in
  ret {| use_fp16 := use_fp16 self; depth := depth self;
         learn_sigma := learn_sigma self; in_channels := in_channels self;
         out_channels := out_channels self; patch_size := patch_size self;
         num_heads := num_heads self; hidden_size := hidden_size self;
         text_states_dim := text_states_dim self;
         text_states_dim_t5 := text_states_dim_t5 self;
         text_len := text_len self; text_len_t5 := text_len_t5 self;
         norm := norm self; head_size := head_size self;
         mlp_t5 := (t5a, t5b);
         text_embedding_padding := text_embedding_padding self;
         pooler := pooler'; style_embedder := style_embedder';
         extra_in_dim := extra_in_dim self;
         x_embedder := x_embedder'; t_embedder := t_embedder';
         extra_embedder :=
           ({| weight := eaw; bias := bias ea |}, {| weight := ebw; bias := bias eb |});
         blocks := blocks'; final_layer := final_layer';
         unpatchify_channels := unpatchify_channels self |}.

(** [HunYuan.__init__]. *)
Definition HunYuan_init
    (input_size : nat * nat)
    (patch_size in_channels hidden_size depth num_heads : nat) (mlp_ratio : Q)
    (learn_sigma : bool)
    (text_states_dim text_states_dim_t5 text_len text_len_t5 : nat)
    (norm infer_mode : string) (use_fp16 : bool) : M R HunYuan :=
  write_text "input_size.txt"
    ("input_size(" +:+ pretty input_size.1 +:+ ", " +:+ pretty input_size.2 +:+ ")") ;;;
  let out_channels := if learn_sigma then in_channels * 2 else in_channels in
  head_size <- lift (floordiv hidden_size num_heads) ;;
  let use_flash_attn := bool_decide (infer_mode = "fa") in
  let qk_norm := true in
  t5a <- nn_Linear text_states_dim_t5 (text_states_dim_t5 * 4) ;;
  t5b <- nn_Linear (text_states_dim_t5 * 4) text_states_dim ;;
  text_embedding_padding <-
    init_ Randn (full [text_len + text_len_t5; text_states_dim] s0) ;;
  pooler <- draw (AttentionPool_new text_len_t5 text_states_dim_t5 8 1024) ;;
  style_embedder <- draw (Embedding_new 1 hidden_size) ;;
  let extra_in_dim := 256 * 6 + hidden_size in
  x_embedder <- draw (PatchEmbed_new input_size patch_size in_channels hidden_size) ;;
  t_embedder <- draw (TimestepEmbedder_new hidden_size) ;;
  let extra_in_dim := extra_in_dim + 1024 in
  ea <- nn_Linear extra_in_dim (hidden_size * 4) ;;
  eb <- nn_Linear (hidden_size * 4) hidden_size ;;
  blocks <-
    mapM_M (fun layer =>
              HunYuanDiTBlock_init hidden_size hidden_size num_heads mlp_ratio
                text_states_dim use_flash_attn qk_norm norm
                (bool_decide (depth / 2 < layer)))
           (seq 0 depth) ;;
  final_layer <- FinalLayer_init hidden_size hidden_size patch_size out_channels ;;
  initialize_weights
    {| use_fp16 := use_fp16; depth := depth; learn_sigma := learn_sigma;
       in_channels := in_channels; out_channels := out_channels;
       patch_size := patch_size; num_heads := num_heads; hidden_size := hidden_size;
       text_states_dim := text_states_dim; text_states_dim_t5 := text_states_dim_t5;
       text_len := text_len; text_len_t5 := text_len_t5; norm := norm;
       head_size := head_size; mlp_t5 := (t5a, t5b);
       text_embedding_padding := text_embedding_padding;
       pooler := pooler; style_embedder := style_embedder;
       extra_in_dim := extra_in_dim; x_embedder := x_embedder;
       t_embedder := t_embedder; extra_embedder := (ea, eb);
       blocks := blocks; final_layer := final_layer;
       unpatchify_channels := out_channels |}.

(** [HunYuan.calc_rope]. *)
Definition calc_rope (self : HunYuan) (height width : nat) : result rope :=
  rbind (floordiv (height / 8) (patch_size self)) (fun th =>
  rbind (floordiv (width / 8) (patch_size self)) (fun tw =>
  rbind (floordiv (512 / 8) (patch_size self)) (fun base_size =>
  rbind (get_fill_resize_and_crop (th, tw) base_size) (fun '(start, stop) =>
  get_2d_rotary_pos_embed (head_size self) start stop (th, tw))))).

(** The loop of [standard_shapes]:
    [freqs_cis_img[str(reso)] = self.calc_rope(reso.height, reso.width)]. *)
Fixpoint fill_shapes (self : HunYuan) (data : list Resolution)
    (freqs_cis_img : gmap string rope) : result (gmap string rope) :=
  match data with
  | [] => Ok freqs_cis_img
  | reso :: data' =>
      rbind (calc_rope self (height reso) (width reso)) (fun r =>
      fill_shapes self data' (<[Resolution_str reso := r]> freqs_cis_img))
  end.

(** [HunYuan.standard_shapes]. *)
Definition standard_shapes (self : HunYuan)
    : result (ResolutionGroup.t * gmap string rope) :=
  let resolutions := ResolutionGroup.init in
  rbind (fill_shapes self (ResolutionGroup.data resolutions) ∅) (fun freqs_cis_img =>
  Ok (resolutions, freqs_cis_img)).

(** [HunYuan.unpatchify]. *)
Definition unpatchify (self : HunYuan) (x : tensor R) (h w : nat) : result (tensor R) :=
  let c := unpatchify_channels self in
  let p := (pe_patch_size (x_embedder self)).1 in
  match shape x with
  | n :: t :: _ =>
      if h * w =? t then
        rbind (reshape [n; h; w; p; p; c] x) (fun x =>
        rbind (einsum_nhwpqc_nchpwq x) (fun x =>
        match shape x with
        | n' :: _ => reshape [n'; c; h * p; w * p] x
        | [] => Raise IndexError
        end))
      else Raise AssertionError
  | _ => Raise IndexError
  end.

(** *** forward_raw, stage by stage *)

(** Keyword arguments of [forward_raw] besides [x], [t], [y]. *)
Record raw_kwargs : Type := {
  encoder_hidden_states : option (tensor R);
  text_embedding_mask : option (tensor R);
  encoder_hidden_states_t5 : option (tensor R);
  text_embedding_mask_t5 : option (tensor R);
  image_meta_size : option (tensor Z);
  style : option (tensor Z);
  cos_cis_img : option (tensor R);
  sin_cis_img : option (tensor R);
  return_dict : bool;
}.

Definition raw_defaults : raw_kwargs :=
  {| encoder_hidden_states := None; text_embedding_mask := None;
     encoder_hidden_states_t5 := None; text_embedding_mask_t5 := None;
     image_meta_size := None; style := None;
     cos_cis_img := None; sin_cis_img := None; return_dict := false |}.

Inductive raw_output : Type :=
| Out_tensor (x : tensor R)
| Out_dict (d : list (string * tensor R)).

(** [torch.load(f'{output_directory}/name').half().repeat(reps)]. *)
Definition load_embeds (name : string) (reps : list nat) : M R (tensor R) :=
  t <- torch_load name ;;
  lift (repeat_ reps (tmap half t)).

(** The eight loads and four concatenations that assign
    [encoder_hidden_states], [encoder_hidden_states_t5],
    [text_embedding_mask] and [text_embedding_mask_t5]. *)
Definition load_text_conditioning (batch_size : nat)
    : M R (tensor R * tensor R * tensor R * tensor R) :=
  clip_prompt_embeds <- load_embeds "clip_prompt_embeds.pt" [batch_size; 1; 1] ;;
  clip_attention_mask <- load_embeds "clip_attention_mask.pt" [batch_size; 1] ;;
  clip_negative_prompt_embeds <-
    load_embeds "clip_negative_prompt_embeds.pt" [batch_size; 1; 1] ;;
  clip_negative_attention_mask <-
    load_embeds "clip_negative_attention_mask.pt" [batch_size; 1] ;;
  mt5_prompt_embeds <- load_embeds "mt5_prompt_embeds.pt" [batch_size; 1; 1] ;;
  mt5_attention_mask <- load_embeds "mt5_attention_mask.pt" [batch_size; 1] ;;
  mt5_negative_prompt_embeds <-
    load_embeds "mt5_negative_prompt_embeds.pt" [batch_size; 1; 1] ;;
  mt5_negative_attention_mask <-
    load_embeds "mt5_negative_attention_mask.pt" [batch_size; 1] ;;
  ehs <- lift (cat 0 clip_prompt_embeds clip_negative_prompt_embeds) ;;
  ehs_t5 <- lift (cat 0 mt5_prompt_embeds mt5_negative_prompt_embeds) ;;
  mask <- lift (cat 0 clip_attention_mask clip_negative_attention_mask) ;;
  mask_t5 <- lift (cat 0 mt5_attention_mask mt5_negative_attention_mask) ;;
  ret (ehs, ehs_t5, mask, mask_t5).

(** From [text_states = encoder_hidden_states] to the [torch.where]. *)
Definition build_text_states (self : HunYuan)
    (ehs ehs_t5 mask mask_t5 : tensor R) : result (tensor R) :=
  let text_states := ehs in
  let text_states_t5 := ehs_t5 in
  let text_states_mask := tmap truthy mask in
  let text_states_t5_mask := tmap truthy mask_t5 in
  match shape text_states_t5 with
  | [b_t5; l_t5; c_t5] =>
      rbind (view [None; Some c_t5] text_states_t5) (fun v =>
      rbind (Linear_SiLU_Linear_forward (mlp_t5 self) v) (fun text_states_t5 =>
      rbind (view [Some b_t5; Some l_t5; None] text_states_t5) (fun v =>
      rbind (cat 1 text_states v) (fun text_states =>
      rbind (cat (length (shape text_states_mask) - 1)
               text_states_mask text_states_t5_mask) (fun clip_t5_mask =>
      rbind (unsqueeze 2 clip_t5_mask) (fun m =>
      where_ m text_states (tmap half (text_embedding_padding self))))))))
  | s => Raise (unpack_error 3 (length s))
  end.

(** "Build time and image embedding". *)
Definition build_time_and_image_embedding (self : HunYuan) (t x : tensor R)
    : M R (tensor R * tensor R) :=
  t <- lift (repeat_ [2] t) ;;
  x <- lift (repeat_ [2; 1; 1; 1] x) ;;
  t <- lift (call (t_embedder self) t) ;;
  x <- lift (call (pe_module (x_embedder self)) x) ;;
  write_text "x3.txt" (dump "x" x) ;;;
  ret (t, x).

(** [torch.as_tensor([row] * rows)] on a list of integers. *)
Definition int_rows (rows : nat) (row : list Z) : tensor Z :=
  if rows =? 0 then Tensor [0] []
  else Tensor [rows; length row] (concat (replicate rows row)).

(** "Concatenate all extra vectors": pooled text, image meta size, style. *)
Definition build_extra_vec (self : HunYuan) (ehs_t5 : tensor R)
    (batch_size target_width target_height : nat) : M R (tensor R) :=
  extra_vec <- lift (call (pooler self) ehs_t5) ;;
  let size_cond :=
    ([1024; 1024] ++ [Z.of_nat target_width; Z.of_nat target_height; 0; 0])%Z in
  let image_meta_size := int_rows (2 * batch_size) size_cond in
  write_text "image_meta_size.txt"
    ("image_meta_size" +:+ shape_repr (shape image_meta_size)
       +:+ int_tensor_repr image_meta_size) ;;;
  flat <- lift (view [None] image_meta_size) ;;
  image_meta_size <- lift (timestep_embedding flat 256) ;;
  let image_meta_size :=
    if use_fp16 self then tmap half image_meta_size else image_meta_size in
  image_meta_size <- lift (view [None; Some (6 * 256)] image_meta_size) ;;
  extra_vec <- lift (cat 1 extra_vec image_meta_size) ;;
  let style := Tensor [2 * batch_size] (replicate (2 * batch_size) 0%Z) in
  style_embedding <- lift (call (style_embedder self) style) ;;
  lift (cat 1 extra_vec style_embedding).

(** The rotary pair: table lookup under the key
    [f'{target_height}x{target_width}'], else [calc_rope]. *)
Definition select_rope (self : HunYuan) (target_height target_width : nat)
    : result rope :=
  rbind (standard_shapes self) (fun '(resolutions, freqs_cis_img) =>
  let reso := pretty target_height +:+ "x" +:+ pretty target_width in
  match freqs_cis_img !! reso with
  | Some r => Ok r
  | None => calc_rope self target_height target_width
  end).

Definition consumes_skip (depth layer : nat) : bool :=
  (Z.of_nat depth / 2 <? Z.of_nat layer)%Z.

Definition produces_skip (depth layer : nat) : bool :=
  (Z.of_nat layer <? Z.of_nat depth / 2 - 1)%Z.

(** "Forward pass through HunYuanDiT blocks": the loop over
    [enumerate(self.blocks)], started at index [layer].  The head of
    [skips] is the end of the Python list, where [append] and [pop] work. *)
Fixpoint run_blocks (self : HunYuan) (layer : nat) (bs : list HunYuanDiTBlock)
    (x c text_states : tensor R) (freqs_cis_img : rope) (skips : list (tensor R))
    : M R (tensor R * list (tensor R)) :=
  match bs with
  | [] => ret (x, skips)
  | block :: bs' =>
      xs <- (if consumes_skip (depth self) layer then
               match skips with
               | skip :: skips' =>
                   x <- HunYuanDiTBlock_forward block x c text_states freqs_cis_img
                          (Some skip) ;;
                   ret (x, skips')
               | [] => raise IndexError
               end
             else
               x <- HunYuanDiTBlock_forward block x c text_states freqs_cis_img None ;;
               ret (x, skips)) ;;
      let skips :=
        if produces_skip (depth self) layer then xs.1 :: xs.2 else xs.2 in
      run_blocks self (S layer) bs' xs.1 c text_states freqs_cis_img skips
  end.

(** [HunYuan.forward_raw]. *)
Definition forward_raw (self : HunYuan)
    (x t : tensor R) (y : tensor Z) (kw : raw_kwargs) : M R raw_output :=
  match shape x with
  | [ob; _; oh; ow] =>
      let batch_size := ob in
      text <- load_text_conditioning batch_size ;;
      let '(ehs, ehs_t5, mask, mask_t5) := text in
      text_states <- lift (build_text_states self ehs ehs_t5 mask mask_t5) ;;
      th <- lift (floordiv oh (patch_size self)) ;;
      tw <- lift (floordiv ow (patch_size self)) ;;
      tx <- build_time_and_image_embedding self t x ;;
      let '(t, x) := tx in
      let height := oh * 8 in
      let width := ow * 8 in
      let target_height := height / 16 * 16 in
      let target_width := width / 16 * 16 in
      extra_vec <- build_extra_vec self ehs_t5 batch_size target_width target_height ;;
      freqs_cis_img <- lift (select_rope self target_height target_width) ;;
      write_text "t.txt" (dump "t" t) ;;;
      write_text "extra_vec.txt" (dump "extra_vec" extra_vec) ;;;
      e <- lift (Linear_SiLU_Linear_forward (extra_embedder self) extra_vec) ;;
      c <- lift (tadd t e) ;;
      xs <- run_blocks self 0 (blocks self) x c text_states freqs_cis_img [] ;;
      x <- lift (FinalLayer_forward (final_layer self) xs.1 c) ;;
      x <- lift (unpatchify self x th tw) ;;
      if return_dict kw then ret (Out_dict [("x", x)]) else ret (Out_tensor x)
  | s => raise (unpack_error 4 (length s))
  end.

(** [x[:, start:]]. *)
Definition slice_from (d start : nat) (t : tensor R) : result (tensor R) :=
  match shape t !! d with
  | Some n => slice_ d start n t
  | None => Raise IndexError
  end.

(** The files that [forward_raw] loads. *)
Definition embedding_names : list string :=
  [ "clip_prompt_embeds.pt"; "clip_attention_mask.pt";
    "clip_negative_prompt_embeds.pt"; "clip_negative_attention_mask.pt";
    "mt5_prompt_embeds.pt"; "mt5_attention_mask.pt";
    "mt5_negative_prompt_embeds.pt"; "mt5_negative_attention_mask.pt" ].

(** The four debug files that [forward] writes before anything else. *)
Definition forward_dumps
    (x context : tensor R) (y : option (tensor R)) (kwargs : pyobj) : M R unit :=
  write_text "x.txt" ("x" +:+ shape_repr (shape x)) ;;;
  write_text "context.txt" ("context" +:+ tensor_repr context) ;;;
  write_text "y.txt"
    ("y" +:+ match y with Some t => tensor_repr t | None => "None" end) ;;;
  write_text "kwargs.txt" ("kwargs" +:+ py_repr kwargs).

(** [HunYuan.forward]. *)
Definition forward (self : HunYuan)
    (x timesteps context : tensor R) (y : option (tensor R)) (kwargs : pyobj)
    : M R (tensor R) :=
  forward_dumps x context y kwargs ;;;
  context <- lift (select_col0 context) ;;
  out <- forward_raw self (tmap half x) (tmap half timesteps) (tmap to_int context)
           raw_defaults ;;
  match out with
  | Out_tensor out =>
      let out := tmap half out in
      eps <- lift (slice_ 1 0 (in_channels self) out) ;;
      rest <- lift (slice_from 1 (in_channels self) out) ;;
      match shape x with
      | b :: _ => lift (slice_ 0 0 b eps)
      | [] => raise IndexError
      end
  | Out_dict _ => raise AttributeError
  end.

End Model.

(** ** Notions used in the statements *)

(** Height of the stack when the loop reaches index [layer], for depth
    [2 * k]. *)
Definition height_at (k layer : nat) : nat :=
  if layer <=? k then Nat.min layer (k - 1) else 2 * k - layer.

(** The debug dumps of [HunYuanDiTBlock.forward]. *)
Definition block_debug_files : list string := ["x1.txt"; "shift_msa.txt"; "x.txt"].

(** No character of the string is the separator [x]. *)
Fixpoint no_x (s : string) : Prop :=
  match s with
  | EmptyString => True
  | String c s' => c <> "x"%char /\ no_x s'
  end.

Section Statements.
Context {R : Type} `{Scalar R} `{Externals R}.

(** [m] returns, from every world, a value satisfying [P]. *)
Definition returns {A} (m : M R A) (P : A -> Prop) : Prop :=
  forall w, exists a w', m w = (Ok a, w') /\ P a.

(** Every normalisation layer of the block is of class [cls], and the
    skip layers exist exactly when [skip] was requested. *)
Definition block_norms (cls : norm_class) (skip : bool) (b : HunYuanDiTBlock) : Prop :=
  class_of (norm1 b) = cls /\ class_of (norm2 b) = cls /\ class_of (norm3 b) = cls /\
  match skip_layers b with
  | Some (skip_norm, _) => skip = true /\ class_of skip_norm = cls
  | None => skip = false
  end.

(** The world [w'] differs from [w] at most in the files named [names]. *)
Definition writes_only (names : list string) (w w' : world R) : Prop :=
  rng w' = rng w /\
  forall p : string,
    (forall name, In name names -> p <> path_of name) ->
    files w' !! p = files w !! p.

(** [m] reads nothing: from every world it yields the result [r], and it
    writes at most the files named [names]. *)
Definition pure_as {A} (names : list string) (m : M R A) (r : result A) : Prop :=
  forall w, (m w).1 = r /\ writes_only names w (m w).2.

(** Every entry of the table is what [calc_rope] computes for its key. *)
Definition table_sound (self : HunYuan) (t : gmap string rope) : Prop :=
  forall (h w : nat) (r : rope),
    t !! (pretty h +:+ "x" +:+ pretty w) = Some r -> calc_rope self h w = Ok r.

(** The weight and the bias of the layer are all zero. *)
Definition zero_params (l : Linear R) : Prop :=
  all_zero (weight l) /\ all_zero (bias l).


(** The worlds [w] and [w'] hold the same content under the names [names]
    of the output directory. *)
Definition agree_on (names : list string) (w w' : world R) : Prop :=
  forall n, In n names -> files w !! path_of n = files w' !! path_of n.

(** The value of [m] depends on the world through the files [names] only,
    and [m] leaves these files as they are. *)
Definition reads_only {A} (names : list string) (m : M R A) : Prop :=
  (forall w, agree_on names w (m w).2) /\
  (forall w1 w2, agree_on names w1 w2 -> (m w1).1 = (m w2).1).

End Statements.

(** ** A small instance

    Integer entries with exact arithmetic, a generator that always draws
    [0], and imported layers that return their first argument.  The
    examples below are evaluated on it. *)

Module Toy.

#[global] Instance Z_Scalar : Scalar Z := {|
  s0 := 0%Z; s1 := 1%Z; sadd := Z.add; smul := Z.mul;
  silu := fun v => v; float_ := fun v => v; half := fun v => v;
  truthy := fun v => negb (v =? 0)%Z; to_int := fun v => v |}.

Definition id_module {A} : Module A A := {| call := fun x => Ok x |}.

Definition self_attn : Module (tensor Z * unit) (tensor Z * list (tensor Z)) :=
  {| call := fun a => Ok (a.1, []) |}.

Definition cross_attn : Module (tensor Z * tensor Z * unit) (tensor Z * list (tensor Z)) :=
  {| call := fun a => Ok (a.1.1, []) |}.

Definition patch_embed (p : nat) : PatchEmbed Z :=
  {| pe_patch_size := (p, p); pe_num_patches := 0; pe_module := id_module |}.

(** Shape-aware stand-ins for the embedders, so that a whole forward pass
    runs: the timestep embedder and the style table copy each entry over a
    row of width 2, the patch embedder (patch size 1) turns every pixel of
    channel 0 into one token, the pooler keeps the first entry of each
    sample. *)
Definition rows_of {A} `{Inhabited A} (k : nat) : Module (tensor A) (tensor A) :=
  {| call := fun t =>
       match shape t with
       | [n] => Ok (tabulate [n; k] (fun idx => tget t (take 1 idx)))
       | _ => Raise RuntimeError
       end |}.

Definition pixel_embed : PatchEmbed Z :=
  {| pe_patch_size := (1, 1); pe_num_patches := 0;
     pe_module :=
       {| call := fun x =>
            match shape x with
            | [n; c; h; w] =>
                Ok (tabulate [n; h * w; 2] (fun idx =>
                      match idx with
                      | [i; t; _] => tget x [i; 0; t / w; t mod w]
                      | _ => 0%Z
                      end))
            | _ => Raise RuntimeError
            end |} |}.

Definition first_entry_pool : Module (tensor Z) (tensor Z) :=
  {| call := fun x =>
       match shape x with
       | [n; l; d] => Ok (tabulate [n; 1] (fun idx => tget x (take 1 idx ++ [0; 0])))
       | _ => Raise RuntimeError
       end |}.

#[global] Instance Z_Externals : Externals Z := {|
  output_directory := "output";
  rng_state := unit;
  rand := fun _ g => (0%Z, g);
  pyobj := unit;
  py_repr := fun _ => "{}";
  tensor_repr := fun _ => "tensor(...)";
  int_tensor_repr := fun _ => "tensor(...)";
  rope := unit;
  crop_box := unit;
  F_layer_norm := fun x _ _ _ _ => Ok x;
  RMSNorm_new := fun _ _ _ g => (id_module, g);
  FlashSelfMHAModified_new := fun _ _ _ _ g => (self_attn, g);
  Attention_new := fun _ _ _ _ g => (self_attn, g);
  FlashCrossMHAModified_new := fun _ _ _ _ _ g => (cross_attn, g);
  CrossAttention_new := fun _ _ _ _ _ g => (cross_attn, g);
  Mlp_new := fun _ _ g => (id_module, g);
  AttentionPool_new := fun _ _ _ _ g => (id_module, g);
  Embedding_new := fun _ _ g => (id_module, g);
  PatchEmbed_new := fun _ p _ _ g => (patch_embed p, g);
  TimestepEmbedder_new := fun _ g => (id_module, g);
  timestep_embedding := fun t dim => call (rows_of dim) t;
  get_fill_resize_and_crop := fun _ _ => Ok (tt, tt);
  get_2d_rotary_pos_embed := fun _ _ _ _ => Ok tt;
  basic_init_children := fun _ _ m g => (m, g);
  PatchEmbed_init_proj := fun p g => (p, g);
  TimestepEmbedder_init_mlp := fun m g => (m, g) |}.

Definition world0 : world Z := World ∅ tt.

Definition zeros (s : list nat) : tensor Z := full s 0%Z.

Definition zero_linear (n_in n_out : nat) : Linear Z :=
  {| weight := zeros [n_out; n_in]; bias := zeros [n_out] |}.

(** A block of width [h] without skip input. *)
Definition block (h : nat) : HunYuanDiTBlock :=
  {| use_flash_attn := false;
     norm1 := RMSNorm_object id_module; attn1 := self_attn;
     norm2 := RMSNorm_object id_module; mlp := id_module;
     default_modulation := zero_linear h h;
     attn2 := cross_attn; norm3 := RMSNorm_object id_module;
     skip_layers := None |}.

(** A model of the given depth, width 2, patch size 1 and one input
    channel, all of whose parameters are zero. *)
Definition model (d : nat) : HunYuan :=
  {| use_fp16 := true; depth := d; learn_sigma := true;
     in_channels := 1; out_channels := 2; patch_size := 1;
     num_heads := 1; hidden_size := 2;
     text_states_dim := 2; text_states_dim_t5 := 2;
     text_len := 1; text_len_t5 := 1; norm := "rms"; head_size := 2;
     mlp_t5 := (zero_linear 2 8, zero_linear 8 2);
     text_embedding_padding := zeros [2; 2];
     pooler := id_module; style_embedder := id_module;
     extra_in_dim := 256 * 6 + 2 + 1024;
     x_embedder := patch_embed 1; t_embedder := id_module;
     extra_embedder := (zero_linear 2 8, zero_linear 8 2);
     blocks := replicate d (block 2);
     final_layer :=
       {| norm_final := 2; linear := zero_linear 2 2;
          adaLN_modulation := zero_linear 2 4 |};
     unpatchify_channels := 2 |}.

(** A model of depth [d] whose embedders are the shape-aware stand-ins and
    whose final layer has non-zero parameters. *)
Definition net (d : nat) : HunYuan :=
  {| use_fp16 := true; depth := d; learn_sigma := true;
     in_channels := 1; out_channels := 2; patch_size := 1;
     num_heads := 1; hidden_size := 2;
     text_states_dim := 2; text_states_dim_t5 := 2;
     text_len := 1; text_len_t5 := 1; norm := "rms"; head_size := 2;
     mlp_t5 := ({| weight := Tensor [1; 2] [1; 1]%Z; bias := Tensor [1] [0]%Z |},
                {| weight := Tensor [2; 1] [1; 2]%Z; bias := Tensor [2] [0; 1]%Z |});
     text_embedding_padding := Tensor [2; 2] [7; 7; 7; 7]%Z;
     pooler := first_entry_pool; style_embedder := rows_of 2;
     extra_in_dim := 256 * 6 + 2 + 1024;
     x_embedder := pixel_embed; t_embedder := rows_of 2;
     extra_embedder :=
       ({| weight := full [1; 1539] 1%Z; bias := Tensor [1] [0]%Z |},
        {| weight := Tensor [2; 1] [1; 0]%Z; bias := Tensor [2] [0; 0]%Z |});
     blocks := replicate d (block 2);
     final_layer :=
       {| norm_final := 2;
          linear := {| weight := Tensor [2; 2] [1; 0; 0; 1]%Z; bias := Tensor [2] [0; 3]%Z |};
          adaLN_modulation :=
            {| weight := Tensor [4; 2] [0; 0; 0; 0; 0; 0; 0; 0]%Z;
               bias := Tensor [4] [1; 1; 1; 1]%Z |} |};
     unpatchify_channels := 2 |}.

(** The eight embedding files of [forward_raw], for one prompt of length 1
    and width 2. *)
Definition embedding_files : gmap string (file_content Z) :=
  list_to_map
    [ (path_of "clip_prompt_embeds.pt", TensorFile (Tensor [1; 1; 2] [1; 2]%Z));
      (path_of "clip_attention_mask.pt", TensorFile (Tensor [1; 1] [1]%Z));
      (path_of "clip_negative_prompt_embeds.pt", TensorFile (Tensor [1; 1; 2] [3; 4]%Z));
      (path_of "clip_negative_attention_mask.pt", TensorFile (Tensor [1; 1] [0]%Z));
      (path_of "mt5_prompt_embeds.pt", TensorFile (Tensor [1; 1; 2] [5; 6]%Z));
      (path_of "mt5_attention_mask.pt", TensorFile (Tensor [1; 1] [1]%Z));
      (path_of "mt5_negative_prompt_embeds.pt", TensorFile (Tensor [1; 1; 2] [7; 8]%Z));
      (path_of "mt5_negative_attention_mask.pt", TensorFile (Tensor [1; 1] [1]%Z)) ].

Definition world1 : world Z := World embedding_files tt.

(** The same embedding files beside a dump left by an earlier call. *)
Definition world2 : world Z :=
  World (<[path_of "context.txt" := TextFile "contexttensor(...)"]> embedding_files) tt.

(** A 2 x 2 image with one channel, and its timestep. *)
Definition image : tensor Z := Tensor [1; 1; 2; 2] [1; 2; 3; 4]%Z.
Definition timestep : tensor Z := Tensor [1] [5]%Z.

End Toy.

(** ** An instance with a NaN

    Integer entries extended by one value that is not finite, [None]: as
    IEEE arithmetic does with a NaN, every operation with this operand
    returns it, also the product with zero.  The imported layers return
    their argument. *)

Module Nan.

Definition op2 (f : Z -> Z -> Z) (a b : option Z) : option Z :=
  match a, b with
  | Some u, Some v => Some (f u v)
  | _, _ => None
  end.

#[global] Instance Scalar_nan : Scalar (option Z) := {|
  s0 := Some 0%Z; s1 := Some 1%Z; sadd := op2 Z.add; smul := op2 Z.mul;
  silu := fun v => v; float_ := fun v => v; half := fun v => v;
  truthy := fun v => match v with Some 0%Z => false | _ => true end;
  to_int := fun v => default 0%Z v |}.

Definition finite (v : option Z) : bool :=
  match v with Some _ => true | None => false end.

Definition zero (v : option Z) : bool :=
  match v with Some 0%Z => true | _ => false end.

Definition attn {I} : Module (tensor (option Z) * I) (tensor (option Z) * list (tensor (option Z))) :=
  {| call := fun a => Ok (a.1, []) |}.

Definition cross : Module (tensor (option Z) * tensor (option Z) * unit)
                     (tensor (option Z) * list (tensor (option Z))) :=
  {| call := fun a => Ok (a.1.1, []) |}.

Definition same : Module (tensor (option Z)) (tensor (option Z)) :=
  {| call := fun x => Ok x |}.

Definition table : Module (tensor Z) (tensor (option Z)) :=
  {| call := fun x => Ok (tmap Some x) |}.

Definition patches (p : nat) : PatchEmbed (option Z) :=
  {| pe_patch_size := (p, p); pe_num_patches := 0; pe_module := same |}.

#[global] Instance Externals_nan : Externals (option Z) := {|
  output_directory := "output";
  rng_state := unit;
  rand := fun _ g => (Some 0%Z, g);
  pyobj := unit;
  py_repr := fun _ => "{}";
  tensor_repr := fun _ => "tensor(...)";
  int_tensor_repr := fun _ => "tensor(...)";
  rope := unit;
  crop_box := unit;
  F_layer_norm := fun x _ _ _ _ => Ok x;
  RMSNorm_new := fun _ _ _ g => (same, g);
  FlashSelfMHAModified_new := fun _ _ _ _ g => (attn, g);
  Attention_new := fun _ _ _ _ g => (attn, g);
  FlashCrossMHAModified_new := fun _ _ _ _ _ g => (cross, g);
  CrossAttention_new := fun _ _ _ _ _ g => (cross, g);
  Mlp_new := fun _ _ g => (same, g);
  AttentionPool_new := fun _ _ _ _ g => (same, g);
  Embedding_new := fun _ _ g => (table, g);
  PatchEmbed_new := fun _ p _ _ g => (patches p, g);
  TimestepEmbedder_new := fun _ g => (same, g);
  timestep_embedding := fun t _ => Ok (tmap Some t);
  get_fill_resize_and_crop := fun _ _ => Ok (tt, tt);
  get_2d_rotary_pos_embed := fun _ _ _ _ => Ok tt;
  basic_init_children := fun _ _ m g => (m, g);
  PatchEmbed_init_proj := fun p g => (p, g);
  TimestepEmbedder_init_mlp := fun m g => (m, g) |}.

Definition world0 : world (option Z) := World ∅ tt.

Definition ones (s : list nat) : tensor (option Z) := full s (Some 1%Z).

Definition one_linear (n_in n_out : nat) : Linear (option Z) :=
  {| weight := ones [n_out; n_in]; bias := ones [n_out] |}.

(** A model without blocks, of width 2, all of whose parameters are one
    before [initialize_weights] runs. *)
Definition net : HunYuan :=
  {| use_fp16 := true; depth := 0; learn_sigma := true;
     in_channels := 1; out_channels := 2; patch_size := 1;
     num_heads := 1; hidden_size := 2;
     text_states_dim := 2; text_states_dim_t5 := 2;
     text_len := 1; text_len_t5 := 1; norm := "layer"; head_size := 2;
     mlp_t5 := (one_linear 2 8, one_linear 8 2);
     text_embedding_padding := ones [2; 2];
     pooler := same; style_embedder := table;
     extra_in_dim := 256 * 6 + 2 + 1024;
     x_embedder := patches 1; t_embedder := same;
     extra_embedder := (one_linear 2 8, one_linear 8 2);
     blocks := [];
     final_layer :=
       {| norm_final := 2; linear := one_linear 2 2;
          adaLN_modulation := one_linear 2 4 |};
     unpatchify_channels := 2 |}.

Definition cond : tensor (option Z) := Tensor [1; 2] [Some 5%Z; Some 6%Z].

End Nan.

(** ** The skip stack at an arbitrary depth *)

(** The number of entries of [skips] when the loop of [forward_raw]
    reaches index [layer], where [k] is [depth // 2]: the blocks below
    [k - 1] have pushed, the blocks above [k] have popped.  It is an
    integer: a negative value means that a pop found the list empty. *)
Definition stack_height (k layer : nat) : Z :=
  let pushes := Z.max (Z.of_nat k - 1) 0 in
  if layer <=? k then Z.min (Z.of_nat layer) pushes
  else (pushes - (Z.of_nat layer - Z.of_nat k - 1))%Z.

(** ** Outcomes and effects of a computation *)

Section Outcomes.
Context {R : Type} `{Scalar R} `{Externals R}.

(** [m] raises [e] from every world. *)
Definition raises {A} (m : M R A) (e : exn) : Prop :=
  forall w, exists w', m w = (Raise e, w').

(** Whatever its outcome, [m] leaves the random generator alone and
    changes no file outside [names]. *)
Definition writes_within {A} (names : list string) (m : M R A) : Prop :=
  forall w, writes_only names w (m w).2.

End Outcomes.

(** The debug files of [forward_raw] and of the blocks it runs. *)
Definition forward_raw_files : list string :=
  ["x3.txt"; "image_meta_size.txt"; "t.txt"; "extra_vec.txt";
   "x1.txt"; "shift_msa.txt"; "x.txt"].

(** The debug files of [forward]. *)
Definition forward_files : list string :=
  ["x.txt"; "context.txt"; "y.txt"; "kwargs.txt"] ++ forward_raw_files.

(** ** What initialisation keeps and what it resets *)

Section Layout.
Context {R : Type} `{Scalar R} `{Externals R}.

(** The block [b'] has the layers of [b]: the same attention flavour, the
    same classes of normalisation, and skip layers exactly when [b] has
    them. *)
Definition same_layout (b b' : HunYuanDiTBlock) : Prop :=
  use_flash_attn b' = use_flash_attn b /\
  class_of (norm1 b') = class_of (norm1 b) /\
  class_of (norm2 b') = class_of (norm2 b) /\
  class_of (norm3 b') = class_of (norm3 b) /\
  match skip_layers b, skip_layers b' with
  | Some (n, _), Some (n', _) => class_of n' = class_of n
  | None, None => True
  | _, _ => False
  end.

(** The bias of every [nn.Linear] of the block is zero. *)
Definition zero_biases (b : HunYuanDiTBlock) : Prop :=
  all_zero (bias (default_modulation b)) /\
  match skip_layers b with
  | Some (_, skip_linear) => all_zero (bias skip_linear)
  | None => True
  end.

(** What [initialize_weights] keeps of a model and what it resets. *)
Definition reinitialised (self self' : HunYuan) : Prop :=
  depth self' = depth self /\ patch_size self' = patch_size self /\
  head_size self' = head_size self /\ hidden_size self' = hidden_size self /\
  num_heads self' = num_heads self /\
  Forall2 same_layout (blocks self) (blocks self') /\
  Forall zero_biases (blocks self') /\
  all_zero (bias (mlp_t5 self').1) /\ all_zero (bias (mlp_t5 self').2) /\
  all_zero (bias (extra_embedder self').1) /\ all_zero (bias (extra_embedder self').2) /\
  text_embedding_padding self' = text_embedding_padding self.

End Layout.

(** ** HUNYUAN_DIT_CONFIG *)



(** ** The content of one file after a computation *)

Section FileContent.
Context {R : Type} `{Scalar R} `{Externals R}.

(** [m] leaves the file [name] as it is. *)
Definition keeps_file {A} (name : string) (m : M R A) : Prop :=
  forall w, files (m w).2 !! path_of name = files w !! path_of name.

(** When [m] returns, the file [name] holds a text satisfying [P]. *)
Definition leaves_text {A} (name : string) (P : string -> Prop) (m : M R A) : Prop :=
  forall w a w',
    m w = (Ok a, w') ->
    exists text, files w' !! path_of name = Some (TextFile text) /\ P text.

(** The texts that a block writes to [x.txt]. *)
Definition norm1_dump (text : string) : Prop :=
  exists n n' : tensor R,
    text = "self.norm1(x)" +:+ shape_repr (shape n) +:+ tensor_repr n'.

End FileContent.

(** ** The layout of the loaded text conditioning *)

Section Guidance.
Context {R : Type} `{Scalar R} `{Externals R}.

(** The file [name] of the output directory holds the tensor [t], one
    sample of shape [s]. *)
Definition embedding_file (w : world R) (name : string) (t : tensor R) (s : list nat)
    : Prop :=
  files w !! path_of name = Some (TensorFile t) /\ shape t = 1 :: s /\ wf_tensor t.

(** [out] is a batch of [B + B] samples of shape [s]: the first [B] are
    the float16 cast of the sample [pos], the last [B] of the sample
    [neg]. *)
Definition guidance_pair (B : nat) (s : list nat) (pos neg out : tensor R) : Prop :=
  shape out = (B + B) :: s /\ wf_tensor out /\
  forall (i : nat) (idx : list nat),
    i < B + B -> in_bounds s idx ->
    tget out (i :: idx) = half (tget (if i <? B then pos else neg) (0 :: idx)).

End Guidance.

(** ** The two ways [forward_raw] returns *)

Section ReturnDict.
Context {R : Type} `{Scalar R} `{Externals R}.

(** The outcome [q] is the outcome [p] with the returned tensor wrapped
    in a dictionary under the key "x"; [p] itself returns no dictionary. *)
Definition wrapped_in_dict (p q : result (@raw_output R) * world R) : Prop :=
  match p with
  | (Ok (Out_tensor a), w') => q = (Ok (Out_dict [("x", a)]), w')
  | (Ok (Out_dict _), _) => False
  | (Raise e, w') => q = (Raise e, w')
  end.

End ReturnDict.

(** ** The pairing that the skip stack realises *)

Section Mirror.
Context {R : Type} `{Scalar R} `{Externals R}.

(** The block loop as a plan without a stack: a block whose index [layer]
    exceeds [depth // 2] receives the output of block
    [depth - 1 - layer].  [hist] holds the outputs of the blocks run so
    far, in the order of the blocks. *)
Fixpoint run_blocks_mirrored (self : HunYuan) (layer : nat) (bs : list HunYuanDiTBlock)
    (x c text_states : tensor R) (freqs_cis_img : rope) (hist : list (tensor R))
    : M R (tensor R) :=
  match bs with
  | [] => ret x
  | block :: bs' =>
      x' <- (if consumes_skip (depth self) layer then
               match hist !! (depth self - 1 - layer) with
               | Some skip =>
                   HunYuanDiTBlock_forward block x c text_states freqs_cis_img (Some skip)
               | None => raise IndexError
               end
             else HunYuanDiTBlock_forward block x c text_states freqs_cis_img None) ;;
      run_blocks_mirrored self (S layer) bs' x' c text_states freqs_cis_img (hist ++ [x'])
  end.

End Mirror.

(** ** Calls that follow one another *)

Section Replay.
Context {R : Type} `{Scalar R} `{Externals R}.

(** [m] acts alike on worlds that hold the same files [names]: it yields
    the same result, it leaves the random generator alone, and every path
    is either given the same content in both worlds or left, in both, as
    it was. *)
Definition acts_alike {A} (names : list string) (m : M R A) : Prop :=
  forall w1 w2, agree_on names w1 w2 ->
    (m w1).1 = (m w2).1 /\
    rng (m w1).2 = rng w1 /\ rng (m w2).2 = rng w2 /\
    forall p : string,
      files (m w1).2 !! p = files (m w2).2 !! p \/
      (files (m w1).2 !! p = files w1 !! p /\ files (m w2).2 !! p = files w2 !! p).

End Replay.

(** ** Finite and zero entries *)

Section Finite.
Context {R : Type} `{Scalar R} `{!FloatLaws R}.



End Finite.

(** ** The values and the files of one block call *)

Section BlockTrace.
Context {R : Type} `{Scalar R} `{Externals R}.

(** [y] is the value of a normalisation layer on [x]: for an
    [FP32_Layernorm], [F.layer_norm] of the float32 casts of the input,
    the weight and the bias, cast back; for an [RMSNorm], the value of the
    imported call. *)
Definition normalised (o : norm_object) (x y : tensor R) : Prop :=
  match o with
  | FP32_Layernorm_object n (Some w) (Some b) eps =>
      exists z,
        F_layer_norm (tmap float_ x) [n] (Some (tmap float_ w)) (Some (tmap float_ b)) eps
        = Ok z /\
        y = tmap half z
  | FP32_Layernorm_object _ _ _ _ => False
  | RMSNorm_object m => call m x = Ok y
  end.

(** The intermediate values of a call of [HunYuanDiTBlock.forward]. *)
Record block_values : Type := {
  v_x0 : tensor R;          (* [x] after the long skip connection *)
  v_m : tensor R;           (* [self.default_modulation(c)] *)
  v_shift_msa : tensor R;
  v_n1 : tensor R;          (* [self.norm1(x)] *)
  v_a : tensor R;           (* [self.norm1(x) + shift_msa] *)
  v_o1 : tensor R * list (tensor R);
  v_x1 : tensor R;          (* [x] after self-attention *)
  v_n3 : tensor R;
  v_o2 : tensor R * list (tensor R);
  v_x2 : tensor R;          (* [x] after cross-attention *)
  v_n2 : tensor R;
  v_o3 : tensor R;
}.

(** [x0] is [x] itself in a block without skip layers, and
    [skip_linear(skip_norm(cat([x, skip], dim=-1)))] in a block with
    them. *)
Definition after_skip (self : HunYuanDiTBlock) (x : tensor R) (skip : option (tensor R))
    (x0 : tensor R) : Prop :=
  match skip_layers self with
  | Some (skip_norm, skip_linear) =>
      exists s cat_ n,
        skip = Some s /\
        cat (length (shape x) - 1) x s = Ok cat_ /\
        normalised skip_norm cat_ n /\
        Linear_forward skip_linear n = Ok x0
  | None => x0 = x
  end.

(** The values [v] are those of a call that returns [out]: the skip
    step; self-attention on [norm1(x) + shift_msa] with the residual
    added to the [x] that entered [norm1]; cross-attention on [norm3(x)]
    and the text states, with its residual; the feed-forward layer on
    [norm2(x)], with its residual. *)
Definition block_trace (self : HunYuanDiTBlock) (x c text_states : tensor R)
    (freq_cis_img : rope) (skip : option (tensor R)) (v : block_values) (out : tensor R)
    : Prop :=
  after_skip self x skip (v_x0 v) /\
  Linear_forward (default_modulation self) (tmap (fun e => half (silu (float_ e))) c)
  = Ok (v_m v) /\
  unsqueeze 1 (v_m v) = Ok (v_shift_msa v) /\
  normalised (norm1 self) (v_x0 v) (v_n1 v) /\
  tadd (v_n1 v) (v_shift_msa v) = Ok (v_a v) /\
  call (attn1 self) (v_a v, freq_cis_img) = Ok (v_o1 v) /\
  tadd (v_x0 v) (v_o1 v).1 = Ok (v_x1 v) /\
  normalised (norm3 self) (v_x1 v) (v_n3 v) /\
  call (attn2 self) (v_n3 v, text_states, freq_cis_img) = Ok (v_o2 v) /\
  tadd (v_x1 v) (v_o2 v).1 = Ok (v_x2 v) /\
  normalised (norm2 self) (v_x2 v) (v_n2 v) /\
  call (mlp self) (v_n2 v) = Ok (v_o3 v) /\
  tadd (v_x2 v) (v_o3 v) = Ok out.

End BlockTrace.

(** ** Layers that keep the batch *)

Section KeepsBatch.
Context {R : Type} `{Scalar R} `{Externals R}.

(** The layer returns a tensor of the shape of its argument. *)
Definition keeps_shape (m : Module (tensor R) (tensor R)) : Prop :=
  forall x y, call m x = Ok y -> shape y = shape x.

Definition norm_keeps_shape (o : norm_object) : Prop :=
  match o with
  | RMSNorm_object m => keeps_shape m
  | FP32_Layernorm_object _ _ _ _ => True
  end.

(** The imported layers of the block return tensors of the shape of
    their first argument. *)
Definition block_keeps_shape (b : HunYuanDiTBlock) : Prop :=
  norm_keeps_shape (norm1 b) /\ norm_keeps_shape (norm2 b) /\
  norm_keeps_shape (norm3 b) /\
  (forall a f o, call (attn1 b) (a, f) = Ok o -> shape o.1 = shape a) /\
  (forall n ts f o, call (attn2 b) (n, ts, f) = Ok o -> shape o.1 = shape n) /\
  keeps_shape (mlp b) /\
  match skip_layers b with
  | Some (skip_norm, _) => norm_keeps_shape skip_norm
  | None => True
  end.

(** The imported layers of the model treat a batch as the layers of
    PyTorch and of the HunYuanDiT code do: [F.layer_norm], the
    normalisations, the attentions and the feed-forward layers return
    tensors of the shape of their input; the timestep embedder turns [n]
    timesteps into [n] rows; the patch embedder turns [n] images into [n]
    sequences of tokens. *)
Definition keeps_batch (self : HunYuan) : Prop :=
  (forall x ns w b eps y, F_layer_norm x ns w b eps = Ok y -> shape y = shape x) /\
  (forall t n t2,
      shape t = [n] -> call (t_embedder self) t = Ok t2 -> exists d, shape t2 = [n; d]) /\
  (forall x n c h w e,
      shape x = [n; c; h; w] -> call (pe_module (x_embedder self)) x = Ok e ->
      exists T D, shape e = [n; T; D]) /\
  Forall block_keeps_shape (blocks self).

(** A batch of [N] sequences of tokens. *)
Definition batch3 (N : nat) (x : tensor R) : Prop :=
  exists T D, shape x = [N; T; D].

End KeepsBatch.

(** * Properties *)

(** ** Row-major indexing *)

Lemma numel_cons (d : nat) (s : list nat) : numel (d :: s) = d * numel s.
Proof. reflexivity. Qed.

Lemma numel_app (s1 s2 : list nat) : numel (s1 ++ s2) = numel s1 * numel s2.
Proof.
  induction s1 as [|d s1 IH]; simpl.
  - lia.
  - rewrite IH. lia.
Qed.

Lemma in_bounds_nil : in_bounds [] [].
Proof. constructor. Qed.

Lemma in_bounds_cons (k d : nat) (idx s : list nat) :
  k < d -> in_bounds s idx -> in_bounds (d :: s) (k :: idx).
Proof. intros; constructor; assumption. Qed.

Lemma in_bounds_length (s idx : list nat) : in_bounds s idx -> length idx = length s.
Proof. apply Forall2_length. Qed.

Lemma ravel_lt (s idx : list nat) : in_bounds s idx -> ravel s idx < numel s.
Proof.
  intros Hb. induction Hb as [|k d idx s Hk _ IH]; simpl.
  - lia.
  - nia.
Qed.

Lemma unravel_ravel (s idx : list nat) :
  in_bounds s idx -> unravel s (ravel s idx) = idx.
Proof.
  intros Hb. induction Hb as [|k d idx s Hk Hb IH]; simpl.
  - reflexivity.
  - pose proof (ravel_lt s idx Hb) as Hr.
    assert (Hq : (k * numel s + ravel s idx) / numel s = k).
    { symmetry. apply Nat.div_unique with (r := ravel s idx); lia. }
    assert (Hm : (k * numel s + ravel s idx) mod numel s = ravel s idx).
    { symmetry. apply Nat.mod_unique with (q := k); lia. }
    rewrite Hq, Hm, IH. reflexivity.
Qed.

Lemma unravel_in_bounds (s : list nat) (i : nat) :
  i < numel s -> in_bounds s (unravel s i).
Proof.
  revert i. induction s as [|d s IH]; intros i Hi; simpl in *.
  - constructor.
  - assert (Hn : numel s <> 0) by (intros E; rewrite E in Hi; lia).
    constructor.
    + apply Nat.Div0.div_lt_upper_bound. lia.
    + apply IH. apply Nat.mod_upper_bound. exact Hn.
Qed.

Lemma ravel_unravel (s : list nat) (i : nat) :
  i < numel s -> ravel s (unravel s i) = i.
Proof.
  revert i. induction s as [|d s IH]; intros i Hi; simpl in *.
  - lia.
  - assert (Hn : numel s <> 0) by (intros E; rewrite E in Hi; lia).
    rewrite IH by (apply Nat.mod_upper_bound; exact Hn).
    pose proof (Nat.div_mod_eq i (numel s)). lia.
Qed.

Lemma lookup_total_map_seq {A} `{Inhabited A} (g : nat -> A) (n i : nat) :
  i < n -> map g (seq 0 n) !!! i = g i.
Proof.
  intros Hi. change (map g (seq 0 n)) with (g <$> seq 0 n).
  rewrite (list_lookup_total_fmap g (seq 0 n) i) by (rewrite length_seq; exact Hi).
  rewrite lookup_total_seq_lt by exact Hi. reflexivity.
Qed.

Lemma shape_tabulate {A} (s : list nat) (f : list nat -> A) :
  shape (tabulate s f) = s.
Proof. reflexivity. Qed.

Lemma wf_tabulate {A} (s : list nat) (f : list nat -> A) : wf_tensor (tabulate s f).
Proof. unfold wf_tensor, tabulate; simpl. rewrite length_map, length_seq. reflexivity. Qed.

Lemma tget_tabulate {A} `{Inhabited A} (s idx : list nat) (f : list nat -> A) :
  in_bounds s idx -> tget (tabulate s f) idx = f idx.
Proof.
  intros Hb. unfold tget, tabulate; simpl.
  rewrite lookup_total_map_seq by (apply ravel_lt; exact Hb).
  rewrite unravel_ravel by exact Hb. reflexivity.
Qed.

Lemma data_tabulate_ext {A} (s : list nat) (f g : list nat -> A) :
  (forall idx, in_bounds s idx -> f idx = g idx) ->
  data (tabulate s f) = data (tabulate s g).
Proof.
  intros Hfg. unfold tabulate; simpl. apply map_ext_in.
  intros i Hi. apply in_seq in Hi. apply Hfg, unravel_in_bounds. lia.
Qed.

(** A well-formed tensor is the table of its own entries. *)
Lemma tabulate_tget {A} `{Inhabited A} (t : tensor A) :
  wf_tensor t -> tabulate (shape t) (tget t) = t.
Proof.
  intros Hwf. destruct t as [s d]. unfold wf_tensor in Hwf; simpl in *.
  unfold tabulate, tget; simpl. f_equal.
  apply list_eq_same_length with (numel s).
  - exact Hwf.
  - rewrite length_map, length_seq. reflexivity.
  - intros i x y Hi Hx Hy.
    apply list_lookup_total_correct in Hx, Hy.
    rewrite lookup_total_map_seq in Hx by exact Hi.
    rewrite ravel_unravel in Hx by exact Hi. congruence.
Qed.

(** ** The monad *)

Section MonadFacts.
Context {R : Type} `{Scalar R} `{Externals R}.

Lemma bind_Ok {A B} (m : M R A) (k : A -> M R B) (w w' : world R) (a : A) :
  m w = (Ok a, w') -> bind m k w = k a w'.
Proof. intros E. unfold bind. rewrite E. reflexivity. Qed.

Lemma bind_Raise {A B} (m : M R A) (k : A -> M R B) (w w' : world R) (e : exn) :
  m w = (Raise e, w') -> bind m k w = (Raise e, w').
Proof. intros E. unfold bind. rewrite E. reflexivity. Qed.

End MonadFacts.

(** Case analysis on the first action of a [bind]. *)
Ltac bind_cases E :=
  match goal with
  | |- context [bind ?m ?k ?w] =>
      let a := fresh "a" in
      let e := fresh "e" in
      let w' := fresh "w" in
      destruct (m w) as [[a|e] w'] eqn:E;
      [ rewrite (bind_Ok m k w w' a E) | rewrite (bind_Raise m k w w' e E) ]
  end.

(** ** C8: the resolution buckets *)

(** C8.  [ResolutionGroup] holds eleven resolutions and eleven distinct
    (width, height) pairs; [is_valid width height] is true exactly for the
    pairs of the fixed list; in particular it is true at (1024, 1024) and
    false at (999, 999). *)
Theorem ResolutionGroup_is_valid_spec :
  length (ResolutionGroup.data ResolutionGroup.init) = 11 /\
  size (ResolutionGroup.supported_sizes ResolutionGroup.init) = 11 /\
  (forall width height : nat,
      ResolutionGroup.is_valid ResolutionGroup.init width height = true <->
      In (width, height)
         [(768, 768); (1024, 1024); (1280, 1280); (1024, 768); (1152, 864);
          (1280, 960); (768, 1024); (864, 1152); (960, 1280); (1280, 768);
          (768, 1280)]) /\
  ResolutionGroup.is_valid ResolutionGroup.init 1024 1024 = true /\
  ResolutionGroup.is_valid ResolutionGroup.init 999 999 = false.
Proof.
  split; [reflexivity|].
  split; [vm_compute; reflexivity|].
  split.
  - intros width height. unfold ResolutionGroup.is_valid.
    rewrite bool_decide_eq_true.
    unfold ResolutionGroup.init; cbn [ResolutionGroup.supported_sizes].
    rewrite elem_of_list_to_set, list_elem_of_In. reflexivity.
  - split; vm_compute; reflexivity.
Qed.

(** ** C1: the skip stack of [forward_raw] *)

Section SkipStack.
Context {R : Type} `{Scalar R} `{Externals R}.

Lemma consumes_skip_even (k layer : nat) :
  consumes_skip (2 * k) layer = (k <? layer).
Proof.
  unfold consumes_skip.
  replace (Z.of_nat (2 * k) / 2)%Z with (Z.of_nat k)
    by (rewrite Nat2Z.inj_mul, Z.mul_comm, Z.div_mul; lia).
  destruct (k <? layer) eqn:E.
  - apply Nat.ltb_lt in E. apply Z.ltb_lt. lia.
  - apply Nat.ltb_ge in E. apply Z.ltb_ge. lia.
Qed.

Lemma produces_skip_even (k layer : nat) :
  produces_skip (2 * k) layer = (S layer <? k).
Proof.
  unfold produces_skip.
  replace (Z.of_nat (2 * k) / 2)%Z with (Z.of_nat k)
    by (rewrite Nat2Z.inj_mul, Z.mul_comm, Z.div_mul; lia).
  destruct (S layer <? k) eqn:E.
  - apply Nat.ltb_lt in E. apply Z.ltb_lt. lia.
  - apply Nat.ltb_ge in E. apply Z.ltb_ge. lia.
Qed.

(** The flag [skip=layer > depth // 2] of [HunYuan.__init__] is the test
    of the loop. *)
Lemma init_skip_flag (depth layer : nat) :
  bool_decide (depth / 2 < layer) = consumes_skip depth layer.
Proof.
  unfold consumes_skip.
  replace (Z.of_nat depth / 2)%Z with (Z.of_nat (depth / 2))
    by (rewrite Nat2Z.inj_div; reflexivity).
  destruct (Z.of_nat (depth / 2) <? Z.of_nat layer)%Z eqn:E.
  - apply Z.ltb_lt in E. apply bool_decide_eq_true. lia.
  - apply Z.ltb_ge in E. apply bool_decide_eq_false. lia.
Qed.

(** For an even depth the loop never pops an empty stack: it ends with an
    empty stack, or with an exception that a block raised. *)
Lemma run_blocks_even (self : HunYuan) (k : nat) (c text_states : tensor R)
    (freqs_cis_img : rope) :
  depth self = 2 * k ->
  forall (bs : list HunYuanDiTBlock) (layer : nat) (x : tensor R)
         (skips : list (tensor R)) (w : world R),
    layer + length bs = 2 * k ->
    length skips = height_at k layer ->
    match run_blocks self layer bs x c text_states freqs_cis_img skips w with
    | (Ok xs, _) => xs.2 = []
    | (Raise e, _) =>
        exists b x' skip w0,
          In b bs /\
          (HunYuanDiTBlock_forward b x' c text_states freqs_cis_img skip w0).1 = Raise e
    end.
Proof.
  intros Hd bs. induction bs as [|block bs IH]; intros layer x skips w Hlen Hh.
  - simpl in *. unfold ret. simpl.
    unfold height_at in Hh.
    destruct (layer <=? k) eqn:E.
    + apply Nat.leb_le in E. destruct skips; [reflexivity|simpl in Hh; lia].
    + destruct skips; [reflexivity|simpl in Hh; lia].
  - simpl in Hlen. cbn [run_blocks].
    rewrite Hd, consumes_skip_even, produces_skip_even.
    unfold height_at in Hh.
    destruct (k <? layer) eqn:Ec.
    + (* a consuming block: the stack is not empty *)
      apply Nat.ltb_lt in Ec.
      assert (El : (layer <=? k) = false) by (apply Nat.leb_gt; lia).
      rewrite El in Hh.
      destruct skips as [|skip skips]; [simpl in Hh; lia|].
      assert (Ep : (S layer <? k) = false) by (apply Nat.ltb_ge; lia).
      rewrite Ep.
      unfold bind at 1. unfold bind at 1.
      destruct (HunYuanDiTBlock_forward block x c text_states freqs_cis_img (Some skip) w)
        as [[y|e] w1] eqn:Ef.
      * unfold ret; cbn [fst snd].
        specialize (IH (S layer) y skips w1).
        destruct (run_blocks self (S layer) bs y c text_states freqs_cis_img skips w1)
          as [[xs|e] w2].
        -- apply IH; [lia|]. unfold height_at.
           assert (El' : (S layer <=? k) = false) by (apply Nat.leb_gt; lia).
           rewrite El'. simpl in Hh. lia.
        -- destruct IH as (b & x' & sk & w0 & Hin & Hb).
           { lia. }
           { unfold height_at.
             assert (El' : (S layer <=? k) = false) by (apply Nat.leb_gt; lia).
             rewrite El'. simpl in Hh. lia. }
           exists b, x', sk, w0. split; [right; exact Hin|exact Hb].
      * exists block, x, (Some skip), w. split; [left; reflexivity|].
        rewrite Ef. reflexivity.
    + (* a block without skip input *)
      apply Nat.ltb_ge in Ec.
      assert (El : (layer <=? k) = true) by (apply Nat.leb_le; lia).
      rewrite El in Hh.
      unfold bind at 1. unfold bind at 1.
      destruct (HunYuanDiTBlock_forward block x c text_states freqs_cis_img None w)
        as [[y|e] w1] eqn:Ef.
      * unfold ret; cbn [fst snd].
        assert (Hnext :
          length (if S layer <? k then y :: skips else skips) = height_at k (S layer)).
        { unfold height_at.
          destruct (S layer <? k) eqn:Ep.
          - apply Nat.ltb_lt in Ep.
            assert (El' : (S layer <=? k) = true) by (apply Nat.leb_le; lia).
            rewrite El'. cbn [length]. lia.
          - apply Nat.ltb_ge in Ep.
            destruct (S layer <=? k) eqn:El'.
            + apply Nat.leb_le in El'. lia.
            + apply Nat.leb_gt in El'. lia. }
        specialize (IH (S layer) y (if S layer <? k then y :: skips else skips) w1).
        destruct (run_blocks self (S layer) bs y c text_states freqs_cis_img
                    (if S layer <? k then y :: skips else skips) w1)
          as [[xs|e] w2].
        -- apply IH; [lia|exact Hnext].
        -- destruct IH as (b & x' & sk & w0 & Hin & Hb); [lia|exact Hnext|].
           exists b, x', sk, w0. split; [right; exact Hin|exact Hb].
      * exists block, x, None, w. split; [left; reflexivity|].
        rewrite Ef. reflexivity.
Qed.

(** C1.  For every depth in {12, 24, 28, 40}: the blocks that append to
    [skips] (indices below [depth // 2 - 1]) are as many as the blocks
    that pop from it (indices above [depth // 2], the ones built with
    [skip=True]); and the loop of [forward_raw] over a model of that depth
    never pops an empty stack: it returns with the stack empty, or stops
    with an exception raised inside a block. *)
Theorem skip_stack_balanced (d : nat) :
  d = 12 \/ d = 24 \/ d = 28 \/ d = 40 ->
  length (filter (fun layer => produces_skip d layer) (seq 0 d))
  = length (filter (fun layer => consumes_skip d layer) (seq 0 d)) /\
  (forall layer : nat, bool_decide (d / 2 < layer) = consumes_skip d layer) /\
  (forall (self : HunYuan) (x c text_states : tensor R) (freqs_cis_img : rope)
          (w : world R),
      depth self = d -> length (blocks self) = d ->
      match run_blocks self 0 (blocks self) x c text_states freqs_cis_img [] w with
      | (Ok xs, _) => xs.2 = []
      | (Raise e, _) =>
          exists b x' skip w0,
            In b (blocks self) /\
            (HunYuanDiTBlock_forward b x' c text_states freqs_cis_img skip w0).1
            = Raise e
      end).
Proof.
  intros Hd. split; [|split].
  - destruct Hd as [-> | [-> | [-> | ->]]]; vm_compute; reflexivity.
  - intros layer. apply init_skip_flag.
  - intros self x c text_states freqs_cis_img w Hdepth Hblocks.
    assert (Hk : exists k, d = 2 * k /\ 0 < k).
    { destruct Hd as [-> | [-> | [-> | ->]]];
        [exists 6|exists 12|exists 14|exists 20]; split; lia. }
    destruct Hk as (k & -> & Hk).
    apply run_blocks_even with (k := k).
    + exact Hdepth.
    + simpl. lia.
    + reflexivity.
Qed.

End SkipStack.

(** The loop on a model of depth 12. *)
Lemma skip_stack_balanced_witness :
  (12 = 12 \/ 12 = 24 \/ 12 = 28 \/ 12 = 40) /\
  length (filter (fun layer => produces_skip 12 layer) (seq 0 12)) = 5 /\
  length (filter (fun layer => consumes_skip 12 layer) (seq 0 12)) = 5 /\
  depth (Toy.model 12) = 12 /\ length (blocks (Toy.model 12)) = 12 /\
  match run_blocks (Toy.model 12) 0 (blocks (Toy.model 12))
          (Toy.zeros [1; 1; 2]) (Toy.zeros [1; 2]) (Toy.zeros [1; 1; 2]) tt []
          Toy.world0 with
  | (Ok xs, _) => xs.2 = []
  | (Raise e, _) =>
      exists b x' skip w0,
        In b (blocks (Toy.model 12)) /\
        (HunYuanDiTBlock_forward b x' (Toy.zeros [1; 2]) (Toy.zeros [1; 1; 2]) tt skip w0).1
        = Raise e
  end.
Proof.
  split; [left; reflexivity|].
  split; [reflexivity|]. split; [reflexivity|].
  split; [reflexivity|]. split; [reflexivity|].
  destruct (skip_stack_balanced (R := Z) 12 (or_introl eq_refl)) as (_ & _ & Hrun).
  apply Hrun; reflexivity.
Defined.

(** ** C2: unpatchify *)

Section Unpatchify.
Context {R : Type} `{Scalar R} `{Externals R}.

Lemma reshape_Ok {A} (s : list nat) (t : tensor A) :
  numel s = length (data t) -> reshape s t = Ok (Tensor s (data t)).
Proof. intros E. unfold reshape. rewrite E, Nat.eqb_refl. reflexivity. Qed.

(** C2.  Let [x] have shape [(N, T, p * p * c)] for the patch size [p] and
    the channel count [c] of the model.  If [h * w] differs from [T],
    [unpatchify x h w] fails its assertion.  If [h * w = T] it returns an
    image batch of shape [(N, c, h * p, w * p)] in which pixel
    [(hh * p + pp, ww * p + qq)] of channel [cc] is entry
    [(pp * p + qq) * c + cc] of token [hh * w + ww]: each token is a
    [(p, p, c)] block and the axes are permuted as
    [(n,h,w,p,q,c) -> (n,c,h,p,w,q)]. *)
Theorem unpatchify_spec (self : HunYuan) (x : tensor R) (N T h w : nat) :
  let p := (pe_patch_size (x_embedder self)).1 in
  let c := unpatchify_channels self in
  shape x = [N; T; p * p * c] ->
  wf_tensor x ->
  (h * w <> T -> unpatchify self x h w = Raise AssertionError) /\
  (h * w = T ->
   exists imgs,
     unpatchify self x h w = Ok imgs /\
     shape imgs = [N; c; h * p; w * p] /\
     wf_tensor imgs /\
     forall n cc hh pp ww qq,
       n < N -> cc < c -> hh < h -> pp < p -> ww < w -> qq < p ->
       tget imgs [n; cc; hh * p + pp; ww * p + qq]
       = tget x [n; hh * w + ww; (pp * p + qq) * c + cc]).
Proof.
  intros p c Hshape Hwf. unfold unpatchify. fold p c. rewrite Hshape.
  split.
  - intros Hne. apply Nat.eqb_neq in Hne. rewrite Hne. reflexivity.
  - intros <-. rewrite Nat.eqb_refl.
    assert (Hlen : length (data x) = N * (h * w * (p * p * c))).
    { unfold wf_tensor in Hwf. rewrite Hwf, Hshape. cbn [numel fold_right]. ring. }
    rewrite reshape_Ok by (cbn [numel fold_right]; rewrite Hlen; ring).
    cbn [rbind einsum_nhwpqc_nchpwq shape].
    set (f := fun idx : list nat =>
                match idx with
                | [i_n; i_c; i_h; i_p; i_w; i_q] =>
                    tget (Tensor [N; h; w; p; p; c] (data x)) [i_n; i_h; i_w; i_p; i_q; i_c]
                | _ => inhabitant
                end).
    rewrite (shape_tabulate _ f). cbv beta iota.
    rewrite reshape_Ok.
    2:{ pose proof (wf_tabulate [N; c; h; p; w; p] f) as Hw.
        unfold wf_tensor in Hw. rewrite Hw. cbn [shape tabulate numel fold_right]. ring. }
    eexists. split; [reflexivity|]. split; [reflexivity|]. split.
    + pose proof (wf_tabulate [N; c; h; p; w; p] f) as Hw.
      unfold wf_tensor in *. cbn [shape data] in *. rewrite Hw.
      cbn [tabulate shape numel fold_right]. ring.
    + intros n cc hh pp ww qq Hn Hcc Hhh Hpp Hww Hqq.
      unfold tget at 1. cbn [shape data].
      replace (ravel [N; c; h * p; w * p] [n; cc; hh * p + pp; ww * p + qq])
        with (ravel [N; c; h; p; w; p] [n; cc; hh; pp; ww; qq])
        by (cbn [ravel numel fold_right]; ring).
      change (data (tabulate [N; c; h; p; w; p] f)
                !!! ravel [N; c; h; p; w; p] [n; cc; hh; pp; ww; qq])
        with (tget (tabulate [N; c; h; p; w; p] f) [n; cc; hh; pp; ww; qq]).
      rewrite tget_tabulate by (repeat (constructor; try assumption)).
      unfold f, tget. cbn [shape data]. rewrite Hshape. f_equal.
      cbn [ravel numel fold_right]. ring.
Qed.

End Unpatchify.

(** Two tokens of a 1 x 2 grid, patch size 1, two channels. *)
Lemma unpatchify_spec_witness :
  let x := Tensor [1; 2; 2] [1; 2; 3; 4]%Z in
  shape x = [1; 2; 1 * 1 * 2] /\ wf_tensor x /\
  unpatchify (Toy.model 2) x 2 2 = Raise AssertionError /\
  unpatchify (Toy.model 2) x 1 2 = Ok (Tensor [1; 2; 1; 2] [1; 3; 2; 4]%Z).
Proof.
  intros x.
  pose proof (unpatchify_spec (Toy.model 2) x 1 2 2 2 eq_refl eq_refl) as [Herr _].
  pose proof (unpatchify_spec (Toy.model 2) x 1 2 1 2 eq_refl eq_refl) as [_ Hok].
  split; [reflexivity|]. split; [reflexivity|]. split.
  - apply Herr. discriminate.
  - destruct (Hok eq_refl) as (imgs & Himgs & _). reflexivity.
Defined.

(** ** C7: modulate *)

Lemma tensor_ext {A} `{Inhabited A} (a b : tensor A) :
  shape a = shape b -> wf_tensor a -> wf_tensor b ->
  (forall idx, in_bounds (shape a) idx -> tget a idx = tget b idx) ->
  a = b.
Proof.
  intros Hs Ha Hb Hget.
  rewrite <- (tabulate_tget a Ha), <- (tabulate_tget b Hb), <- Hs.
  unfold tabulate. f_equal.
  apply (data_tabulate_ext (shape a) (tget a) (tget b)). exact Hget.
Qed.

Lemma tget_tmap {A B} `{Inhabited A, Inhabited B} (g : A -> B) (t : tensor A)
    (idx : list nat) :
  ravel (shape t) idx < length (data t) ->
  tget (tmap g t) idx = g (tget t idx).
Proof.
  intros Hlt. unfold tget, tmap. cbn [shape data].
  change (map g (data t)) with (g <$> data t).
  apply list_lookup_total_fmap. exact Hlt.
Qed.

Lemma clamp_same (s idx : list nat) :
  in_bounds s idx -> zip_with (fun d k => if d =? 1 then 0 else k) s idx = idx.
Proof.
  intros Hb. induction Hb as [|k d idx s Hk _ IH]; cbn [zip_with].
  - reflexivity.
  - rewrite IH. destruct (d =? 1) eqn:E; [|reflexivity].
    apply Nat.eqb_eq in E. f_equal. lia.
Qed.

Lemma bidx_same (s idx : list nat) : in_bounds s idx -> bidx s idx = idx.
Proof.
  intros Hb. unfold bidx.
  rewrite (in_bounds_length s idx Hb), Nat.sub_diag, drop_0.
  apply clamp_same. exact Hb.
Qed.

Lemma bidx_unsqueezed (N L D n l d : nat) :
  n < N -> d < D -> bidx [N; 1; D] [n; l; d] = [n; 0; d].
Proof.
  intros Hn Hd. unfold bidx. cbn [length Nat.sub skipn zip_with Nat.eqb].
  destruct (N =? 1) eqn:EN; destruct (D =? 1) eqn:ED;
    try apply Nat.eqb_eq in EN; try apply Nat.eqb_eq in ED;
    repeat f_equal; lia.
Qed.

Lemma broadcast_shapes_unsqueezed (N L D : nat) :
  broadcast_shapes [N; L; D] [N; 1; D] = Ok [N; L; D].
Proof.
  unfold broadcast_shapes. cbn [rev app broadcast_rev rbind].
  rewrite !Nat.eqb_refl. cbn [rbind].
  destruct (L =? 1); reflexivity.
Qed.


Section Modulate.
Context {R : Type} `{Scalar R}.

(** The entries of [modulate x shift scale] for [x] of shape [(N, L, D)]
    and [shift], [scale] of shape [(N, D)]. *)
Lemma modulate_entries (x shift scale : tensor R) (N L D : nat) :
  shape x = [N; L; D] -> wf_tensor x ->
  shape shift = [N; D] -> wf_tensor shift ->
  shape scale = [N; D] -> wf_tensor scale ->
  exists y,
    modulate x shift scale = Ok y /\
    shape y = [N; L; D] /\ wf_tensor y /\
    forall n l d, n < N -> l < L -> d < D ->
      tget y [n; l; d]
      = sadd (smul (tget x [n; l; d]) (sadd s1 (tget scale [n; d]))) (tget shift [n; d]).
Proof.
  intros Hx Hwx Hsh Hwsh Hsc Hwsc.
  unfold modulate, unsqueeze, tmul, tadd, broadcast2.
  rewrite Hsc, Hsh. cbn [length Nat.leb firstn skipn app rbind shape tmap].
  rewrite Hx, broadcast_shapes_unsqueezed. cbn [rbind shape tabulate].
  rewrite broadcast_shapes_unsqueezed. cbn [rbind].
  eexists. split; [reflexivity|]. split; [reflexivity|]. split; [apply wf_tabulate|].
  intros n l d Hn Hl Hd.
  assert (Hb : in_bounds [N; L; D] [n; l; d]) by (repeat (constructor; try assumption)).
  rewrite tget_tabulate by exact Hb.
  rewrite (bidx_same _ _ Hb), (bidx_unsqueezed N L D n l d Hn Hd).
  match goal with
  | |- sadd (tget ?m _) _ = _ =>
      change m with (tabulate [N; L; D] (fun idx =>
        smul (tget x (bidx [N; L; D] idx))
             (tget (Tensor [N; 1; D] (map (sadd s1) (data scale))) (bidx [N; 1; D] idx))))
  end.
  rewrite tget_tabulate by exact Hb.
  rewrite (bidx_same _ _ Hb), (bidx_unsqueezed N L D n l d Hn Hd).
  assert (Hr : ravel [N; 1; D] [n; 0; d] = ravel [N; D] [n; d])
    by (cbn [ravel numel fold_right]; ring).
  assert (Hlt : ravel [N; D] [n; d] < N * D).
  { pose proof (ravel_lt [N; D] [n; d]) as Hlt.
    cbn [numel fold_right] in Hlt. rewrite Nat.mul_1_r in Hlt.
    apply Hlt. repeat (constructor; try assumption). }
  f_equal.
  - f_equal. unfold tget. cbn [shape data]. rewrite Hr, Hsc.
    change (map (sadd s1) (data scale)) with (sadd s1 <$> data scale).
    apply list_lookup_total_fmap.
    unfold wf_tensor in Hwsc. rewrite Hwsc, Hsc. cbn [numel fold_right]. lia.
  - unfold tget. cbn [shape data]. rewrite Hr, Hsh. reflexivity.
Qed.


End Modulate.

#[global] Instance Z_ScalarLaws : ScalarLaws Z.
Proof. split; intros x; cbn; lia. Qed.


(** ** C9: the normalisation class of a block *)

Section Returns.
Context {R : Type} `{Scalar R} `{Externals R}.

Lemma returns_ret {A} (a : A) (P : A -> Prop) : P a -> returns (ret a) P.
Proof. intros Ha w. exists a, w. split; [reflexivity|exact Ha]. Qed.

Lemma returns_bind {A B} (m : M R A) (k : A -> M R B) (P : A -> Prop) (Q : B -> Prop) :
  returns m P -> (forall a, P a -> returns (k a) Q) -> returns (bind m k) Q.
Proof.
  intros Hm Hk w. destruct (Hm w) as (a & w1 & E & Ha).
  destruct (Hk a Ha w1) as (b & w2 & E2 & Hb).
  exists b, w2. split; [|exact Hb]. rewrite (bind_Ok m k w w1 a E). exact E2.
Qed.

Lemma returns_weaken {A} (m : M R A) (P Q : A -> Prop) :
  (forall a, P a -> Q a) -> returns m P -> returns m Q.
Proof.
  intros HPQ Hm w. destruct (Hm w) as (a & w' & E & Ha). exists a, w'. auto.
Qed.

Lemma returns_draw {A} (f : rng_state -> A * rng_state) : returns (draw f) (fun _ => True).
Proof.
  intros w. unfold draw. destruct (f (rng w)) as [a g].
  exists a, (World (files w) g). split; [reflexivity|exact I].
Qed.

Lemma returns_init_ (k : init_kind) (t : tensor R) :
  returns (init_ k t) (fun t' => shape t' = shape t).
Proof.
  intros w. unfold init_, draw. destruct (draws k (length (data t)) (rng w)) as [vs g].
  eexists _, _. split; reflexivity.
Qed.

Lemma returns_nn_Linear (n_in n_out : nat) :
  returns (nn_Linear n_in n_out) (fun _ => True).
Proof.
  unfold nn_Linear.
  eapply returns_bind; [apply returns_init_|intros w _].
  eapply returns_bind; [apply returns_init_|intros b _].
  apply returns_ret. exact I.
Qed.

Lemma returns_norm_new (cls : norm_class) (dim : nat) (affine : bool) (eps : Q) :
  returns (norm_new cls dim affine eps) (fun o => class_of o = cls).
Proof.
  destruct cls; unfold norm_new.
  - apply returns_ret. destruct affine; reflexivity.
  - eapply returns_bind; [apply returns_draw|intros m _].
    apply returns_ret. reflexivity.
Qed.

(** The constructor from the point where [norm_layer] is bound to [cls]. *)
Ltac block_init_rest :=
  eapply returns_bind; [apply returns_norm_new|intros ?n1 ?Hn1];
  eapply returns_bind;
    [match goal with |- returns (if ?b then _ else _) _ => destruct b end;
     apply returns_draw|intros ?a1 _];
  eapply returns_bind; [apply returns_norm_new|intros ?n2 ?Hn2];
  eapply returns_bind; [apply returns_draw|intros ?m _];
  eapply returns_bind; [apply returns_nn_Linear|intros ?dm _];
  eapply returns_bind;
    [match goal with |- returns (if ?b then _ else _) _ => destruct b end;
     apply returns_draw|intros ?a2 _];
  eapply returns_bind; [apply returns_norm_new|intros ?n3 ?Hn3].

Lemma block_init_with
    (hidden_size c_emb_size num_heads : nat) (mlp_ratio : Q) (text_states_dim : nat)
    (use_flash_attn qk_norm : bool) (norm_type : string) (skip : bool)
    (cls : norm_class) :
  (norm_type = "layer" /\ cls = FP32_Layernorm) \/
  (norm_type = "rms" /\ cls = RMSNorm) ->
  returns (HunYuanDiTBlock_init hidden_size c_emb_size num_heads mlp_ratio
             text_states_dim use_flash_attn qk_norm norm_type skip)
          (block_norms cls skip).
Proof.
  intros Hcls. unfold HunYuanDiTBlock_init.
  eapply returns_bind with (P := fun c => c = cls).
  { destruct Hcls as [[-> ->]|[-> ->]].
    - destruct (decide ("layer" = "layer")) as [_|Hne]; [|congruence].
      apply returns_ret. reflexivity.
    - destruct (decide ("rms" = "layer")) as [Heq|_]; [discriminate Heq|].
      destruct (decide ("rms" = "rms")) as [_|Hne]; [|congruence].
      apply returns_ret. reflexivity. }
  intros c ->. block_init_rest.
  destruct skip.
  - eapply returns_bind.
    + eapply returns_bind; [apply returns_norm_new|intros sn Hsn].
      eapply returns_bind; [apply returns_nn_Linear|intros sl _].
      apply returns_ret with (P := fun o => exists n l, o = Some (n, l) /\ class_of n = cls).
      exists sn, sl. split; [reflexivity|exact Hsn].
    + intros o (sn & sl & -> & Hsn). apply returns_ret.
      unfold block_norms. cbn. auto.
  - eapply returns_bind; [apply returns_ret with (P := fun o => o = None); reflexivity|].
    intros o ->. apply returns_ret. unfold block_norms. cbn. auto.
Qed.

(** C9.  With a [norm_type] other than "layer" and "rms" the constructor
    raises [ValueError] before it creates anything (the world is
    untouched); with "layer" it returns a block whose normalisation
    layers are [FP32_Layernorm] objects, with "rms" one whose
    normalisation layers are [RMSNorm] objects. *)
Theorem HunYuanDiTBlock_init_norm_type
    (hidden_size c_emb_size num_heads : nat) (mlp_ratio : Q) (text_states_dim : nat)
    (use_flash_attn qk_norm : bool) (skip : bool) (w : world R) :
  (forall norm_type : string,
      norm_type <> "layer" -> norm_type <> "rms" ->
      HunYuanDiTBlock_init hidden_size c_emb_size num_heads mlp_ratio
        text_states_dim use_flash_attn qk_norm norm_type skip w
      = (Raise (ValueError ("Unknown norm_type: " +:+ norm_type)), w)) /\
  (exists b w',
      HunYuanDiTBlock_init hidden_size c_emb_size num_heads mlp_ratio
        text_states_dim use_flash_attn qk_norm "layer" skip w = (Ok b, w') /\
      block_norms FP32_Layernorm skip b) /\
  (exists b w',
      HunYuanDiTBlock_init hidden_size c_emb_size num_heads mlp_ratio
        text_states_dim use_flash_attn qk_norm "rms" skip w = (Ok b, w') /\
      block_norms RMSNorm skip b).
Proof.
  split; [|split].
  - intros norm_type Hl Hr. unfold HunYuanDiTBlock_init.
    destruct (decide (norm_type = "layer")) as [E|_]; [contradiction|].
    destruct (decide (norm_type = "rms")) as [E|_]; [contradiction|].
    reflexivity.
  - apply block_init_with. left. split; reflexivity.
  - apply block_init_with. right. split; reflexivity.
Qed.

End Returns.

(** The constructor on the small instance: an unknown name, and "layer". *)
Lemma HunYuanDiTBlock_init_norm_type_witness :
  "batch" <> "layer" /\ "batch" <> "rms" /\
  HunYuanDiTBlock_init 2 2 1 4 2 false true "batch" false Toy.world0
  = (Raise (ValueError "Unknown norm_type: batch"), Toy.world0) /\
  is_ok (HunYuanDiTBlock_init 2 2 1 4 2 false true "layer" false Toy.world0).1 = true.
Proof.
  destruct (HunYuanDiTBlock_init_norm_type 2 2 1 4 2 false true false Toy.world0)
    as (Herr & (b & w' & Hb & _) & _).
  assert (H1 : "batch" <> "layer") by discriminate.
  assert (H2 : "batch" <> "rms") by discriminate.
  split; [exact H1|]. split; [exact H2|]. split.
  - exact (Herr "batch" H1 H2).
  - rewrite Hb. reflexivity.
Defined.

(** ** Computations whose value does not depend on the world *)

Section PureValue.
Context {R : Type} `{Scalar R} `{Externals R}.

Lemma writes_only_refl (names : list string) (w : world R) : writes_only names w w.
Proof. split; reflexivity. Qed.

Lemma writes_only_trans (names : list string) (w1 w2 w3 : world R) :
  writes_only names w1 w2 -> writes_only names w2 w3 -> writes_only names w1 w3.
Proof.
  intros [Hr1 Hf1] [Hr2 Hf2]. split; [congruence|].
  intros p Hp. rewrite (Hf2 p Hp). apply Hf1, Hp.
Qed.

Lemma pure_as_ret {A} (names : list string) (a : A) : pure_as names (ret a) (Ok a).
Proof. intros w. split; [reflexivity|apply writes_only_refl]. Qed.

Lemma pure_as_raise {A} (names : list string) (e : exn) :
  pure_as names (raise e : M R A) (Raise e).
Proof. intros w. split; [reflexivity|apply writes_only_refl]. Qed.

Lemma pure_as_lift {A} (names : list string) (r : result A) : pure_as names (lift r) r.
Proof. intros w. split; [reflexivity|apply writes_only_refl]. Qed.

Lemma pure_as_write_text (names : list string) (name text : string) :
  In name names -> pure_as names (write_text name text) (Ok tt).
Proof.
  intros Hin w. split; [reflexivity|].
  split; cbn [write_text snd rng files]; [reflexivity|].
  intros p Hp. apply lookup_insert_ne, not_eq_sym, Hp, Hin.
Qed.

Lemma pure_as_bind {A B} (names : list string) (m : M R A) (k : A -> M R B)
    (r : result A) (f : A -> result B) :
  pure_as names m r ->
  (forall a, pure_as names (k a) (f a)) ->
  pure_as names (bind m k) (rbind r f).
Proof.
  intros Hm Hk w. destruct (Hm w) as [Hv Hw]. unfold bind.
  destruct (m w) as [[a|e] w1]; cbn [fst snd] in *; subst r; cbn [rbind].
  - destruct (Hk a w1) as [Hv' Hw']. split; [exact Hv'|].
    eapply writes_only_trans; eassumption.
  - split; [reflexivity|exact Hw].
Qed.

Lemma pure_as_eq {A} (names : list string) (m : M R A) (r r' : result A) :
  r = r' -> pure_as names m r -> pure_as names m r'.
Proof. intros ->. auto. Qed.

End PureValue.

(** One step of a proof that a computation is [pure_as]. *)
Ltac pure_step :=
  first
    [ apply pure_as_ret
    | apply pure_as_raise
    | apply pure_as_lift
    | apply pure_as_write_text; cbn; tauto
    | eapply pure_as_bind; [|intros ?] ].

Section BlockForward.
Context {R : Type} `{Scalar R} `{Externals R}.

Lemma HunYuanDiTBlock_forward_pure_as (self : HunYuanDiTBlock)
    (x c text_states : tensor R) (freq_cis_img : rope) (skip : option (tensor R)) :
  pure_as block_debug_files
    (HunYuanDiTBlock_forward self x c text_states freq_cis_img skip)
    (block_steps self x c text_states freq_cis_img skip).
Proof.
  eapply pure_as_eq; cycle 1.
  - unfold HunYuanDiTBlock_forward.
    eapply pure_as_bind; [apply pure_as_write_text; cbn; tauto|intros ?u].
    eapply pure_as_bind.
    { instantiate (1 := skip_step self x skip). unfold skip_step.
      destruct (skip_layers self) as [[skip_norm skip_linear]|]; [|apply pure_as_ret].
      destruct skip as [s|].
      - eapply pure_as_eq; cycle 1.
        + repeat pure_step.
        + cbn [rbind]. reflexivity.
      - eapply pure_as_eq; cycle 1.
        + repeat pure_step.
        + reflexivity. }
    intros x1. repeat pure_step.
  - (* the results, as functions of the arguments, agree *)
    unfold block_steps, self_attention_step, shift_msa_of, cross_attention_step, ffn_step.
    destruct (skip_step self x skip) as [x1|e]; cbn [rbind]; [|reflexivity].
    destruct (SiLU_Linear_forward (default_modulation self) c) as [m0|e];
      cbn [rbind]; [|reflexivity].
    destruct (unsqueeze 1 m0) as [shift_msa|e]; cbn [rbind]; [|reflexivity].
    destruct (norm_forward (norm1 self) x1) as [n|e]; cbn [rbind]; [|reflexivity].
    destruct (tadd n shift_msa) as [a|e]; cbn [rbind]; [|reflexivity].
    destruct (call (attn1 self) (a, freq_cis_img)) as [o|e]; cbn [rbind]; [|reflexivity].
    destruct (tadd x1 o.1) as [x2|e]; cbn [rbind]; [|reflexivity].
    destruct (norm_forward (norm3 self) x2) as [n1|e]; cbn [rbind]; [|reflexivity].
    destruct (call (attn2 self) (n1, text_states, freq_cis_img)) as [o0|e];
      cbn [rbind]; [|reflexivity].
    destruct (tadd x2 o0.1) as [x3|e]; cbn [rbind]; [|reflexivity].
    destruct (norm_forward (norm2 self) x3) as [mi|e]; cbn [rbind]; [|reflexivity].
    destruct (call (mlp self) mi) as [o1|e]; cbn [rbind]; [|reflexivity].
    destruct (tadd x3 o1) as [x4|e]; reflexivity.
Qed.

End BlockForward.

(** ** C5: the rotary table is a cache *)

Lemma pretty_N_char_no_x (d : N) : pretty_N_char d <> "x"%char.
Proof. unfold pretty_N_char. repeat case_match; discriminate. Qed.

Lemma pretty_N_go_no_x (n : N) (s : string) : no_x s -> no_x (pretty_N_go n s).
Proof.
  revert s. induction (N.lt_wf_0 n) as [n _ IH]. intros s Hs.
  destruct (decide (n = 0)%N) as [->|Hn].
  - rewrite pretty_N_go_0. exact Hs.
  - rewrite pretty_N_go_step by lia. apply IH.
    + apply N.div_lt; lia.
    + split; [apply pretty_N_char_no_x|exact Hs].
Qed.

Lemma pretty_nat_no_x (n : nat) : no_x (pretty n).
Proof.
  unfold pretty, pretty_nat, pretty, pretty_N.
  destruct (decide (N.of_nat n = 0)%N).
  - cbn. split; [discriminate|exact I].
  - apply pretty_N_go_no_x. exact I.
Qed.

Lemma split_at_x (a a' b b' : string) :
  no_x a -> no_x a' ->
  a +:+ String "x" b = a' +:+ String "x" b' -> a = a' /\ b = b'.
Proof.
  revert a'. induction a as [|c a IH]; intros [|c' a'] Ha Ha' E; cbn in *.
  - injection E as ->. split; reflexivity.
  - injection E as <- _. destruct Ha' as [Hc _]. contradiction.
  - injection E as -> _. destruct Ha as [Hc _]. contradiction.
  - injection E as -> E. destruct Ha as [_ Ha], Ha' as [_ Ha'].
    destruct (IH a' Ha Ha' E) as [-> ->]. split; reflexivity.
Qed.

(** The key [f'{height}x{width}'] determines the height and the width. *)
Lemma rope_key_inj (h w h' w' : nat) :
  pretty h +:+ "x" +:+ pretty w = pretty h' +:+ "x" +:+ pretty w' ->
  h = h' /\ w = w'.
Proof.
  intros E.
  destruct (split_at_x (pretty h) (pretty h') (pretty w) (pretty w')
              (pretty_nat_no_x h) (pretty_nat_no_x h') E) as [Eh Ew].
  split; eapply (inj pretty); eassumption.
Qed.

Section RopeTable.
Context {R : Type} `{Scalar R} `{Externals R}.

Lemma fill_shapes_sound (self : HunYuan) (data : list Resolution) :
  forall t t' : gmap string rope,
    table_sound self t ->
    fill_shapes self data t = Ok t' ->
    table_sound self t' /\
    (forall reso, In reso data -> is_Some (t' !! Resolution_str reso)) /\
    (forall key, is_Some (t !! key) -> is_Some (t' !! key)).
Proof.
  induction data as [|reso data IH]; intros t t' Ht E; cbn [fill_shapes] in E.
  - injection E as <-. split; [exact Ht|]. split; [intros reso []|auto].
  - destruct (calc_rope self (height reso) (width reso)) as [r|e] eqn:Ec;
      cbn [rbind] in E; [|discriminate].
    assert (Ht1 : table_sound self (<[Resolution_str reso := r]> t)).
    { intros h w r' Hl. unfold Resolution_str in Hl.
      destruct (decide (pretty (height reso) +:+ "x" +:+ pretty (width reso)
                        = pretty h +:+ "x" +:+ pretty w)) as [Ek|Ek].
      - rewrite Ek, lookup_insert_eq in Hl. injection Hl as <-.
        apply rope_key_inj in Ek. destruct Ek as [<- <-]. exact Ec.
      - rewrite lookup_insert_ne in Hl by exact Ek. apply Ht. exact Hl. }
    destruct (IH _ _ Ht1 E) as (Hs & Hin & Hmono).
    split; [exact Hs|]. split.
    + intros reso' [<-|Hin'].
      * apply Hmono. rewrite lookup_insert_eq. eauto.
      * apply Hin. exact Hin'.
    + intros key Hk. apply Hmono.
      destruct (decide (Resolution_str reso = key)) as [<-|Hne].
      * rewrite lookup_insert_eq. eauto.
      * rewrite lookup_insert_ne by exact Hne. exact Hk.
Qed.

(** C5.  When [standard_shapes] returns its table: every resolution of
    the group has an entry, stored under [str(reso)], and the entry is
    [calc_rope(reso.height, reso.width)]; a value found under the key
    [f'{target_height}x{target_width}'] is what [calc_rope] computes for
    the target; hence the pair selected by [forward_raw] is
    [calc_rope(target_height, target_width)] whether or not the key is
    present.  When [standard_shapes] raises, so does the selection. *)
Theorem select_rope_is_calc_rope (self : HunYuan) (target_height target_width : nat) :
  match standard_shapes self with
  | Ok (resolutions, freqs_cis_img) =>
      (forall reso, In reso (ResolutionGroup.data resolutions) ->
         exists r, freqs_cis_img !! Resolution_str reso = Some r /\
                   calc_rope self (height reso) (width reso) = Ok r) /\
      (forall r,
         freqs_cis_img !! (pretty target_height +:+ "x" +:+ pretty target_width) = Some r ->
         calc_rope self target_height target_width = Ok r) /\
      (freqs_cis_img !! (pretty target_height +:+ "x" +:+ pretty target_width) = None ->
       select_rope self target_height target_width
       = calc_rope self target_height target_width) /\
      select_rope self target_height target_width
      = calc_rope self target_height target_width
  | Raise e => select_rope self target_height target_width = Raise e
  end.
Proof.
  unfold select_rope.
  destruct (standard_shapes self) as [[resolutions table]|e] eqn:Es; [|reflexivity].
  unfold standard_shapes in Es.
  destruct (fill_shapes self (ResolutionGroup.data ResolutionGroup.init) ∅)
    as [t'|e] eqn:Ef; cbn [rbind] in Es; [|discriminate].
  injection Es as <- <-.
  assert (H0' : table_sound self (∅ : gmap string rope)).
  { intros h w r Hl. rewrite lookup_empty in Hl. discriminate. }
  destruct (fill_shapes_sound self _ _ _ H0' Ef) as (Hs & Hin & _).
  cbn [rbind].
  split; [|split; [|split]].
  - intros reso Hr. destruct (Hin reso Hr) as [r Hl].
    exists r. split; [exact Hl|]. apply Hs. exact Hl.
  - intros r Hl. apply Hs. exact Hl.
  - intros ->. reflexivity.
  - destruct (t' !! (pretty target_height +:+ "x" +:+ pretty target_width))
      as [r|] eqn:El; [|reflexivity].
    symmetry. apply Hs. exact El.
Qed.

End RopeTable.

(** ** C4: zero initialisation of the output layers *)

Section ZeroInit.
Context {R : Type} `{Scalar R} `{Externals R}.

Lemma lookup_total_all_zero (l : list R) (i : nat) :
  Forall (fun v => v = s0) l -> l !!! i = s0.
Proof.
  intros Hl. rewrite list_lookup_total_alt.
  destruct (l !! i) as [v|] eqn:E; [|reflexivity].
  cbn. exact (Forall_lookup_1 _ _ _ _ Hl E).
Qed.

Lemma tget_all_zero (t : tensor R) (idx : list nat) : all_zero t -> tget t idx = s0.
Proof. intros Ht. apply lookup_total_all_zero. exact Ht. Qed.

Lemma all_zero_constant_0 (t : tensor R) : all_zero (constant_0 t).
Proof.
  unfold all_zero, constant_0. cbn [data].
  apply Forall_map, Forall_forall. reflexivity.
Qed.

Lemma all_zero_tabulate (s : list nat) (f : list nat -> R) :
  (forall idx, f idx = s0) -> all_zero (tabulate s f).
Proof.
  intros Hf. unfold all_zero, tabulate. cbn [data].
  apply Forall_map, Forall_forall. intros i _. apply Hf.
Qed.


Lemma wf_constant_0 (t : tensor R) : wf_tensor t -> wf_tensor (constant_0 t).
Proof. unfold wf_tensor, constant_0. cbn [shape data]. rewrite length_map. auto. Qed.


Lemma Linear_forward_Ok (l : Linear R) (x : tensor R) (n_in n_out : nat) :
  wf_Linear l n_in n_out -> last (shape x) = Some n_in ->
  exists out, Linear_forward l x = Ok out /\
              shape out = take (length (shape x) - 1) (shape x) ++ [n_out] /\
              wf_tensor out.
Proof.
  intros (Hw & _ & Hb & _) Hl. unfold Linear_forward.
  rewrite Hw, Hl, Hb, Nat.eqb_refl, bool_decide_eq_true_2 by reflexivity.
  cbn [andb]. eexists. split; [reflexivity|]. split; [reflexivity|apply wf_tabulate].
Qed.




Lemma length_draws (k : init_kind) (n : nat) (g : rng_state) :
  length (draws k n g).1 = n.
Proof.
  revert g. induction n as [|n IH]; intros g; cbn [draws]; [reflexivity|].
  destruct (rand k g) as [v g1]. specialize (IH g1).
  destruct (draws k n g1) as [vs g2]. cbn [fst length] in *. congruence.
Qed.

Lemma returns_init_wf (k : init_kind) (t : tensor R) :
  returns (init_ k t)
    (fun t' => shape t' = shape t /\ (wf_tensor t -> wf_tensor t')).
Proof.
  intros w. unfold init_, draw.
  pose proof (length_draws k (length (data t)) (rng w)) as Hlen.
  destruct (draws k (length (data t)) (rng w)) as [vs g].
  eexists _, _. split; [reflexivity|]. split; [reflexivity|].
  unfold wf_tensor. cbn [shape data fst] in *. congruence.
Qed.

Lemma returns_basic_init_Linear (l : Linear R) :
  returns (basic_init_Linear l)
    (fun l' => forall n_in n_out, wf_Linear l n_in n_out -> wf_Linear l' n_in n_out).
Proof.
  unfold basic_init_Linear.
  eapply returns_bind; [apply returns_init_wf|intros t' [Hs Hw]].
  apply returns_ret. intros n_in n_out (Hw1 & Hw2 & Hb1 & Hb2).
  unfold wf_Linear. cbn [weight bias].
  repeat split; [congruence|auto|exact Hb1|apply wf_constant_0; exact Hb2].
Qed.





End ZeroInit.

(** Entries that are finite or zero. *)
Section FiniteZero.
Context {R : Type} `{Scalar R} `{Externals R} `{!FloatLaws R}.















End FiniteZero.

(** Exact integers are finite, and zero when they are 0. *)
#[global, refine] Instance Z_FloatLaws : FloatLaws Z :=
  {| is_finite := fun _ => true; is_zero := fun v => (v =? 0)%Z |}.
Proof.
  - reflexivity.
  - reflexivity.
  - intros a b Ha Hb. apply Z.eqb_eq in Ha, Hb. subst. reflexivity.
  - intros v z _ Hz. apply Z.eqb_eq in Hz. subst. apply Z.eqb_eq.
    cbn [smul Toy.Z_Scalar]. apply Z.mul_0_r.
  - reflexivity.
  - reflexivity.
  - reflexivity.
Defined.

(** The laws hold as well when the entries include a NaN. *)
#[global, refine] Instance Nan_FloatLaws : FloatLaws (option Z) :=
  {| is_finite := Nan.finite; is_zero := Nan.zero |}.
Proof.
  - reflexivity.
  - intros [[| |]|]; cbn; intros; try reflexivity; discriminate.
  - intros [[| |]|] [[| |]|]; cbn; intros; try reflexivity; discriminate.
  - intros [v|] [[| |]|]; cbn; intros; try discriminate.
    rewrite Z.mul_0_r. reflexivity.
  - intros [v|] [[| |]|]; cbn; intros; try reflexivity; discriminate.
  - intros [v|] [[| |]|]; cbn; intros; try reflexivity; discriminate.
  - intros [v|]; cbn; intros; try reflexivity; discriminate.
Defined.



(** ** Repetition along the batch axis, and the slices of [forward] *)

Lemma mod_same_in_bounds (s idx : list nat) :
  in_bounds s idx -> zip_with Nat.modulo idx s = idx.
Proof.
  intros Hb. induction Hb as [|k d idx s Hk _ IH]; cbn [zip_with].
  - reflexivity.
  - rewrite IH, Nat.mod_small by exact Hk. reflexivity.
Qed.

(** Tiling the first axis twice appends the entries to themselves. *)
Lemma tabulate_double {A} `{Inhabited A} (B : nat) (s : list nat) (d : list A) :
  length d = numel (B :: s) ->
  tabulate (2 * B :: s)
    (fun idx => tget (Tensor (B :: s) d) (zip_with Nat.modulo idx (B :: s)))
  = Tensor (2 * B :: s) (d ++ d).
Proof.
  intros Hd. cbn [numel fold_right] in Hd. fold (numel s) in Hd.
  apply tensor_ext.
  - reflexivity.
  - apply wf_tabulate.
  - unfold wf_tensor. cbn [shape data numel fold_right]. fold (numel s).
    rewrite length_app. lia.
  - cbn [shape tabulate]. intros idx Hb. rewrite tget_tabulate by exact Hb.
    inversion Hb as [|n d2 idx' s' Hn Hb' E1 E2]; subst.
    cbn [zip_with]. rewrite (mod_same_in_bounds s idx' Hb').
    unfold tget. cbn [shape data ravel]. 
    pose proof (ravel_lt s idx' Hb') as Hr.
    destruct (Nat.lt_ge_cases n B) as [Hlt|Hge].
    + rewrite Nat.mod_small by exact Hlt.
      rewrite lookup_total_app_l by nia. reflexivity.
    + assert (Hm : n mod B = n - B).
      { symmetry. apply Nat.mod_unique with (q := 1); lia. }
      rewrite Hm. rewrite lookup_total_app_r by nia. f_equal. nia.
Qed.

Lemma repeat_double_1 {A} `{Inhabited A} (t : tensor A) (B : nat) :
  shape t = [B] -> wf_tensor t ->
  repeat_ [2] t = Ok (Tensor [2 * B] (data t ++ data t)).
Proof.
  intros Hs Hw. unfold repeat_. rewrite Hs.
  cbn [length Nat.ltb Nat.leb Nat.sub replicate app zip_with]. f_equal.
  change (Nat.mul 2 B) with (2 * B).
  apply (tabulate_double B [] (data t)).
  unfold wf_tensor in Hw. rewrite Hw, Hs. reflexivity.
Qed.

Lemma repeat_double_4 {A} `{Inhabited A} (x : tensor A) (B C Hh W : nat) :
  shape x = [B; C; Hh; W] -> wf_tensor x ->
  repeat_ [2; 1; 1; 1] x = Ok (Tensor [2 * B; C; Hh; W] (data x ++ data x)).
Proof.
  intros Hs Hw. unfold repeat_. rewrite Hs.
  cbn [length Nat.ltb Nat.leb Nat.sub replicate app zip_with]. f_equal.
  rewrite !Nat.mul_1_l. change (Nat.mul 2 B) with (2 * B).
  apply (tabulate_double B [C; Hh; W] (data x)).
  unfold wf_tensor in Hw. rewrite Hw, Hs. reflexivity.
Qed.

Section Forward.
Context {R : Type} `{Scalar R} `{Externals R}.

Lemma bind_lift {A B} (r : result A) (k : A -> M R B) (w : world R) :
  bind (lift r) k w = match r with Ok a => k a w | Raise e => (Raise e, w) end.
Proof. unfold bind, lift. destruct r; reflexivity. Qed.

Lemma bind_write_text {B} (name text : string) (k : unit -> M R B) (w : world R) :
  bind (write_text name text) k w
  = k tt (World (<[path_of name := TextFile text]> (files w)) (rng w)).
Proof. reflexivity. Qed.

Lemma bind_inv {A B} (m : M R A) (k : A -> M R B) (w w' : world R) (b : B) :
  bind m k w = (Ok b, w') ->
  exists a w1, m w = (Ok a, w1) /\ k a w1 = (Ok b, w').
Proof.
  unfold bind. destruct (m w) as [[a|e] w1]; intros E; [|discriminate].
  exists a, w1. split; [reflexivity|exact E].
Qed.

Lemma lift_inv {A} (r : result A) (w w' : world R) (a : A) :
  lift r w = (Ok a, w') -> r = Ok a /\ w' = w.
Proof. unfold lift. intros E. injection E as -> ->. split; reflexivity. Qed.

Lemma unpatchify_shape (self : HunYuan) (x imgs : tensor R) (h w : nat) :
  unpatchify self x h w = Ok imgs ->
  wf_tensor imgs /\
  exists n,
    shape imgs
    = [n; unpatchify_channels self;
       h * (pe_patch_size (x_embedder self)).1; w * (pe_patch_size (x_embedder self)).1].
Proof.
  unfold unpatchify. set (p := (pe_patch_size (x_embedder self)).1).
  set (c := unpatchify_channels self).
  destruct (shape x) as [|n [|t s]]; try discriminate.
  destruct (h * w =? t); [|discriminate].
  unfold reshape at 1. destruct (numel [n; h; w; p; p; c] =? length (data x)); [|discriminate].
  cbn [rbind einsum_nhwpqc_nchpwq shape tabulate].
  unfold reshape.
  match goal with |- context [if ?b then _ else _] => destruct b eqn:En end; [|discriminate].
  intros E. injection E as <-. split.
  - unfold wf_tensor. cbn [shape data]. symmetry. apply Nat.eqb_eq. exact En.
  - exists n. reflexivity.
Qed.

Lemma slice_axis1 {A} `{Inhabited A} (t : tensor A) (N C Hh W start stop : nat) :
  shape t = [N; C; Hh; W] ->
  slice_ 1 start stop t
  = Ok (tabulate [N; Nat.min stop C - Nat.min start C; Hh; W] (fun idx =>
          tget t (alter (fun k => k + Nat.min start C) 1 idx))).
Proof. intros Hs. unfold slice_. rewrite Hs. reflexivity. Qed.

Lemma slice_axis0 {A} `{Inhabited A} (t : tensor A) (N C Hh W start stop : nat) :
  shape t = [N; C; Hh; W] ->
  slice_ 0 start stop t
  = Ok (tabulate [Nat.min stop N - Nat.min start N; C; Hh; W] (fun idx =>
          tget t (alter (fun k => k + Nat.min start N) 0 idx))).
Proof. intros Hs. unfold slice_. rewrite Hs. reflexivity. Qed.

(** The two slices of [forward] on a four-axis tensor. *)
Lemma forward_slices (out : tensor R) (N C Hh W k b : nat) :
  shape out = [N; C; Hh; W] -> wf_tensor out ->
  exists eps rest res,
    slice_ 1 0 k (tmap half out) = Ok eps /\
    slice_from 1 k (tmap half out) = Ok rest /\
    slice_ 0 0 b eps = Ok res /\
    shape res = [Nat.min b N; Nat.min k C; Hh; W] /\
    forall n c i j,
      n < Nat.min b N -> c < Nat.min k C -> i < Hh -> j < W ->
      tget res [n; c; i; j] = half (tget out [n; c; i; j]).
Proof.
  intros Hs Hw.
  assert (Hs' : shape (tmap half out) = [N; C; Hh; W]) by exact Hs.
  rewrite (slice_axis1 (tmap half out) N C Hh W 0 k Hs').
  unfold slice_from. rewrite Hs'. cbn [lookup list_lookup].
  rewrite (slice_axis1 (tmap half out) N C Hh W k C Hs').
  cbn [Nat.min]. rewrite Nat.sub_0_r.
  eexists _, _, _. split; [reflexivity|]. split; [reflexivity|].
  rewrite (slice_axis0 _ N (Nat.min k C) Hh W 0 b) by reflexivity.
  cbn [Nat.min]. rewrite Nat.sub_0_r.
  split; [reflexivity|]. split; [reflexivity|].
  intros n c i j Hn Hc Hi Hj.
  rewrite tget_tabulate by (repeat (constructor; try assumption)).
  cbn [alter list_alter]. rewrite Nat.add_0_r.
  rewrite tget_tabulate by (repeat (constructor; try assumption; try lia)).
  cbn [alter list_alter]. rewrite Nat.add_0_r.
  rewrite tget_tmap.
  - reflexivity.
  - unfold wf_tensor in Hw. rewrite Hw, Hs.
    apply ravel_lt. repeat (constructor; try assumption; try lia).
Qed.

(** [HunYuan.__init__] fixes the channel counts: [out_channels] is twice
    [in_channels] when [learn_sigma], and [unpatchify_channels] is
    [out_channels]. *)
Lemma HunYuan_init_channels
    (input_size : nat * nat) (p cin hs d nh : nat) (mlp_ratio : Q) (ls : bool)
    (tsd tsd_t5 tl tl_t5 : nat) (norm_type infer_mode : string) (fp16 : bool)
    (self : HunYuan) (w w' : world R) :
  HunYuan_init input_size p cin hs d nh mlp_ratio ls tsd tsd_t5 tl tl_t5
    norm_type infer_mode fp16 w = (Ok self, w') ->
  in_channels self = cin /\
  out_channels self = (if ls then cin * 2 else cin) /\
  unpatchify_channels self = out_channels self.
Proof.
  unfold HunYuan_init. intros E.
  repeat (apply bind_inv in E; destruct E as (? & ? & _ & E); cbv zeta in E).
  unfold ret in E. injection E as <- _. repeat split.
Qed.

End Forward.
(** ** C3: the text conditioning passed to [forward] is never used *)

Lemma append_inj_r (p a b : string) : p +:+ a = p +:+ b -> a = b.
Proof.
  induction p as [|c p IH]; cbn [String.append]; intros E.
  - exact E.
  - injection E as E. apply IH, E.
Qed.

Section ReadsOnly.
Context {R : Type} `{Scalar R} `{Externals R}.

Lemma path_of_inj (a b : string) : path_of a = path_of b -> a = b.
Proof. unfold path_of. intros E. apply append_inj_r in E. apply append_inj_r in E. exact E. Qed.

Lemma agree_on_refl (names : list string) (w : world R) : agree_on names w w.
Proof. intros n _. reflexivity. Qed.

Lemma agree_on_sym (names : list string) (w1 w2 : world R) :
  agree_on names w1 w2 -> agree_on names w2 w1.
Proof. intros Ha n Hn. symmetry. apply Ha, Hn. Qed.

Lemma agree_on_trans (names : list string) (w1 w2 w3 : world R) :
  agree_on names w1 w2 -> agree_on names w2 w3 -> agree_on names w1 w3.
Proof. intros H12 H23 n Hn. rewrite (H12 n Hn). apply H23, Hn. Qed.

Lemma reads_only_ret {A} (names : list string) (a : A) : reads_only names (ret a).
Proof. split; [intros w; apply agree_on_refl|reflexivity]. Qed.

Lemma reads_only_raise {A} (names : list string) (e : exn) :
  reads_only names (raise e : M R A).
Proof. split; [intros w; apply agree_on_refl|reflexivity]. Qed.

Lemma reads_only_lift {A} (names : list string) (r : result A) :
  reads_only names (lift r).
Proof. split; [intros w; apply agree_on_refl|reflexivity]. Qed.

Lemma reads_only_write_text (names : list string) (name text : string) :
  ~ In name names -> reads_only names (write_text name text).
Proof.
  intros Hn. split; [|reflexivity].
  intros w n Hin. cbn [write_text snd files]. symmetry. apply lookup_insert_ne.
  intros E. apply path_of_inj in E. subst n. exact (Hn Hin).
Qed.

Lemma reads_only_torch_load (names : list string) (name : string) :
  In name names -> reads_only names (torch_load name).
Proof.
  intros Hin. split.
  - intros w. unfold torch_load.
    destruct (files w !! path_of name) as [[?|?]|]; apply agree_on_refl.
  - intros w1 w2 Ha. unfold torch_load. rewrite (Ha name Hin).
    destruct (files w2 !! path_of name) as [[?|?]|]; reflexivity.
Qed.

Lemma reads_only_bind {A B} (names : list string) (m : M R A) (k : A -> M R B) :
  reads_only names m -> (forall a, reads_only names (k a)) ->
  reads_only names (bind m k).
Proof.
  intros [Hm1 Hm2] Hk. split.
  - intros w. unfold bind. pose proof (Hm1 w) as Hw.
    destruct (m w) as [[a|e] w1]; cbn [snd] in *; [|exact Hw].
    eapply agree_on_trans; [exact Hw|]. apply (proj1 (Hk a)).
  - intros w1 w2 Ha. unfold bind.
    pose proof (Hm2 w1 w2 Ha) as Hv.
    pose proof (Hm1 w1) as Ha1. pose proof (Hm1 w2) as Ha2.
    destruct (m w1) as [r1 w1'], (m w2) as [r2 w2']. cbn [fst snd] in *. subst r2.
    destruct r1 as [a|e]; [|reflexivity].
    apply (proj2 (Hk a)).
    eapply agree_on_trans; [apply agree_on_sym, Ha1|].
    eapply agree_on_trans; [exact Ha|exact Ha2].
Qed.

(** A computation that reads nothing and writes only files outside
    [names]. *)
Lemma reads_only_pure_as {A} (names written : list string) (m : M R A) (r : result A) :
  (forall n, In n names -> ~ In n written) ->
  pure_as written m r -> reads_only names m.
Proof.
  intros Hd Hp. split.
  - intros w n Hn. destruct (Hp w) as [_ [_ Hf]]. symmetry. apply Hf.
    intros d Hin E. apply path_of_inj in E. subst d. exact (Hd n Hn Hin).
  - intros w1 w2 _. rewrite (proj1 (Hp w1)), (proj1 (Hp w2)). reflexivity.
Qed.

End ReadsOnly.

(** One step of a proof that a computation is [reads_only embedding_names]. *)
Ltac not_an_embedding :=
  cbn; intros Hin;
  repeat (destruct Hin as [Hin|Hin]; [discriminate Hin|]); exact Hin.

Ltac reads_step :=
  first
    [ apply reads_only_ret
    | apply reads_only_raise
    | apply reads_only_lift
    | apply reads_only_write_text; not_an_embedding
    | apply reads_only_torch_load; cbn; tauto
    | apply reads_only_bind; [|intros ?] ].

Section ForwardReads.
Context {R : Type} `{Scalar R} `{Externals R}.

Lemma reads_only_block (self : HunYuanDiTBlock)
    (x c text_states : tensor R) (freq_cis_img : rope) (skip : option (tensor R)) :
  reads_only embedding_names
    (HunYuanDiTBlock_forward self x c text_states freq_cis_img skip).
Proof.
  eapply reads_only_pure_as; [|apply HunYuanDiTBlock_forward_pure_as].
  intros n Hn Hd. cbn in Hn, Hd.
  repeat (destruct Hn as [Hn|Hn];
          [subst n; repeat (destruct Hd as [Hd|Hd]; [discriminate Hd|]); exact Hd|]).
  exact Hn.
Qed.

Lemma reads_only_run_blocks (self : HunYuan) (bs : list HunYuanDiTBlock) :
  forall (layer : nat) (x c text_states : tensor R) (freqs_cis_img : rope)
         (skips : list (tensor R)),
    reads_only embedding_names
      (run_blocks self layer bs x c text_states freqs_cis_img skips).
Proof.
  induction bs as [|block bs IH]; intros layer x c text_states freqs skips;
    cbn [run_blocks].
  - apply reads_only_ret.
  - apply reads_only_bind.
    + destruct (consumes_skip (depth self) layer).
      * destruct skips as [|skip skips']; [apply reads_only_raise|].
        apply reads_only_bind; [apply reads_only_block|intros ?; apply reads_only_ret].
      * apply reads_only_bind; [apply reads_only_block|intros ?; apply reads_only_ret].
    + intros xs. apply IH.
Qed.

Lemma reads_only_load_embeds (name : string) (reps : list nat) :
  In name embedding_names -> reads_only embedding_names (load_embeds name reps).
Proof.
  intros Hin. unfold load_embeds.
  apply reads_only_bind; [apply reads_only_torch_load, Hin|intros ?; apply reads_only_lift].
Qed.

Lemma reads_only_load_text_conditioning (batch_size : nat) :
  reads_only embedding_names (load_text_conditioning batch_size).
Proof.
  unfold load_text_conditioning.
  repeat (apply reads_only_bind;
          [first [apply reads_only_load_embeds; cbn; tauto | apply reads_only_lift]
          |intros ?]).
  apply reads_only_ret.
Qed.

Lemma reads_only_forward_raw (self : HunYuan) (x t : tensor R) (y : tensor Z)
    (kw : raw_kwargs) :
  reads_only embedding_names (forward_raw self x t y kw).
Proof.
  unfold forward_raw.
  destruct (shape x) as [|ob [|c0 [|oh [|ow [|? ?]]]]]; try apply reads_only_raise.
  apply reads_only_bind; [apply reads_only_load_text_conditioning|].
  intros [[[ehs ehs_t5] mask] mask_t5].
  do 3 (apply reads_only_bind; [apply reads_only_lift|intros ?]).
  apply reads_only_bind.
  { unfold build_time_and_image_embedding. repeat reads_step. }
  intros [t' x'].
  apply reads_only_bind.
  { unfold build_extra_vec. repeat reads_step. }
  intros extra_vec.
  apply reads_only_bind; [apply reads_only_lift|intros freqs].
  do 2 (apply reads_only_bind; [apply reads_only_write_text; not_an_embedding|intros ?]).
  do 2 (apply reads_only_bind; [apply reads_only_lift|intros ?]).
  apply reads_only_bind; [apply reads_only_run_blocks|intros xs].
  do 2 (apply reads_only_bind; [apply reads_only_lift|intros ?]).
  destruct (return_dict kw); apply reads_only_ret.
Qed.

Lemma reads_only_forward_dumps (x context : tensor R) (y : option (tensor R))
    (kwargs : pyobj) :
  reads_only embedding_names (forward_dumps x context y kwargs).
Proof. unfold forward_dumps. repeat reads_step. Qed.

Lemma bind_forward_dumps {B} (x context : tensor R) (y : option (tensor R))
    (kwargs : pyobj) (k : unit -> M R B) (w : world R) :
  bind (forward_dumps x context y kwargs) k w
  = k tt (forward_dumps x context y kwargs w).2.
Proof. reflexivity. Qed.

(** Whether [context[:, 0]] exists depends on the shape of [context] only. *)
Lemma select_col0_shape {A} `{Inhabited A} (a b : tensor A) :
  shape a = shape b ->
  match select_col0 a, select_col0 b with
  | Ok _, Ok _ => True
  | Raise e1, Raise e2 => e1 = e2
  | _, _ => False
  end.
Proof.
  unfold select_col0. intros <-.
  destruct (shape a) as [|n [|m s]]; try reflexivity.
  destruct (m =? 0); [reflexivity|exact I].
Qed.

(** C3.  Two calls of [forward] on the same model with the same [x] and
    [timesteps], started from worlds that hold the same eight embedding
    files, return the same value (the same tensor, or the same exception)
    whatever the entries of their [context] arguments of equal shape, and
    whatever their [y] and keyword arguments.  The reason is in
    [forward_raw]: it never reads its parameter [y], and of its keyword
    arguments only [return_dict] matters, the text states and masks being
    assigned from the files loaded under fixed paths. *)
Theorem forward_ignores_context (self : HunYuan) (x timesteps : tensor R)
    (context1 context2 : tensor R) (y1 y2 : option (tensor R))
    (kwargs1 kwargs2 : pyobj) (w1 w2 : world R) :
  shape context1 = shape context2 ->
  agree_on embedding_names w1 w2 ->
  (forward self x timesteps context1 y1 kwargs1 w1).1
  = (forward self x timesteps context2 y2 kwargs2 w2).1 /\
  (forall (x' t' : tensor R) (ya yb : tensor Z) (kw : raw_kwargs) (w : world R),
      forward_raw self x' t' ya kw w = forward_raw self x' t' yb kw w) /\
  (forall (x' t' : tensor R) (y' : tensor Z) (kw kw' : raw_kwargs) (w : world R),
      return_dict kw = return_dict kw' ->
      forward_raw self x' t' y' kw w = forward_raw self x' t' y' kw' w).
Proof.
  intros Hs Ha. split; [|split].
  - unfold forward.
    pose proof (reads_only_forward_dumps x context1 y1 kwargs1) as [Hd1 _].
    pose proof (reads_only_forward_dumps x context2 y2 kwargs2) as [Hd2 _].
    rewrite !bind_forward_dumps.
    assert (Ha' : agree_on embedding_names
                    (forward_dumps x context1 y1 kwargs1 w1).2
                    (forward_dumps x context2 y2 kwargs2 w2).2).
    { eapply agree_on_trans; [apply agree_on_sym, Hd1|].
      eapply agree_on_trans; [exact Ha|apply Hd2]. }
    set (w1' := (forward_dumps x context1 y1 kwargs1 w1).2) in *.
    set (w2' := (forward_dumps x context2 y2 kwargs2 w2).2) in *.
    clearbody w1' w2'.
    rewrite !bind_lift.
    pose proof (select_col0_shape context1 context2 Hs) as Hc.
    destruct (select_col0 context1) as [c1|e1], (select_col0 context2) as [c2|e2];
      try contradiction; [|cbn [fst]; congruence].
    change (forward_raw self (tmap half x) (tmap half timesteps) (tmap to_int c2)
              raw_defaults)
      with (forward_raw self (tmap half x) (tmap half timesteps) (tmap to_int c1)
              raw_defaults).
    match goal with
    | |- (?m w1').1 = (?m w2').1 =>
        assert (Hm : reads_only embedding_names m); [|apply (proj2 Hm), Ha']
    end.
    apply reads_only_bind; [apply reads_only_forward_raw|].
    intros [out|d]; [|apply reads_only_raise].
    cbv zeta.
    do 2 (apply reads_only_bind; [apply reads_only_lift|intros ?]).
    destruct (shape x); [apply reads_only_raise|apply reads_only_lift].
  - reflexivity.
  - intros x' t' y' kw kw' w E. unfold forward_raw. rewrite E. reflexivity.
Qed.

End ForwardReads.

Lemma forward_ignores_context_witness :
  (forward (Toy.net 2) Toy.image Toy.timestep
     (Tensor [1; 3; 2] [1; 2; 3; 4; 5; 6]%Z) None tt Toy.world1).1
  = (forward (Toy.net 2) Toy.image Toy.timestep
       (Tensor [1; 3; 2] [9; 8; 7; 6; 5; 4]%Z) (Some (Tensor [1] [2]%Z)) tt Toy.world2).1.
Proof.
  refine (proj1 (forward_ignores_context (Toy.net 2) Toy.image Toy.timestep
                   (Tensor [1; 3; 2] [1; 2; 3; 4; 5; 6]%Z)
                   (Tensor [1; 3; 2] [9; 8; 7; 6; 5; 4]%Z)
                   None (Some (Tensor [1] [2]%Z)) tt tt Toy.world1 Toy.world2
                   eq_refl _)).
  intros n Hn. cbn in Hn.
  repeat (destruct Hn as [Hn|Hn]; [subst n; vm_compute; reflexivity|]).
  destruct Hn.
Defined.

(** * Further properties of the module *)

(** ** The skip stack at an arbitrary depth *)

Lemma consumes_skip_div (d layer : nat) : consumes_skip d layer = (d / 2 <? layer).
Proof.
  unfold consumes_skip.
  replace (Z.of_nat d / 2)%Z with (Z.of_nat (d / 2))
    by (rewrite Nat2Z.inj_div; reflexivity).
  destruct (d / 2 <? layer) eqn:E.
  - apply Nat.ltb_lt in E. apply Z.ltb_lt. lia.
  - apply Nat.ltb_ge in E. apply Z.ltb_ge. lia.
Qed.

Lemma produces_skip_div (d layer : nat) : produces_skip d layer = (S layer <? d / 2).
Proof.
  unfold produces_skip.
  replace (Z.of_nat d / 2)%Z with (Z.of_nat (d / 2))
    by (rewrite Nat2Z.inj_div; reflexivity).
  destruct (S layer <? d / 2) eqn:E.
  - apply Nat.ltb_lt in E. apply Z.ltb_lt. lia.
  - apply Nat.ltb_ge in E. apply Z.ltb_ge. lia.
Qed.

Lemma count_below (a d : nat) :
  length (filter (fun layer => S layer <? a) (seq 0 d)) = Nat.min (a - 1) d.
Proof.
  induction d as [|d IH]; [cbn; lia|].
  rewrite seq_S, filter_app, length_app, IH. cbn [Nat.add].
  destruct (S d <? a) eqn:E.
  - rewrite filter_cons_True by (rewrite E; exact I).
    apply Nat.ltb_lt in E. cbn [filter list_filter length]. lia.
  - rewrite filter_cons_False by (rewrite E; exact id).
    apply Nat.ltb_ge in E. cbn [filter list_filter length]. lia.
Qed.

Lemma count_above (a d : nat) :
  length (filter (fun layer => a <? layer) (seq 0 d)) = d - S a.
Proof.
  induction d as [|d IH]; [reflexivity|].
  rewrite seq_S, filter_app, length_app, IH. cbn [Nat.add].
  destruct (a <? d) eqn:E.
  - rewrite filter_cons_True by (rewrite E; exact I).
    apply Nat.ltb_lt in E. cbn [filter list_filter length]. lia.
  - rewrite filter_cons_False by (rewrite E; exact id).
    apply Nat.ltb_ge in E. cbn [filter list_filter length]. lia.
Qed.

Section SkipStackAnyDepth.
Context {R : Type} `{Scalar R} `{Externals R}.

Lemma run_blocks_any_depth (self : HunYuan) (c text_states : tensor R)
    (freqs_cis_img : rope) :
  forall (bs : list HunYuanDiTBlock) (layer : nat) (x : tensor R)
         (skips : list (tensor R)) (w : world R),
    layer + length bs = depth self ->
    Z.of_nat (length skips) = stack_height (depth self / 2) layer ->
    match run_blocks self layer bs x c text_states freqs_cis_img skips w with
    | (Ok xs, _) => (Nat.even (depth self) = true \/ depth self = 1) /\ xs.2 = []
    | (Raise e, _) =>
        (Nat.odd (depth self) = true /\ 3 <= depth self /\ e = IndexError) \/
        exists b x' skip w0,
          In b bs /\
          (HunYuanDiTBlock_forward b x' c text_states freqs_cis_img skip w0).1 = Raise e
    end.
Proof.
  set (d := depth self). set (k := d / 2).
  assert (Hdk : d = 2 * k \/ d = 2 * k + 1).
  { pose proof (Nat.div_mod_eq d 2) as E. pose proof (Nat.mod_upper_bound d 2).
    unfold k. lia. }
  assert (Hpar : forall j, (d = 2 * j -> Nat.even d = true) /\
                           (d = 2 * j + 1 -> Nat.odd d = true)).
  { intros j. split; intros ->.
    - apply Nat.even_spec. exists j. reflexivity.
    - apply Nat.odd_spec. exists j. reflexivity. }
  intros bs. induction bs as [|block bs IH]; intros layer x skips w Hlen Hh.
  - cbn [run_blocks ret fst snd]. cbn [length] in Hlen.
    unfold stack_height in Hh. cbv zeta in Hh.
    destruct (layer <=? k) eqn:E.
    + apply Nat.leb_le in E. split.
      * destruct Hdk as [Hd|Hd]; [left; apply (Hpar k), Hd|right; lia].
      * destruct skips; [reflexivity|cbn [length] in Hh; lia].
    + apply Nat.leb_gt in E. split.
      * destruct Hdk as [Hd|Hd]; [left; apply (Hpar k), Hd|right; lia].
      * destruct skips; [reflexivity|cbn [length] in Hh; lia].
  - cbn [length] in Hlen. cbn [run_blocks]. fold d.
    rewrite consumes_skip_div, produces_skip_div. fold k.
    unfold stack_height in Hh. cbv zeta in Hh.
    destruct (k <? layer) eqn:Ec.
    + apply Nat.ltb_lt in Ec.
      assert (El : (layer <=? k) = false) by (apply Nat.leb_gt; lia).
      rewrite El in Hh.
      assert (Ep : (S layer <? k) = false) by (apply Nat.ltb_ge; lia).
      rewrite Ep.
      destruct skips as [|skip skips].
      * (* the pop finds the list empty *)
        cbn [length] in Hh. left. split; [|split; [lia|reflexivity]].
        destruct Hdk as [Hd|Hd]; [lia|apply (Hpar k), Hd].
      * unfold bind at 1. unfold bind at 1.
        destruct (HunYuanDiTBlock_forward block x c text_states freqs_cis_img
                    (Some skip) w) as [[y|e] w1] eqn:Ef.
        -- unfold ret; cbn [fst snd].
           specialize (IH (S layer) y skips w1).
           destruct (run_blocks self (S layer) bs y c text_states freqs_cis_img skips w1)
             as [[xs|e] w2].
           ++ apply IH; [lia|]. unfold stack_height. cbv zeta.
              assert (El' : (S layer <=? k) = false) by (apply Nat.leb_gt; lia).
              rewrite El'. cbn [length] in Hh. lia.
           ++ destruct IH as [Hodd|(b & x' & sk & w0 & Hin & Hb)].
              { lia. }
              { unfold stack_height. cbv zeta.
                assert (El' : (S layer <=? k) = false) by (apply Nat.leb_gt; lia).
                rewrite El'. cbn [length] in Hh. lia. }
              { left. exact Hodd. }
              { right. exists b, x', sk, w0. split; [right; exact Hin|exact Hb]. }
        -- right. exists block, x, (Some skip), w. split; [left; reflexivity|].
           rewrite Ef. reflexivity.
    + apply Nat.ltb_ge in Ec.
      assert (El : (layer <=? k) = true) by (apply Nat.leb_le; lia).
      rewrite El in Hh.
      unfold bind at 1. unfold bind at 1.
      destruct (HunYuanDiTBlock_forward block x c text_states freqs_cis_img None w)
        as [[y|e] w1] eqn:Ef.
      * unfold ret; cbn [fst snd].
        assert (Hnext :
          Z.of_nat (length (if S layer <? k then y :: skips else skips))
          = stack_height k (S layer)).
        { unfold stack_height. cbv zeta.
          destruct (S layer <? k) eqn:Ep.
          - apply Nat.ltb_lt in Ep.
            assert (El' : (S layer <=? k) = true) by (apply Nat.leb_le; lia).
            rewrite El'. cbn [length]. lia.
          - apply Nat.ltb_ge in Ep.
            destruct (S layer <=? k) eqn:El'.
            + apply Nat.leb_le in El'. lia.
            + apply Nat.leb_gt in El'. lia. }
        specialize (IH (S layer) y (if S layer <? k then y :: skips else skips) w1).
        destruct (run_blocks self (S layer) bs y c text_states freqs_cis_img
                    (if S layer <? k then y :: skips else skips) w1)
          as [[xs|e] w2].
        -- apply IH; [lia|exact Hnext].
        -- destruct IH as [Hodd|(b & x' & sk & w0 & Hin & Hb)]; [lia|exact Hnext| |].
           ++ left. exact Hodd.
           ++ right. exists b, x', sk, w0. split; [right; exact Hin|exact Hb].
      * right. exists block, x, None, w. split; [left; reflexivity|].
        rewrite Ef. reflexivity.
Qed.

(** X1.  For every depth [d], the blocks that push onto [skips] are
    [d // 2 - 1] many (none when [d < 4]) and the blocks that pop are
    [d - 1 - d // 2] many.  So the two counts agree exactly when [d] is
    even or [d = 1].  The loop of [forward_raw] over a model of depth [d]
    with [d] blocks returns only in these cases, and then with the stack
    empty; for an odd depth from 3 on it never returns: unless a block
    raises before, the last block pops the empty list ([IndexError]). *)
Theorem skip_stack_every_depth (d : nat) :
  length (filter (fun layer => produces_skip d layer) (seq 0 d)) = d / 2 - 1 /\
  length (filter (fun layer => consumes_skip d layer) (seq 0 d)) = d - 1 - d / 2 /\
  (d / 2 - 1 = d - 1 - d / 2 <-> Nat.even d = true \/ d = 1) /\
  (forall (self : HunYuan) (x c text_states : tensor R) (freqs_cis_img : rope)
          (w : world R),
      depth self = d -> length (blocks self) = d ->
      match run_blocks self 0 (blocks self) x c text_states freqs_cis_img [] w with
      | (Ok xs, _) => (Nat.even d = true \/ d = 1) /\ xs.2 = []
      | (Raise e, _) =>
          (Nat.odd d = true /\ 3 <= d /\ e = IndexError) \/
          exists b x' skip w0,
            In b (blocks self) /\
            (HunYuanDiTBlock_forward b x' c text_states freqs_cis_img skip w0).1
            = Raise e
      end).
Proof.
  split; [|split; [|split]].
  - rewrite (list_filter_iff _ (fun layer => S layer <? d / 2)).
    + rewrite count_below. pose proof (Nat.div_mod_eq d 2).
      pose proof (Nat.mod_upper_bound d 2). lia.
    + intros layer. rewrite produces_skip_div. reflexivity.
  - rewrite (list_filter_iff _ (fun layer => d / 2 <? layer)).
    + rewrite count_above. lia.
    + intros layer. rewrite consumes_skip_div. reflexivity.
  - pose proof (Nat.div_mod_eq d 2) as E. pose proof (Nat.mod_upper_bound d 2).
    rewrite Nat.even_spec. split.
    + intros Hc. destruct (Nat.eq_dec (d mod 2) 0) as [E0|E0].
      * left. exists (d / 2). lia.
      * right. lia.
    + intros [[j ->] | ->]; [|reflexivity].
      replace (2 * j / 2) with j by (rewrite Nat.mul_comm, Nat.div_mul; lia). lia.
  - intros self x c text_states freqs_cis_img w Hd Hb. subst d.
    apply run_blocks_any_depth.
    + cbn [Nat.add]. exact Hb.
    + unfold stack_height. cbn. lia.
Qed.

End SkipStackAnyDepth.

(** ** Outcomes of the constructors *)

Section OutcomeFacts.
Context {R : Type} `{Scalar R} `{Externals R}.

Lemma returns_inv {A} (m : M R A) (P : A -> Prop) (w w' : world R) (a : A) :
  returns m P -> m w = (Ok a, w') -> P a.
Proof.
  intros Hm E. destruct (Hm w) as (a0 & w0 & E0 & Ha).
  rewrite E0 in E. injection E as <- _. exact Ha.
Qed.

Lemma returns_conj {A} (m : M R A) (P Q : A -> Prop) :
  returns m P -> returns m Q -> returns m (fun a => P a /\ Q a).
Proof.
  intros HP HQ w. destruct (HP w) as (a & w' & E & Ha).
  exists a, w'. split; [exact E|]. split; [exact Ha|].
  exact (returns_inv m Q w w' a HQ E).
Qed.

Lemma returns_lift_Ok {A} (a : A) (P : A -> Prop) : P a -> returns (lift (Ok a)) P.
Proof. intros Ha w. exists a, w. split; [reflexivity|exact Ha]. Qed.

Lemma returns_write_text (name text : string) : returns (write_text name text) (fun _ => True).
Proof. intros w. eexists tt, _. split; [reflexivity|exact I]. Qed.

Lemma raises_raise {A} (e : exn) : raises (raise e : M R A) e.
Proof. intros w. exists w. reflexivity. Qed.

Lemma raises_lift {A} (e : exn) : raises (lift (Raise e) : M R A) e.
Proof. intros w. exists w. reflexivity. Qed.

Lemma raises_bind_l {A B} (m : M R A) (k : A -> M R B) (e : exn) :
  raises m e -> raises (bind m k) e.
Proof.
  intros Hm w. destruct (Hm w) as (w' & E). exists w'.
  apply (bind_Raise m k w w' e E).
Qed.

Lemma raises_bind_r {A B} (m : M R A) (k : A -> M R B) (P : A -> Prop) (e : exn) :
  returns m P -> (forall a, P a -> raises (k a) e) -> raises (bind m k) e.
Proof.
  intros Hm Hk w. destruct (Hm w) as (a & w1 & E & Ha).
  destruct (Hk a Ha w1) as (w2 & E2). exists w2.
  rewrite (bind_Ok m k w w1 a E). exact E2.
Qed.

Lemma raises_inv {A} (m : M R A) (e : exn) (w : world R) :
  raises m e -> (m w).1 = Raise e.
Proof. intros Hm. destruct (Hm w) as (w' & ->). reflexivity. Qed.

(** The list built by [mapM_M] has one element per argument, related to
    it by the postcondition of [f]. *)
Lemma returns_mapM_M_Forall2 {A B} (f : A -> M R B) (P : A -> B -> Prop) (l : list A) :
  (forall a, returns (f a) (P a)) -> returns (mapM_M f l) (Forall2 P l).
Proof.
  intros Hf. induction l as [|a l IH]; cbn [mapM_M].
  - apply returns_ret. constructor.
  - eapply returns_bind; [apply Hf|intros b Hb].
    eapply returns_bind; [apply IH|intros bs Hbs].
    apply returns_ret. constructor; assumption.
Qed.

Lemma raises_mapM_M_head {A B} (f : A -> M R B) (a : A) (l : list A) (e : exn) :
  raises (f a) e -> raises (mapM_M f (a :: l)) e.
Proof. intros Hf. cbn [mapM_M]. apply raises_bind_l, Hf. Qed.

End OutcomeFacts.

Section BlockSkip.
Context {R : Type} `{Scalar R} `{Externals R}.

Lemma block_init_skip_layers
    (hidden_size c_emb_size num_heads : nat) (mlp_ratio : Q) (text_states_dim : nat)
    (use_flash_attn qk_norm : bool) (norm_type : string) (skip : bool)
    (w w' : world R) (b : HunYuanDiTBlock) :
  HunYuanDiTBlock_init hidden_size c_emb_size num_heads mlp_ratio text_states_dim
    use_flash_attn qk_norm norm_type skip w = (Ok b, w') ->
  (norm_type = "layer" \/ norm_type = "rms") /\
  (is_Some (skip_layers b) <-> skip = true).
Proof.
  intros E.
  assert (Hn : norm_type = "layer" \/ norm_type = "rms").
  { destruct (decide (norm_type = "layer")) as [El|El]; [left; exact El|].
    destruct (decide (norm_type = "rms")) as [Er|Er]; [right; exact Er|].
    exfalso. revert E. unfold HunYuanDiTBlock_init.
    destruct (decide (norm_type = "layer")) as [?|_]; [contradiction|].
    destruct (decide (norm_type = "rms")) as [?|_]; [contradiction|].
    discriminate. }
  split; [exact Hn|].
  assert (Hb : exists cls, block_norms cls skip b).
  { destruct Hn as [-> | ->].
    - exists FP32_Layernorm. eapply returns_inv; [|exact E].
      apply block_init_with. left. split; reflexivity.
    - exists RMSNorm. eapply returns_inv; [|exact E].
      apply block_init_with. right. split; reflexivity. }
  destruct Hb as (cls & _ & _ & _ & Hs).
  destruct (skip_layers b) as [[sn sl]|].
  - destruct Hs as [-> _]. split; [reflexivity|intros _; eexists; reflexivity].
  - subst skip. split; [intros [? ?]; discriminate|discriminate].
Qed.

(** X2.  A block that [HunYuanDiTBlock.__init__] built with [skip=False]
    has no skip layers and ignores the [skip] argument of [forward]: the
    call with a skip tensor does what the call without one does.  A block
    built with [skip=True] that is called without a skip tensor raises
    [TypeError] (from [torch.cat([x, None])]) right after it wrote the
    dump [x1.txt], before any layer runs. *)
Theorem HunYuanDiTBlock_skip_argument
    (hidden_size c_emb_size num_heads : nat) (mlp_ratio : Q) (text_states_dim : nat)
    (use_flash_attn qk_norm : bool) (norm_type : string) (skip : bool)
    (w w' : world R) (b : HunYuanDiTBlock) :
  HunYuanDiTBlock_init hidden_size c_emb_size num_heads mlp_ratio text_states_dim
    use_flash_attn qk_norm norm_type skip w = (Ok b, w') ->
  if skip then
    forall (x c text_states : tensor R) (freq_cis_img : rope) (w0 : world R),
      HunYuanDiTBlock_forward b x c text_states freq_cis_img None w0
      = (Raise TypeError,
         World (<[path_of "x1.txt" := TextFile (dump "x" x)]> (files w0)) (rng w0))
  else
    forall (x c text_states s : tensor R) (freq_cis_img : rope) (w0 : world R),
      HunYuanDiTBlock_forward b x c text_states freq_cis_img (Some s) w0
      = HunYuanDiTBlock_forward b x c text_states freq_cis_img None w0.
Proof.
  intros E. destruct (block_init_skip_layers _ _ _ _ _ _ _ _ _ _ _ _ E) as [_ Hs].
  destruct skip.
  - intros x c text_states freq_cis_img w0.
    destruct (proj2 Hs eq_refl) as [[sn sl] Esl].
    unfold HunYuanDiTBlock_forward. rewrite Esl. reflexivity.
  - intros x c text_states s freq_cis_img w0.
    unfold HunYuanDiTBlock_forward.
    destruct (skip_layers b) as [p|] eqn:Esl; [|reflexivity].
    assert (Hf : false = true) by (apply Hs; eexists; reflexivity). discriminate Hf.
Qed.

End BlockSkip.

Lemma HunYuanDiTBlock_skip_argument_witness :
  exists b w',
    HunYuanDiTBlock_init 2 2 1 4 2 false true "layer" true Toy.world0 = (Ok b, w') /\
    (HunYuanDiTBlock_forward b (Toy.zeros [1; 1; 2]) (Toy.zeros [1; 2])
       (Toy.zeros [1; 1; 2]) tt None Toy.world0).1 = Raise TypeError.
Proof.
  destruct (HunYuanDiTBlock_init 2 2 1 4 2 false true "layer" true Toy.world0)
    as [[b|e] w'] eqn:E; [|vm_compute in E; discriminate E].
  exists b, w'. split; [reflexivity|].
  rewrite (HunYuanDiTBlock_skip_argument 2 2 1 4 2 false true "layer" true
             Toy.world0 w' b E).
  reflexivity.
Defined.

Section InitOutcome.
Context {R : Type} `{Scalar R} `{Externals R}.

Lemma all_zero_bias_basic_init (l : Linear R) :
  returns (basic_init_Linear l)
    (fun l' => all_zero (bias l') /\
               forall n_in n_out, wf_Linear l n_in n_out -> wf_Linear l' n_in n_out).
Proof.
  apply returns_conj; [|apply returns_basic_init_Linear].
  unfold basic_init_Linear.
  eapply returns_bind; [apply returns_init_|intros t' _].
  apply returns_ret. cbn [bias]. apply all_zero_constant_0.
Qed.

Lemma returns_basic_init_norm_class (o : norm_object) :
  returns (basic_init_norm o) (fun o' => class_of o' = class_of o).
Proof.
  destruct o; unfold basic_init_norm.
  - apply returns_ret. reflexivity.
  - eapply returns_bind; [apply returns_draw|intros ? _]. apply returns_ret. reflexivity.
Qed.

Lemma returns_basic_init_block_layout (b : HunYuanDiTBlock) :
  returns (basic_init_block b) (fun b' => same_layout b b' /\ zero_biases b').
Proof.
  unfold basic_init_block.
  eapply returns_bind; [apply returns_basic_init_norm_class|intros n1 Hn1].
  eapply returns_bind; [apply returns_draw|intros ? _].
  eapply returns_bind; [apply returns_basic_init_norm_class|intros n2 Hn2].
  eapply returns_bind; [apply returns_draw|intros ? _].
  eapply returns_bind; [apply all_zero_bias_basic_init|intros dm [Hdm _]].
  eapply returns_bind; [apply returns_draw|intros ? _].
  eapply returns_bind; [apply returns_basic_init_norm_class|intros n3 Hn3].
  eapply returns_bind with
    (P := fun o => match skip_layers b, o with
                   | Some (n, _), Some (n', l') =>
                       class_of n' = class_of n /\ all_zero (bias l')
                   | None, None => True
                   | _, _ => False
                   end).
  - destruct (skip_layers b) as [[sn sl]|]; [|apply returns_ret; exact I].
    eapply returns_bind; [apply returns_basic_init_norm_class|intros sn' Hsn].
    eapply returns_bind; [apply all_zero_bias_basic_init|intros sl' [Hsl _]].
    apply returns_ret. split; assumption.
  - intros o Ho. apply returns_ret.
    unfold same_layout, zero_biases.
    cbn [use_flash_attn norm1 norm2 norm3 skip_layers default_modulation].
    repeat split; try assumption.
    + destruct (skip_layers b) as [[sn sl]|], o as [[sn' sl']|]; try exact Ho.
      exact (proj1 Ho).
    + destruct (skip_layers b) as [[sn sl]|], o as [[sn' sl']|];
        try exact I; try contradiction.
      exact (proj2 Ho).
Qed.

Lemma same_layout_zero_default_modulation (b b' : HunYuanDiTBlock) :
  same_layout b b' -> same_layout b (zero_default_modulation b').
Proof. intros Hl. exact Hl. Qed.

Lemma zero_biases_zero_default_modulation (b : HunYuanDiTBlock) :
  zero_biases b -> zero_biases (zero_default_modulation b).
Proof.
  intros [_ Hs]. split; [|exact Hs].
  cbn [zero_default_modulation default_modulation zero_Linear bias].
  apply all_zero_constant_0.
Qed.

Lemma returns_initialize_weights_keeps (self : HunYuan) :
  returns (initialize_weights self) (reinitialised self).
Proof.
  unfold initialize_weights.
  eapply returns_bind; [apply all_zero_bias_basic_init|intros t5a [Ht5a _]].
  eapply returns_bind; [apply all_zero_bias_basic_init|intros t5b [Ht5b _]].
  eapply returns_bind; [apply returns_draw|intros pooler' _].
  eapply returns_bind; [apply returns_draw|intros style' _].
  eapply returns_bind; [apply returns_draw|intros xm _].
  eapply returns_bind; [apply returns_draw|intros t_emb _].
  eapply returns_bind; [apply all_zero_bias_basic_init|intros ea [Hea _]].
  eapply returns_bind; [apply all_zero_bias_basic_init|intros eb [Heb _]].
  eapply returns_bind;
    [apply (returns_mapM_M_Forall2 _ (fun b b' => same_layout b b' /\ zero_biases b'));
     intros b; apply returns_basic_init_block_layout|intros blocks' Hbs].
  eapply returns_bind; [apply returns_basic_init_Linear|intros fl_linear _].
  eapply returns_bind; [apply returns_basic_init_Linear|intros fl_ada _].
  eapply returns_bind; [apply returns_draw|intros x_emb _].
  eapply returns_bind; [apply returns_init_|intros eaw _].
  eapply returns_bind; [apply returns_init_|intros ebw _].
  eapply returns_bind; [apply returns_draw|intros t_emb' _].
  apply returns_ret. unfold reinitialised.
  cbn [depth patch_size head_size hidden_size num_heads blocks mlp_t5 extra_embedder
       text_embedding_padding fst snd bias].
  repeat split; try assumption.
  - apply Forall2_fmap_r. eapply Forall2_impl; [exact Hbs|].
    intros b b' [Hl _]. exact Hl.
  - clear -Hbs. induction Hbs as [|b b' l l' [_ Hz] _ IH]; cbn [map]; constructor.
    + apply zero_biases_zero_default_modulation, Hz.
    + exact IH.
Qed.

Lemma returns_FinalLayer_init (final_hidden_size c_emb_size p out_ch : nat) :
  returns (FinalLayer_init final_hidden_size c_emb_size p out_ch) (fun _ => True).
Proof.
  unfold FinalLayer_init.
  eapply returns_bind; [apply returns_nn_Linear|intros ? _].
  eapply returns_bind; [apply returns_nn_Linear|intros ? _].
  apply returns_ret. exact I.
Qed.

Lemma returns_block_init_skip
    (hs c_emb nh : nat) (mlp_ratio : Q) (tsd : nat) (flash qk_norm : bool)
    (norm_type : string) (skip : bool) :
  norm_type = "layer" \/ norm_type = "rms" ->
  returns (HunYuanDiTBlock_init hs c_emb nh mlp_ratio tsd flash qk_norm norm_type skip)
    (fun b => is_Some (skip_layers b) <-> skip = true).
Proof.
  intros Hn w.
  assert (Hr : exists cls,
             returns (HunYuanDiTBlock_init hs c_emb nh mlp_ratio tsd flash qk_norm
                        norm_type skip) (block_norms cls skip)).
  { destruct Hn as [-> | ->].
    - exists FP32_Layernorm. apply block_init_with. left. split; reflexivity.
    - exists RMSNorm. apply block_init_with. right. split; reflexivity. }
  destruct Hr as (cls & Hr). destruct (Hr w) as (b & w' & E & _).
  exists b, w'. split; [exact E|].
  exact (proj2 (block_init_skip_layers _ _ _ _ _ _ _ _ _ _ _ _ E)).
Qed.

Lemma raises_block_init_unknown
    (hs c_emb nh : nat) (mlp_ratio : Q) (tsd : nat) (flash qk_norm : bool)
    (norm_type : string) (skip : bool) :
  norm_type <> "layer" -> norm_type <> "rms" ->
  raises (HunYuanDiTBlock_init hs c_emb nh mlp_ratio tsd flash qk_norm norm_type skip)
    (ValueError ("Unknown norm_type: " +:+ norm_type)).
Proof.
  intros Hl Hr w. exists w. unfold HunYuanDiTBlock_init.
  destruct (decide (norm_type = "layer")) as [?|_]; [contradiction|].
  destruct (decide (norm_type = "rms")) as [?|_]; [contradiction|].
  reflexivity.
Qed.

Lemma same_layout_is_Some (b b' : HunYuanDiTBlock) :
  same_layout b b' -> (is_Some (skip_layers b') <-> is_Some (skip_layers b)).
Proof.
  intros (_ & _ & _ & _ & Hsk).
  destruct (skip_layers b) as [[? ?]|], (skip_layers b') as [[? ?]|];
    try contradiction.
  - split; intros _; eexists; reflexivity.
  - split; intros [? ?]; discriminate.
Qed.

Lemma Forall2_skip_layout {A} (Q : A -> Prop) (l : list A)
    (bs bs' : list HunYuanDiTBlock) :
  Forall2 (fun a b => is_Some (skip_layers b) <-> Q a) l bs ->
  Forall2 same_layout bs bs' ->
  Forall2 (fun a b => is_Some (skip_layers b) <-> Q a) l bs'.
Proof.
  intros Hbs. revert bs'.
  induction Hbs as [|a b l bs Hb _ IH]; intros bs' Hl.
  - inversion Hl; subst. constructor.
  - inversion Hl as [|? b' ? bs1 Hbb Hrest]; subst. constructor; [|apply IH, Hrest].
    rewrite (same_layout_is_Some b b' Hbb). exact Hb.
Qed.

(** The part of [HunYuan.__init__] before the blocks are built. *)
Ltac init_prefix :=
  eapply returns_bind; [apply returns_nn_Linear|intros ?t5a _];
  eapply returns_bind; [apply returns_nn_Linear|intros ?t5b _];
  eapply returns_bind; [apply returns_init_|intros ?pad _];
  eapply returns_bind; [apply returns_draw|intros ?pooler _];
  eapply returns_bind; [apply returns_draw|intros ?style _];
  eapply returns_bind; [apply returns_draw|intros ?xe _];
  eapply returns_bind; [apply returns_draw|intros ?te _];
  eapply returns_bind; [apply returns_nn_Linear|intros ?ea _];
  eapply returns_bind; [apply returns_nn_Linear|intros ?eb _].

Ltac init_prefix_raises :=
  eapply raises_bind_r; [apply returns_nn_Linear|intros ?t5a _];
  eapply raises_bind_r; [apply returns_nn_Linear|intros ?t5b _];
  eapply raises_bind_r; [apply returns_init_|intros ?pad _];
  eapply raises_bind_r; [apply returns_draw|intros ?pooler _];
  eapply raises_bind_r; [apply returns_draw|intros ?style _];
  eapply raises_bind_r; [apply returns_draw|intros ?xe _];
  eapply raises_bind_r; [apply returns_draw|intros ?te _];
  eapply raises_bind_r; [apply returns_nn_Linear|intros ?ea _];
  eapply raises_bind_r; [apply returns_nn_Linear|intros ?eb _].

Lemma HunYuan_init_returns
    (input_size : nat * nat) (p cin hs d nh : nat) (mlp_ratio : Q) (ls : bool)
    (tsd tsd_t5 tl tl_t5 : nat) (norm_type infer_mode : string) (fp16 : bool) :
  nh <> 0 -> (d = 0 \/ norm_type = "layer" \/ norm_type = "rms") ->
  returns (HunYuan_init input_size p cin hs d nh mlp_ratio ls tsd tsd_t5 tl tl_t5
             norm_type infer_mode fp16)
    (fun net =>
       depth net = d /\ patch_size net = p /\ head_size net = hs / nh /\
       hidden_size net = hs /\ num_heads net = nh /\
       Forall2 (fun layer b => is_Some (skip_layers b) <-> d / 2 < layer)
         (seq 0 d) (blocks net)).
Proof.
  intros Hnh Hd. unfold HunYuan_init.
  eapply returns_bind; [apply returns_write_text|intros ? _]. cbv zeta.
  eapply returns_bind with (P := fun h => h = hs / nh).
  { unfold floordiv. destruct (nh =? 0) eqn:E; [apply Nat.eqb_eq in E; contradiction|].
    apply returns_lift_Ok. reflexivity. }
  intros h ->. init_prefix.
  eapply returns_bind with
    (P := Forall2 (fun layer b => is_Some (skip_layers b) <-> d / 2 < layer) (seq 0 d)).
  { destruct Hd as [-> | Hn].
    - cbn [seq mapM_M]. apply returns_ret. constructor.
    - apply returns_mapM_M_Forall2. intros layer.
      eapply returns_weaken; [|apply returns_block_init_skip, Hn].
      intros b Hb. rewrite Hb. rewrite bool_decide_eq_true. reflexivity. }
  intros bs Hbs.
  eapply returns_bind; [apply returns_FinalLayer_init|intros fl _].
  eapply returns_weaken; [|apply returns_initialize_weights_keeps].
  intros net (Hdp & Hp & Hh & Hhs & Hn' & Hl & _).
  cbn [depth patch_size head_size hidden_size num_heads blocks] in *.
  repeat split; try assumption.
  eapply Forall2_skip_layout; eassumption.
Qed.

Lemma HunYuan_init_raises_division
    (input_size : nat * nat) (p cin hs d : nat) (mlp_ratio : Q) (ls : bool)
    (tsd tsd_t5 tl tl_t5 : nat) (norm_type infer_mode : string) (fp16 : bool) :
  raises (HunYuan_init input_size p cin hs d 0 mlp_ratio ls tsd tsd_t5 tl tl_t5
            norm_type infer_mode fp16) ZeroDivisionError.
Proof.
  unfold HunYuan_init.
  eapply raises_bind_r; [apply returns_write_text|intros ? _]. cbv zeta.
  apply raises_bind_l. apply raises_lift.
Qed.

Lemma HunYuan_init_raises_norm
    (input_size : nat * nat) (p cin hs d nh : nat) (mlp_ratio : Q) (ls : bool)
    (tsd tsd_t5 tl tl_t5 : nat) (norm_type infer_mode : string) (fp16 : bool) :
  nh <> 0 -> 0 < d -> norm_type <> "layer" -> norm_type <> "rms" ->
  raises (HunYuan_init input_size p cin hs d nh mlp_ratio ls tsd tsd_t5 tl tl_t5
            norm_type infer_mode fp16)
    (ValueError ("Unknown norm_type: " +:+ norm_type)).
Proof.
  intros Hnh Hd Hl Hr. unfold HunYuan_init.
  eapply raises_bind_r; [apply returns_write_text|intros ? _]. cbv zeta.
  eapply raises_bind_r with (P := fun _ => True).
  { unfold floordiv. destruct (nh =? 0) eqn:E; [apply Nat.eqb_eq in E; contradiction|].
    apply returns_lift_Ok. exact I. }
  intros h _. init_prefix_raises.
  apply raises_bind_l.
  destruct d as [|d]; [lia|]. cbn [seq].
  apply raises_mapM_M_head. apply raises_block_init_unknown; assumption.
Qed.

(** X3.  The outcome of [HunYuan.__init__], as far as the code of the
    module decides it (the constructors of the imported layers are taken
    to return).  It raises
    [ZeroDivisionError] when [num_heads] is 0 (from
    [hidden_size // num_heads]), and [ValueError] when at least one block
    is to be built and [norm] is neither "layer" nor "rms"; in every other
    case it returns.  The model it returns has [depth] blocks, of which
    exactly those whose index exceeds [depth // 2] have skip layers, and
    its [head_size] is [hidden_size // num_heads]. *)
Theorem HunYuan_init_outcome
    (input_size : nat * nat) (p cin hs d nh : nat) (mlp_ratio : Q) (ls : bool)
    (tsd tsd_t5 tl tl_t5 : nat) (norm_type infer_mode : string) (fp16 : bool)
    (w : world R) :
  match (HunYuan_init input_size p cin hs d nh mlp_ratio ls tsd tsd_t5 tl tl_t5
           norm_type infer_mode fp16 w).1 with
  | Ok net =>
      nh <> 0 /\ (d = 0 \/ norm_type = "layer" \/ norm_type = "rms") /\
      depth net = d /\ length (blocks net) = d /\ head_size net = hs / nh /\
      forall (layer : nat) (b : HunYuanDiTBlock),
        blocks net !! layer = Some b ->
        (is_Some (skip_layers b) <-> d / 2 < layer)
  | Raise e =>
      (nh = 0 /\ e = ZeroDivisionError) \/
      (nh <> 0 /\ 0 < d /\ norm_type <> "layer" /\ norm_type <> "rms" /\
       e = ValueError ("Unknown norm_type: " +:+ norm_type))
  end.
Proof.
  destruct (Nat.eq_dec nh 0) as [-> | Hnh].
  { rewrite (raises_inv _ _ w (HunYuan_init_raises_division _ _ _ _ _ _ _ _ _ _ _ _ _ _)).
    left. split; reflexivity. }
  destruct (decide (d = 0 \/ norm_type = "layer" \/ norm_type = "rms")) as [Hd|Hd].
  - destruct (HunYuan_init_returns input_size p cin hs d nh mlp_ratio ls tsd tsd_t5
                tl tl_t5 norm_type infer_mode fp16 Hnh Hd w)
      as (net & w' & E & Hdp & _ & Hh & _ & _ & Hbs).
    rewrite E. cbn [fst].
    split; [exact Hnh|]. split; [exact Hd|]. split; [exact Hdp|].
    split; [rewrite <- (Forall2_length _ _ _ Hbs), length_seq; reflexivity|].
    split; [exact Hh|].
    intros layer b Hb.
    destruct (Forall2_lookup_r _ _ _ _ _ Hbs Hb) as (l0 & Hl0 & Hp).
    apply lookup_seq in Hl0. destruct Hl0 as [-> _]. exact Hp.
  - assert (Hd0 : 0 < d) by (destruct d; [exfalso; apply Hd; left; reflexivity|lia]).
    assert (Hl : norm_type <> "layer") by (intros ->; apply Hd; right; left; reflexivity).
    assert (Hr : norm_type <> "rms") by (intros ->; apply Hd; right; right; reflexivity).
    rewrite (raises_inv _ _ w
               (HunYuan_init_raises_norm input_size p cin hs d nh mlp_ratio ls tsd tsd_t5
                  tl tl_t5 norm_type infer_mode fp16 Hnh Hd0 Hl Hr)).
    right. repeat split; assumption.
Qed.

End InitOutcome.

Section Presets.
Context {R : Type} `{Scalar R} `{Externals R}.


(** X5.  [initialize_weights] returns, and besides the layers it zeroes
    it resets the bias of every [nn.Linear] it reaches: both layers of
    [mlp_t5], both layers of [extra_embedder], and in every block
    [default_modulation] and, where there is one, [skip_linear].  It keeps
    the depth, the patch size, the head size, the padding embedding and
    the layout of every block. *)
Theorem initialize_weights_resets_biases (self : HunYuan) (w : world R) :
  exists self' w',
    initialize_weights self w = (Ok self', w') /\
    all_zero (bias (mlp_t5 self').1) /\ all_zero (bias (mlp_t5 self').2) /\
    all_zero (bias (extra_embedder self').1) /\
    all_zero (bias (extra_embedder self').2) /\
    Forall zero_biases (blocks self') /\
    Forall2 same_layout (blocks self) (blocks self') /\
    depth self' = depth self /\ patch_size self' = patch_size self /\
    head_size self' = head_size self /\
    text_embedding_padding self' = text_embedding_padding self.
Proof.
  destruct (returns_initialize_weights_keeps self w)
    as (self' & w' & E & Hd & Hp & Hh & _ & _ & Hl & Hz & H1 & H2 & H3 & H4 & Hpad).
  exists self', w'. repeat split; assumption.
Qed.

End Presets.


(** ** The files that a forward pass touches *)

Section WritesWithin.
Context {R : Type} `{Scalar R} `{Externals R}.

Lemma writes_only_mono (names names' : list string) (w w' : world R) :
  (forall n, In n names -> In n names') ->
  writes_only names w w' -> writes_only names' w w'.
Proof.
  intros Hsub [Hr Hf]. split; [exact Hr|].
  intros p Hp. apply Hf. intros n Hn. apply Hp, Hsub, Hn.
Qed.

Lemma writes_within_mono {A} (names names' : list string) (m : M R A) :
  (forall n, In n names -> In n names') ->
  writes_within names m -> writes_within names' m.
Proof. intros Hsub Hm w. eapply writes_only_mono; [exact Hsub|apply Hm]. Qed.

Lemma writes_within_ret {A} (names : list string) (a : A) : writes_within names (ret a).
Proof. intros w. apply writes_only_refl. Qed.

Lemma writes_within_raise {A} (names : list string) (e : exn) :
  writes_within names (raise e : M R A).
Proof. intros w. apply writes_only_refl. Qed.

Lemma writes_within_lift {A} (names : list string) (r : result A) :
  writes_within names (lift r).
Proof. intros w. apply writes_only_refl. Qed.

Lemma writes_within_write_text (names : list string) (name text : string) :
  In name names -> writes_within names (write_text name text).
Proof. intros Hin w. apply (proj2 (pure_as_write_text names name text Hin w)). Qed.

Lemma writes_within_torch_load (names : list string) (name : string) :
  writes_within names (torch_load name).
Proof.
  intros w. unfold torch_load.
  destruct (files w !! path_of name) as [[?|?]|]; apply writes_only_refl.
Qed.

Lemma writes_within_bind {A B} (names : list string) (m : M R A) (k : A -> M R B) :
  writes_within names m -> (forall a, writes_within names (k a)) ->
  writes_within names (bind m k).
Proof.
  intros Hm Hk w. unfold bind. pose proof (Hm w) as Hw.
  destruct (m w) as [[a|e] w1]; cbn [snd] in *; [|exact Hw].
  eapply writes_only_trans; [exact Hw|apply Hk].
Qed.

Lemma writes_within_pure_as {A} (names : list string) (m : M R A) (r : result A) :
  pure_as names m r -> writes_within names m.
Proof. intros Hp w. apply (proj2 (Hp w)). Qed.

End WritesWithin.

(** One step of a proof that a computation is [writes_within names]. *)
Ltac writes_step :=
  first
    [ apply writes_within_ret
    | apply writes_within_raise
    | apply writes_within_lift
    | apply writes_within_torch_load
    | apply writes_within_write_text; cbn; tauto
    | apply writes_within_bind; [|intros ?] ].

Section ForwardWrites.
Context {R : Type} `{Scalar R} `{Externals R}.

Lemma writes_within_block (self : HunYuanDiTBlock)
    (x c text_states : tensor R) (freq_cis_img : rope) (skip : option (tensor R)) :
  writes_within forward_raw_files
    (HunYuanDiTBlock_forward self x c text_states freq_cis_img skip).
Proof.
  eapply writes_within_mono;
    [|eapply writes_within_pure_as, HunYuanDiTBlock_forward_pure_as].
  cbn. tauto.
Qed.

Lemma writes_within_run_blocks (self : HunYuan) (bs : list HunYuanDiTBlock) :
  forall (layer : nat) (x c text_states : tensor R) (freqs_cis_img : rope)
         (skips : list (tensor R)),
    writes_within forward_raw_files
      (run_blocks self layer bs x c text_states freqs_cis_img skips).
Proof.
  induction bs as [|block bs IH]; intros layer x c text_states freqs skips;
    cbn [run_blocks].
  - apply writes_within_ret.
  - apply writes_within_bind.
    + destruct (consumes_skip (depth self) layer).
      * destruct skips as [|skip skips']; [apply writes_within_raise|].
        apply writes_within_bind; [apply writes_within_block|].
        intros ?; apply writes_within_ret.
      * apply writes_within_bind; [apply writes_within_block|].
        intros ?; apply writes_within_ret.
    + intros xs. apply IH.
Qed.

Lemma writes_within_load_text_conditioning (names : list string) (batch_size : nat) :
  writes_within names (load_text_conditioning batch_size).
Proof. unfold load_text_conditioning, load_embeds. repeat writes_step. Qed.

Lemma writes_within_forward_raw (self : HunYuan) (x t : tensor R) (y : tensor Z)
    (kw : raw_kwargs) :
  writes_within forward_raw_files (forward_raw self x t y kw).
Proof.
  unfold forward_raw.
  destruct (shape x) as [|ob [|c0 [|oh [|ow [|? ?]]]]]; try apply writes_within_raise.
  apply writes_within_bind; [apply writes_within_load_text_conditioning|].
  intros [[[ehs ehs_t5] mask] mask_t5].
  do 3 (apply writes_within_bind; [apply writes_within_lift|intros ?]).
  apply writes_within_bind.
  { unfold build_time_and_image_embedding. repeat writes_step. }
  intros [t' x'].
  apply writes_within_bind.
  { unfold build_extra_vec. repeat writes_step. }
  intros extra_vec.
  apply writes_within_bind; [apply writes_within_lift|intros freqs].
  do 2 (apply writes_within_bind; [apply writes_within_write_text; cbn; tauto|intros ?]).
  do 2 (apply writes_within_bind; [apply writes_within_lift|intros ?]).
  apply writes_within_bind; [apply writes_within_run_blocks|intros xs].
  do 2 (apply writes_within_bind; [apply writes_within_lift|intros ?]).
  destruct (return_dict kw); apply writes_within_ret.
Qed.

(** What [forward] does once the four dumps of its arguments are
    written. *)
Lemma writes_within_forward_rest (self : HunYuan) (x timesteps context : tensor R) :
  writes_within forward_raw_files
    (context <- lift (select_col0 context) ;;
     out <- forward_raw self (tmap half x) (tmap half timesteps) (tmap to_int context)
              raw_defaults ;;
     match out with
     | Out_tensor out =>
         let out := tmap half out in
         eps <- lift (slice_ 1 0 (in_channels self) out) ;;
         rest <- lift (slice_from 1 (in_channels self) out) ;;
         match shape x with
         | b :: _ => lift (slice_ 0 0 b eps)
         | [] => raise IndexError
         end
     | Out_dict _ => raise AttributeError
     end).
Proof.
  apply writes_within_bind; [apply writes_within_lift|intros ctx].
  apply writes_within_bind; [apply writes_within_forward_raw|].
  intros [out|d]; [|apply writes_within_raise].
  cbv zeta.
  do 2 (apply writes_within_bind; [apply writes_within_lift|intros ?]).
  destruct (shape x); [apply writes_within_raise|apply writes_within_lift].
Qed.

Lemma writes_within_forward_dumps (x context : tensor R) (y : option (tensor R))
    (kwargs : pyobj) :
  writes_within ["x.txt"; "context.txt"; "y.txt"; "kwargs.txt"]
    (forward_dumps x context y kwargs).
Proof. unfold forward_dumps. repeat writes_step. Qed.

Lemma writes_within_forward (self : HunYuan) (x timesteps context : tensor R)
    (y : option (tensor R)) (kwargs : pyobj) :
  writes_within forward_files (forward self x timesteps context y kwargs).
Proof.
  unfold forward. apply writes_within_bind.
  - eapply writes_within_mono; [|apply writes_within_forward_dumps].
    unfold forward_files. intros n Hn. apply in_or_app. left. exact Hn.
  - intros _. eapply writes_within_mono; [|apply writes_within_forward_rest].
    unfold forward_files. intros n Hn. apply in_or_app. right. exact Hn.
Qed.

(** X6.  Whatever its arguments and whatever its outcome, a call of
    [forward] leaves the random generator as it was and changes no file
    of the world other than its ten debug dumps; in particular the eight
    embedding files that it loads are the same after the call. *)
Theorem forward_touches_only_debug_files (self : HunYuan)
    (x timesteps context : tensor R) (y : option (tensor R)) (kwargs : pyobj)
    (w : world R) :
  rng (forward self x timesteps context y kwargs w).2 = rng w /\
  (forall p : string,
      (forall name,
          In name ["x.txt"; "context.txt"; "y.txt"; "kwargs.txt"; "x3.txt";
                   "image_meta_size.txt"; "t.txt"; "extra_vec.txt"; "x1.txt";
                   "shift_msa.txt"] ->
          p <> path_of name) ->
      files (forward self x timesteps context y kwargs w).2 !! p = files w !! p) /\
  agree_on embedding_names w (forward self x timesteps context y kwargs w).2.
Proof.
  destruct (writes_within_forward self x timesteps context y kwargs w) as [Hr Hf].
  split; [exact Hr|]. split.
  - intros p Hp. apply Hf. intros name Hin. apply Hp.
    cbn in Hin. cbn. tauto.
  - intros n Hn. symmetry. apply Hf. intros name Hin E.
    apply path_of_inj in E. subst name. cbn in Hn, Hin.
    repeat (destruct Hn as [Hn|Hn];
            [subst n; repeat (destruct Hin as [Hin|Hin]; [discriminate Hin|]);
             exact Hin|]).
    exact Hn.
Qed.

(** X7.  Every call of [forward], whether it returns or raises, leaves
    on disk the text of its arguments: afterwards [context.txt] holds the
    printed [context] tensor, [y.txt] the printed [y] and [kwargs.txt] the
    printed keyword arguments of this call. *)
Theorem forward_always_dumps_its_arguments (self : HunYuan)
    (x timesteps context : tensor R) (y : option (tensor R)) (kwargs : pyobj)
    (w : world R) :
  files (forward self x timesteps context y kwargs w).2 !! path_of "context.txt"
  = Some (TextFile ("context" +:+ tensor_repr context)) /\
  files (forward self x timesteps context y kwargs w).2 !! path_of "y.txt"
  = Some (TextFile ("y" +:+ match y with Some t => tensor_repr t | None => "None" end)) /\
  files (forward self x timesteps context y kwargs w).2 !! path_of "kwargs.txt"
  = Some (TextFile ("kwargs" +:+ py_repr kwargs)).
Proof.
  unfold forward. rewrite bind_forward_dumps.
  pose proof (writes_within_forward_rest self x timesteps context
                (forward_dumps x context y kwargs w).2) as [_ Hf].
  assert (Hne : forall name, In name ["context.txt"; "y.txt"; "kwargs.txt"] ->
                forall d, In d forward_raw_files -> path_of name <> path_of d).
  { intros name Hn d Hd E. apply path_of_inj in E. subst d. cbn in Hn, Hd.
    repeat (destruct Hn as [Hn|Hn];
            [subst name; repeat (destruct Hd as [Hd|Hd]; [discriminate Hd|]);
             exact Hd|]).
    exact Hn. }
  assert (Hp : forall a b, a <> b -> path_of a <> path_of b).
  { intros a b Hab E. apply Hab, path_of_inj, E. }
  repeat split.
  - rewrite Hf by (intros d Hd; apply Hne; [cbn; tauto|exact Hd]).
    cbn [forward_dumps bind write_text snd files].
    rewrite lookup_insert_ne by (apply Hp; discriminate).
    rewrite lookup_insert_ne by (apply Hp; discriminate).
    apply lookup_insert_eq.
  - rewrite Hf by (intros d Hd; apply Hne; [cbn; tauto|exact Hd]).
    cbn [forward_dumps bind write_text snd files].
    rewrite lookup_insert_ne by (apply Hp; discriminate).
    apply lookup_insert_eq.
  - rewrite Hf by (intros d Hd; apply Hne; [cbn; tauto|exact Hd]).
    cbn [forward_dumps bind write_text snd files].
    apply lookup_insert_eq.
Qed.

End ForwardWrites.

Section XTxt.
Context {R : Type} `{Scalar R} `{Externals R}.

Lemma keeps_file_writes_within {A} (names : list string) (name : string) (m : M R A) :
  ~ In name names -> writes_within names m -> keeps_file name m.
Proof.
  intros Hn Hm w. apply (proj2 (Hm w)).
  intros d Hd E. apply path_of_inj in E. subst d. exact (Hn Hd).
Qed.

Lemma keeps_file_lift {A} (name : string) (r : result A) : keeps_file name (lift r).
Proof. intros w. reflexivity. Qed.

Lemma keeps_file_ret {A} (name : string) (a : A) : keeps_file name (ret a).
Proof. intros w. reflexivity. Qed.

Lemma keeps_file_raise {A} (name : string) (e : exn) : keeps_file name (raise e : M R A).
Proof. intros w. reflexivity. Qed.

Lemma keeps_file_bind {A B} (name : string) (m : M R A) (k : A -> M R B) :
  keeps_file name m -> (forall a, keeps_file name (k a)) -> keeps_file name (bind m k).
Proof.
  intros Hm Hk w. unfold bind. pose proof (Hm w) as Hw.
  destruct (m w) as [[a|e] w1]; cbn [snd] in *; [|exact Hw].
  rewrite Hk. exact Hw.
Qed.

Lemma leaves_text_write_text (name text : string) (P : string -> Prop) :
  P text -> leaves_text name P (write_text name text).
Proof.
  intros HP w a w' E. unfold write_text in E. injection E as _ <-.
  exists text. split; [apply lookup_insert_eq|exact HP].
Qed.

Lemma leaves_text_bind_l {A B} (name : string) (P : string -> Prop)
    (m : M R A) (k : A -> M R B) :
  leaves_text name P m -> (forall a, keeps_file name (k a)) ->
  leaves_text name P (bind m k).
Proof.
  intros Hm Hk w b w' E. apply bind_inv in E. destruct E as (a & w1 & E1 & E2).
  destruct (Hm w a w1 E1) as (text & Ht & HP). exists text. split; [|exact HP].
  pose proof (Hk a w1) as Hkeep. rewrite E2 in Hkeep. cbn [snd] in Hkeep.
  rewrite Hkeep. exact Ht.
Qed.

Lemma leaves_text_bind_r {A B} (name : string) (P : string -> Prop)
    (m : M R A) (k : A -> M R B) :
  (forall a, leaves_text name P (k a)) -> leaves_text name P (bind m k).
Proof.
  intros Hk w b w' E. apply bind_inv in E. destruct E as (a & w1 & _ & E2).
  exact (Hk a w1 b w' E2).
Qed.

Lemma leaves_text_block (self : HunYuanDiTBlock)
    (x c text_states : tensor R) (freq_cis_img : rope) (skip : option (tensor R)) :
  leaves_text "x.txt" norm1_dump
    (HunYuanDiTBlock_forward self x c text_states freq_cis_img skip).
Proof.
  unfold HunYuanDiTBlock_forward.
  do 8 (apply leaves_text_bind_r; intros ?).
  apply leaves_text_bind_l.
  - apply leaves_text_write_text. eexists _, _. reflexivity.
  - intros _. repeat (apply keeps_file_bind; [apply keeps_file_lift|intros ?]).
    apply keeps_file_ret.
Qed.

Lemma leaves_text_run_blocks (self : HunYuan) (bs : list HunYuanDiTBlock) :
  bs <> [] ->
  forall (layer : nat) (x c text_states : tensor R) (freqs_cis_img : rope)
         (skips : list (tensor R)),
    leaves_text "x.txt" norm1_dump
      (run_blocks self layer bs x c text_states freqs_cis_img skips).
Proof.
  induction bs as [|block bs IH]; [congruence|]. intros _ layer x c ts f skips.
  cbn [run_blocks]. destruct bs as [|block' bs'].
  - apply leaves_text_bind_l; [|intros xs; cbn [run_blocks]; apply keeps_file_ret].
    destruct (consumes_skip (depth self) layer).
    + destruct skips as [|skip skips'].
      * intros w a w' E. discriminate E.
      * apply leaves_text_bind_l; [apply leaves_text_block|].
        intros ?; apply keeps_file_ret.
    + apply leaves_text_bind_l; [apply leaves_text_block|].
      intros ?; apply keeps_file_ret.
  - apply leaves_text_bind_r. intros xs. apply IH. discriminate.
Qed.

Lemma leaves_text_forward_raw (self : HunYuan) (x t : tensor R) (y : tensor Z)
    (kw : raw_kwargs) :
  blocks self <> [] ->
  leaves_text "x.txt" norm1_dump (forward_raw self x t y kw).
Proof.
  intros Hb. unfold forward_raw.
  destruct (shape x) as [|ob [|c0 [|oh [|ow [|? ?]]]]];
    try (intros w a w' E; discriminate E).
  apply leaves_text_bind_r. intros [[[ehs ehs_t5] mask] mask_t5].
  do 3 (apply leaves_text_bind_r; intros ?).
  apply leaves_text_bind_r. intros [t' x'].
  do 6 (apply leaves_text_bind_r; intros ?).
  apply leaves_text_bind_l; [apply leaves_text_run_blocks, Hb|].
  intros xs.
  do 2 (apply keeps_file_bind; [apply keeps_file_lift|intros ?]).
  destruct (return_dict kw); apply keeps_file_ret.
Qed.

(** X8.  [forward] and the blocks write their dumps to the same file
    [x.txt].  So after a call of [forward] that returns, on a model with
    at least one block, [x.txt] holds what the last block wrote (a text
    that starts with "self.norm1(x)") and not the text "x" with the shape
    of the input that [forward] itself wrote at its start: that dump is
    always overwritten. *)
Theorem forward_x_txt_overwritten (self : HunYuan)
    (x timesteps context : tensor R) (y : option (tensor R)) (kwargs : pyobj)
    (w w' : world R) (res : tensor R) :
  forward self x timesteps context y kwargs w = (Ok res, w') ->
  blocks self <> [] ->
  (exists n n' : tensor R,
      files w' !! path_of "x.txt"
      = Some (TextFile ("self.norm1(x)" +:+ shape_repr (shape n) +:+ tensor_repr n'))) /\
  files w' !! path_of "x.txt" <> Some (TextFile ("x" +:+ shape_repr (shape x))).
Proof.
  intros E Hb.
  assert (Hl : leaves_text "x.txt" norm1_dump (forward self x timesteps context y kwargs)).
  { unfold forward. do 2 (apply leaves_text_bind_r; intros ?).
    apply leaves_text_bind_l; [apply leaves_text_forward_raw, Hb|].
    intros [out|d]; [|apply keeps_file_raise]. cbv zeta.
    do 2 (apply keeps_file_bind; [apply keeps_file_lift|intros ?]).
    destruct (shape x); [apply keeps_file_raise|apply keeps_file_lift]. }
  destruct (Hl w res w' E) as (text & Ht & n & n' & ->).
  split; [exists n, n'; exact Ht|].
  rewrite Ht. intros Heq. injection Heq as Heq. discriminate Heq.
Qed.

End XTxt.

(** A whole forward pass on the small instance. *)
Lemma toy_forward_run :
  forward (Toy.net 2) Toy.image Toy.timestep
    (Tensor [1; 3; 2] [1; 2; 3; 4; 5; 6]%Z) None tt Toy.world1
  = (Ok (Tensor [1; 1; 2; 2] [129; 257; 385; 513]%Z),
     (forward (Toy.net 2) Toy.image Toy.timestep
        (Tensor [1; 3; 2] [1; 2; 3; 4; 5; 6]%Z) None tt Toy.world1).2).
Proof.
  assert (E1 : (forward (Toy.net 2) Toy.image Toy.timestep
                  (Tensor [1; 3; 2] [1; 2; 3; 4; 5; 6]%Z) None tt Toy.world1).1
               = Ok (Tensor [1; 1; 2; 2] [129; 257; 385; 513]%Z))
    by (vm_compute; reflexivity).
  rewrite <- E1. apply surjective_pairing.
Qed.

Lemma forward_x_txt_overwritten_witness :
  exists n n' : tensor Z,
    files (forward (Toy.net 2) Toy.image Toy.timestep
             (Tensor [1; 3; 2] [1; 2; 3; 4; 5; 6]%Z) None tt Toy.world1).2
      !! path_of "x.txt"
    = Some (TextFile ("self.norm1(x)" +:+ shape_repr (shape n) +:+ tensor_repr n')).
Proof.
  assert (Hb : blocks (Toy.net 2) <> []) by discriminate.
  exact (proj1 (forward_x_txt_overwritten (Toy.net 2) Toy.image Toy.timestep
                  (Tensor [1; 3; 2] [1; 2; 3; 4; 5; 6]%Z) None tt Toy.world1
                  _ _ toy_forward_run Hb)).
Defined.

(** ** Failures of [forward] and [forward_raw] *)

Section ForwardFailures.
Context {R : Type} `{Scalar R} `{Externals R}.

Lemma load_embeds_world (name : string) (reps : list nat) (w : world R) :
  load_embeds name reps w = ((load_embeds name reps w).1, w).
Proof.
  unfold load_embeds, bind, torch_load, lift.
  destruct (files w !! path_of name) as [[?|?]|]; reflexivity.
Qed.

Lemma bind_load_embeds {B} (name : string) (reps : list nat)
    (k : tensor R -> M R B) (w : world R) :
  bind (load_embeds name reps) k w
  = match (load_embeds name reps w).1 with
    | Ok a => k a w
    | Raise e => (Raise e, w)
    end.
Proof.
  unfold bind at 1. rewrite load_embeds_world.
  destruct (load_embeds name reps w).1; reflexivity.
Qed.

Lemma load_embeds_missing (name : string) (reps : list nat) (w : world R) :
  files w !! path_of name = None ->
  (load_embeds name reps w).1 = Raise (FileNotFoundError (path_of name)).
Proof. intros E. unfold load_embeds, bind, torch_load. rewrite E. reflexivity. Qed.

Lemma load_text_conditioning_world (batch_size : nat) (w : world R) :
  load_text_conditioning batch_size w = ((load_text_conditioning batch_size w).1, w).
Proof.
  unfold load_text_conditioning.
  repeat (rewrite bind_load_embeds; destruct (load_embeds _ _ w).1; [|reflexivity]).
  repeat (rewrite bind_lift;
          match goal with |- context [match ?r with _ => _ end] => destruct r end;
          [|reflexivity]).
  reflexivity.
Qed.

Lemma load_text_conditioning_missing (name : string) (batch_size : nat) (w : world R) :
  In name embedding_names -> files w !! path_of name = None ->
  exists e, (load_text_conditioning batch_size w).1 = Raise e.
Proof.
  intros Hin Hnone. unfold load_text_conditioning. cbn in Hin.
  repeat (destruct Hin as [Hin|Hin];
          [subst name;
           repeat (rewrite bind_load_embeds;
                   first [ rewrite (load_embeds_missing _ _ _ Hnone);
                           eexists; reflexivity
                         | destruct (load_embeds _ _ w).1; [|eexists; reflexivity] ])|]).
  destruct Hin.
Qed.

(** X9.  [forward_raw] needs each of its eight embedding files: when one
    of them is absent from the output directory the call raises, whatever
    its arguments, and it leaves the world as it found it (nothing was
    written).  When the first file, [clip_prompt_embeds.pt], is the absent
    one and [x] has four axes, the exception is [FileNotFoundError] for
    that path.  A call of [forward] raises as well. *)
Theorem forward_raw_needs_every_embedding_file (self : HunYuan) (name : string)
    (w : world R) :
  In name embedding_names -> files w !! path_of name = None ->
  (forall (x t : tensor R) (y : tensor Z) (kw : raw_kwargs),
      exists e, forward_raw self x t y kw w = (Raise e, w)) /\
  (forall (x t : tensor R) (y : tensor Z) (kw : raw_kwargs),
      name = "clip_prompt_embeds.pt" -> length (shape x) = 4 ->
      forward_raw self x t y kw w
      = (Raise (FileNotFoundError (path_of "clip_prompt_embeds.pt")), w)) /\
  (forall (x timesteps context : tensor R) (y : option (tensor R)) (kwargs : pyobj),
      exists e w', forward self x timesteps context y kwargs w = (Raise e, w')).
Proof.
  intros Hin Hnone. split; [|split].
  - intros x t y kw. unfold forward_raw.
    destruct (shape x) as [|ob [|c0 [|oh [|ow [|? ?]]]]];
      try (eexists; reflexivity).
    destruct (load_text_conditioning_missing name ob w Hin Hnone) as (e & He).
    exists e. unfold bind at 1. rewrite load_text_conditioning_world, He. reflexivity.
  - intros x t y kw -> Hx. unfold forward_raw.
    destruct (shape x) as [|ob [|c0 [|oh [|ow [|? ?]]]]]; try discriminate Hx.
    unfold bind at 1. rewrite load_text_conditioning_world.
    unfold load_text_conditioning. rewrite bind_load_embeds.
    rewrite (load_embeds_missing _ _ _ Hnone). reflexivity.
  - intros x timesteps context y kwargs. unfold forward.
    rewrite bind_forward_dumps, bind_lift.
    destruct (select_col0 context) as [ctx|e]; [|eexists _, _; reflexivity].
    pose proof (reads_only_forward_dumps x context y kwargs) as [Hd _].
    assert (Hnone' : files (forward_dumps x context y kwargs w).2 !! path_of name = None)
      by (rewrite <- (Hd w name Hin); exact Hnone).
    set (w1 := (forward_dumps x context y kwargs w).2) in *. clearbody w1.
    unfold bind at 1. unfold forward_raw.
    destruct (shape (tmap half x)) as [|ob [|c0 [|oh [|ow [|? ?]]]]];
      try (eexists _, _; reflexivity).
    destruct (load_text_conditioning_missing name ob w1 Hin Hnone') as (e & He).
    unfold bind at 1. rewrite load_text_conditioning_world, He.
    eexists _, _; reflexivity.
Qed.

(** X10.  [forward_raw] unpacks [x.shape] into four names before
    anything else: when [x] does not have exactly four axes it raises
    [ValueError] at once, without reading or writing a file. *)
Theorem forward_raw_wrong_rank (self : HunYuan) (x t : tensor R) (y : tensor Z)
    (kw : raw_kwargs) (w : world R) :
  length (shape x) <> 4 ->
  exists msg, forward_raw self x t y kw w = (Raise (ValueError msg), w).
Proof.
  intros Hx. unfold forward_raw.
  destruct (shape x) as [|ob [|c0 [|oh [|ow [|? ?]]]]];
    try (eexists; reflexivity).
  exfalso. apply Hx. reflexivity.
Qed.

(** X11.  [forward] takes [context[:, 0]] right after its four dumps:
    when [context] has fewer than two axes, or no column, it raises
    [IndexError] there, before [forward_raw] is entered and before any
    embedding file is read; the four dumps are on disk by then. *)
Theorem forward_context_without_column (self : HunYuan)
    (x timesteps context : tensor R) (y : option (tensor R)) (kwargs : pyobj)
    (w : world R) :
  length (shape context) < 2 \/ shape context !! 1 = Some 0 ->
  forward self x timesteps context y kwargs w
  = (Raise IndexError, (forward_dumps x context y kwargs w).2).
Proof.
  intros Hc. unfold forward. rewrite bind_forward_dumps, bind_lift.
  unfold select_col0.
  destruct (shape context) as [|n [|m s]].
  - reflexivity.
  - reflexivity.
  - destruct Hc as [Hc|Hc]; [cbn [length] in Hc; lia|].
    cbn in Hc. injection Hc as ->. reflexivity.
Qed.

End ForwardFailures.

Lemma forward_raw_needs_every_embedding_file_witness :
  forward_raw (Toy.net 2) Toy.image Toy.timestep (Tensor [1] [1]%Z) raw_defaults
    Toy.world0
  = (Raise (FileNotFoundError "output/clip_prompt_embeds.pt"), Toy.world0).
Proof.
  assert (Hin : In "clip_prompt_embeds.pt" embedding_names) by (cbn; tauto).
  assert (Hnone : files Toy.world0 !! path_of "clip_prompt_embeds.pt" = None)
    by reflexivity.
  destruct (forward_raw_needs_every_embedding_file (Toy.net 2) "clip_prompt_embeds.pt"
              Toy.world0 Hin Hnone) as (_ & Hfirst & _).
  exact (Hfirst Toy.image Toy.timestep (Tensor [1] [1]%Z) raw_defaults eq_refl eq_refl).
Defined.

Lemma forward_raw_wrong_rank_witness :
  exists msg,
    forward_raw (Toy.net 2) (Tensor [2; 2] [1; 2; 3; 4]%Z) Toy.timestep
      (Tensor [1] [1]%Z) raw_defaults Toy.world1
    = (Raise (ValueError msg), Toy.world1).
Proof.
  apply (forward_raw_wrong_rank (Toy.net 2) (Tensor [2; 2] [1; 2; 3; 4]%Z)).
  cbn [shape length]. lia.
Defined.

Lemma forward_context_without_column_witness :
  (forward (Toy.net 2) Toy.image Toy.timestep (Tensor [2] [1; 2]%Z) None tt
     Toy.world1).1 = Raise IndexError.
Proof.
  rewrite (forward_context_without_column (Toy.net 2) Toy.image Toy.timestep
             (Tensor [2] [1; 2]%Z) None tt Toy.world1).
  - reflexivity.
  - left. cbn [shape length]. lia.
Defined.

(** ** Resolutions and the keys of the rotary table *)

(** X12.  [Resolution.__str__] is injective: the text "HxW" determines
    the height and the width, so two different resolutions never share a
    key of the rotary table. *)
Theorem Resolution_str_injective (r1 r2 : Resolution) :
  Resolution_str r1 = Resolution_str r2 <-> r1 = r2.
Proof.
  split; [|intros ->; reflexivity].
  unfold Resolution_str. intros E. apply rope_key_inj in E.
  destruct r1 as [w1 h1], r2 as [w2 h2]. cbn [height width] in E.
  destruct E as [-> ->]. reflexivity.
Qed.

Lemma is_valid_elem (w h : nat) :
  ResolutionGroup.is_valid ResolutionGroup.init w h = true <->
  In {| width := w; height := h |} (ResolutionGroup.data ResolutionGroup.init).
Proof.
  unfold ResolutionGroup.is_valid. split.
  - intros Hin. apply bool_decide_eq_true_1 in Hin.
    apply elem_of_list_to_set in Hin. apply list_elem_of_In in Hin.
    apply in_map_iff in Hin. destruct Hin as ([w0 h0] & E & Hin).
    cbn [width height] in E. injection E as -> ->. exact Hin.
  - intros Hin. apply bool_decide_eq_true_2.
    apply elem_of_list_to_set. apply list_elem_of_In.
    apply in_map_iff. eexists. split; [|exact Hin]. reflexivity.
Qed.

(** X13.  The set of supported sizes is closed under exchanging width and
    height: [is_valid(w, h)] and [is_valid(h, w)] always agree.  Every
    supported side is a multiple of 32 between 768 and 1280. *)
Theorem ResolutionGroup_is_valid_symmetric (width height : nat) :
  ResolutionGroup.is_valid ResolutionGroup.init width height
  = ResolutionGroup.is_valid ResolutionGroup.init height width /\
  (ResolutionGroup.is_valid ResolutionGroup.init width height = true ->
   768 <= width <= 1280 /\ 768 <= height <= 1280 /\
   width mod 32 = 0 /\ height mod 32 = 0).
Proof.
  assert (Hsym : forall a b,
             ResolutionGroup.is_valid ResolutionGroup.init a b = true ->
             ResolutionGroup.is_valid ResolutionGroup.init b a = true).
  { intros a b Hv. apply is_valid_elem in Hv.
    cbn [ResolutionGroup.init ResolutionGroup.data In] in Hv.
    repeat (destruct Hv as [Hv|Hv]; [injection Hv as <- <-; vm_compute; reflexivity|]).
    destruct Hv. }
  split.
  - apply eq_true_iff_eq. split; apply Hsym.
  - intros Hv. apply is_valid_elem in Hv.
    cbn [ResolutionGroup.init ResolutionGroup.data In] in Hv.
    repeat (destruct Hv as [Hv|Hv];
            [injection Hv as <- <-; repeat split; first [lia | vm_compute; reflexivity]|]).
    destruct Hv.
Qed.

Section TableKeys.
Context {R : Type} `{Scalar R} `{Externals R}.

Lemma fill_shapes_keys (self : HunYuan) (data : list Resolution) :
  forall t t' : gmap string rope,
    fill_shapes self data t = Ok t' ->
    forall key, is_Some (t' !! key) ->
                is_Some (t !! key) \/ exists reso, In reso data /\ key = Resolution_str reso.
Proof.
  induction data as [|reso data IH]; intros t t' E key Hk; cbn [fill_shapes] in E.
  - injection E as <-. left. exact Hk.
  - destruct (calc_rope self (height reso) (width reso)) as [r|e];
      cbn [rbind] in E; [|discriminate].
    destruct (IH _ _ E key Hk) as [Hk'|(reso' & Hin & ->)].
    + destruct (decide (Resolution_str reso = key)) as [<-|Hne].
      * right. exists reso. split; [left; reflexivity|reflexivity].
      * left. rewrite lookup_insert_ne in Hk' by exact Hne. exact Hk'.
    + right. exists reso'. split; [right; exact Hin|reflexivity].
Qed.

Lemma fill_shapes_Raise (self : HunYuan) (data : list Resolution) :
  forall (t : gmap string rope) (e : exn),
    fill_shapes self data t = Raise e ->
    exists reso, In reso data /\ calc_rope self (height reso) (width reso) = Raise e.
Proof.
  induction data as [|reso data IH]; intros t e E; cbn [fill_shapes] in E.
  - discriminate E.
  - destruct (calc_rope self (height reso) (width reso)) as [r|e'] eqn:Ec;
      cbn [rbind] in E.
    + destruct (IH _ _ E) as (reso' & Hin & Hr).
      exists reso'. split; [right; exact Hin|exact Hr].
    + injection E as ->. exists reso. split; [left; reflexivity|exact Ec].
Qed.

(** X14.  When [standard_shapes] returns, the keys of its table are
    exactly the texts "HxW" of the (width, height) pairs that [is_valid]
    accepts.  For such a pair, the latent of a [W x H] image has
    [oh = H // 8] rows and [ow = W // 8] columns, the target size that
    [forward_raw] computes from it is [H] and [W] again, and so the key it
    looks up is in the table: every supported resolution is served from
    the table.  [standard_shapes] raises only an exception that
    [calc_rope] raises on one of the eleven resolutions. *)
Theorem standard_shapes_serves_supported_sizes (self : HunYuan) :
  match standard_shapes self with
  | Ok (resolutions, freqs_cis_img) =>
      (forall key : string,
          is_Some (freqs_cis_img !! key) <->
          exists width height,
            ResolutionGroup.is_valid resolutions width height = true /\
            key = pretty height +:+ "x" +:+ pretty width) /\
      (forall width height : nat,
          ResolutionGroup.is_valid resolutions width height = true ->
          let oh := height / 8 in
          let ow := width / 8 in
          let target_height := oh * 8 / 16 * 16 in
          let target_width := ow * 8 / 16 * 16 in
          target_height = height /\ target_width = width /\
          exists r,
            freqs_cis_img !! (pretty target_height +:+ "x" +:+ pretty target_width)
            = Some r /\
            select_rope self target_height target_width = Ok r)
  | Raise e =>
      exists reso,
        In reso (ResolutionGroup.data ResolutionGroup.init) /\
        calc_rope self (height reso) (width reso) = Raise e
  end.
Proof.
  destruct (standard_shapes self) as [[resolutions freqs_cis_img]|e] eqn:Es.
  2:{ unfold standard_shapes in Es.
      destruct (fill_shapes self (ResolutionGroup.data ResolutionGroup.init) ∅)
        as [t'|e'] eqn:Ef; cbn [rbind] in Es; [discriminate Es|].
      injection Es as ->. exact (fill_shapes_Raise self _ _ _ Ef). }
  assert (Hsel : forall h w, select_rope self h w
                             = match freqs_cis_img !! (pretty h +:+ "x" +:+ pretty w) with
                               | Some r => Ok r
                               | None => calc_rope self h w
                               end).
  { intros h w. unfold select_rope. rewrite Es. reflexivity. }
  unfold standard_shapes in Es.
  destruct (fill_shapes self (ResolutionGroup.data ResolutionGroup.init) ∅)
    as [t'|e] eqn:Ef; cbn [rbind] in Es; [|discriminate].
  injection Es as <- <-.
  assert (H0' : table_sound self (∅ : gmap string rope)).
  { intros h w r Hl. rewrite lookup_empty in Hl. discriminate. }
  destruct (fill_shapes_sound self _ _ _ H0' Ef) as (_ & Hin & _).
  assert (Hkeys : forall width height,
             ResolutionGroup.is_valid ResolutionGroup.init width height = true ->
             is_Some (t' !! (pretty height +:+ "x" +:+ pretty width))).
  { intros width height Hv. apply is_valid_elem in Hv. exact (Hin _ Hv). }
  split.
  - intros key. split.
    + intros Hk. destruct (fill_shapes_keys self _ _ _ Ef key Hk) as [H0k|(reso & Hr & ->)].
      * rewrite lookup_empty in H0k. destruct H0k as [? H0k]. discriminate H0k.
      * exists (width reso), (height reso). split; [|reflexivity].
        apply is_valid_elem. destruct reso. exact Hr.
    + intros (width & height & Hv & ->). apply Hkeys, Hv.
  - intros width height Hv. cbv zeta.
    assert (Ht : height / 8 * 8 / 16 * 16 = height /\ width / 8 * 8 / 16 * 16 = width).
    { pose proof Hv as Hv'. apply is_valid_elem in Hv'.
      cbn [ResolutionGroup.init ResolutionGroup.data In] in Hv'.
      repeat (destruct Hv' as [Hv'|Hv'];
              [injection Hv' as <- <-; vm_compute; split; reflexivity|]).
      destruct Hv'. }
    destruct Ht as [-> ->]. split; [reflexivity|]. split; [reflexivity|].
    destruct (Hkeys width height Hv) as [r Hr]. exists r. split; [exact Hr|].
    rewrite Hsel, Hr. reflexivity.
Qed.

End TableKeys.

(** ** unpatchify loses nothing *)

Lemma split_index (a b i : nat) :
  i < a * b -> exists q r, q < a /\ r < b /\ i = q * b + r.
Proof.
  intros Hi. assert (Hb : b <> 0) by (intros ->; lia).
  exists (i / b), (i mod b). split; [|split].
  - apply Nat.Div0.div_lt_upper_bound. lia.
  - apply Nat.mod_upper_bound, Hb.
  - rewrite (Nat.div_mod_eq i b) at 1. lia.
Qed.

Lemma Ok_inj {A} (a b : A) : Ok a = Ok b -> a = b.
Proof. intros E. injection E as E. exact E. Qed.

Section UnpatchifyLossless.
Context {R : Type} `{Scalar R} `{Externals R}.

Lemma unpatchify_entries (self : HunYuan) (x imgs : tensor R) (N h w : nat) :
  let p := (pe_patch_size (x_embedder self)).1 in
  let c := unpatchify_channels self in
  shape x = [N; h * w; p * p * c] ->
  wf_tensor x ->
  unpatchify self x h w = Ok imgs ->
  forall n cc hh pp ww qq,
    n < N -> cc < c -> hh < h -> pp < p -> ww < w -> qq < p ->
    tget imgs [n; cc; hh * p + pp; ww * p + qq]
    = tget x [n; hh * w + ww; (pp * p + qq) * c + cc].
Proof.
  intros p c Hshape Hwf. unfold unpatchify. fold p c. rewrite Hshape.
  rewrite Nat.eqb_refl.
  assert (Hlen : length (data x) = N * (h * w * (p * p * c))).
  { unfold wf_tensor in Hwf. rewrite Hwf, Hshape. cbn [numel fold_right]. ring. }
  rewrite reshape_Ok by (cbn [numel fold_right]; rewrite Hlen; ring).
  cbn [rbind einsum_nhwpqc_nchpwq shape].
  set (f := fun idx : list nat =>
              match idx with
              | [i_n; i_c; i_h; i_p; i_w; i_q] =>
                  tget (Tensor [N; h; w; p; p; c] (data x)) [i_n; i_h; i_w; i_p; i_q; i_c]
              | _ => inhabitant
              end).
  rewrite (shape_tabulate _ f). cbv beta iota.
  rewrite reshape_Ok.
  2:{ pose proof (wf_tabulate [N; c; h; p; w; p] f) as Hw.
      unfold wf_tensor in Hw. rewrite Hw. cbn [shape tabulate numel fold_right]. ring. }
  intros E. apply Ok_inj in E. subst imgs.
  intros n cc hh pp ww qq Hn Hcc Hhh Hpp Hww Hqq.
  unfold tget at 1. cbn [shape data].
  replace (ravel [N; c; h * p; w * p] [n; cc; hh * p + pp; ww * p + qq])
    with (ravel [N; c; h; p; w; p] [n; cc; hh; pp; ww; qq])
    by (cbn [ravel numel fold_right]; ring).
  change (data (tabulate [N; c; h; p; w; p] f)
            !!! ravel [N; c; h; p; w; p] [n; cc; hh; pp; ww; qq])
    with (tget (tabulate [N; c; h; p; w; p] f) [n; cc; hh; pp; ww; qq]).
  rewrite tget_tabulate by (repeat (constructor; try assumption)).
  unfold f, tget. cbn [shape data]. rewrite Hshape. f_equal.
  cbn [ravel numel fold_right]. ring.
Qed.

(** X15.  [unpatchify] loses nothing: two token tensors of the same shape
    [(N, T, p * p * c)] that it maps to the same image batch are equal.
    Every entry of the tokens is an entry of the images. *)
Theorem unpatchify_injective (self : HunYuan) (x x' imgs : tensor R) (N T h w : nat) :
  let p := (pe_patch_size (x_embedder self)).1 in
  let c := unpatchify_channels self in
  shape x = [N; T; p * p * c] -> wf_tensor x ->
  shape x' = [N; T; p * p * c] -> wf_tensor x' ->
  unpatchify self x h w = Ok imgs ->
  unpatchify self x' h w = Ok imgs ->
  x = x'.
Proof.
  intros p c Hs Hw Hs' Hw' E E'.
  assert (HT : h * w = T).
  { revert E. unfold unpatchify. rewrite Hs.
    destruct (h * w =? T) eqn:Et; [|discriminate].
    intros _. apply Nat.eqb_eq, Et. }
  subst T.
  pose proof (unpatchify_entries self x imgs N h w Hs Hw E) as He.
  pose proof (unpatchify_entries self x' imgs N h w Hs' Hw' E') as He'.
  cbv zeta in He, He'. fold p c in He, He'.
  apply tensor_ext; [congruence|exact Hw|exact Hw'|].
  rewrite Hs. intros idx Hb.
  inversion Hb as [|n d0 idx1 s1 Hn Hb1]; subst.
  inversion Hb1 as [|t d1 idx2 s2 Ht Hb2]; subst.
  inversion Hb2 as [|k d2 idx3 s3 Hk Hb3]; subst.
  inversion Hb3; subst.
  destruct (split_index h w t Ht) as (hh & ww & Hhh & Hww & ->).
  destruct (split_index (p * p) c k Hk) as (pq & cc & Hpq & Hcc & ->).
  destruct (split_index p p pq Hpq) as (pp & qq & Hpp & Hqq & ->).
  rewrite <- (He n cc hh pp ww qq), <- (He' n cc hh pp ww qq) by assumption.
  reflexivity.
Qed.

End UnpatchifyLossless.

Lemma unpatchify_injective_witness :
  unpatchify (Toy.model 2) (Tensor [1; 2; 2] [1; 2; 3; 4]%Z) 1 2
  = Ok (Tensor [1; 2; 1; 2] [1; 3; 2; 4]%Z) /\
  Tensor [1; 2; 2] [1; 2; 3; 4]%Z = Tensor [1; 2; 2] (map Z.succ [0; 1; 2; 3]%Z).
Proof.
  split; [reflexivity|].
  exact (unpatchify_injective (Toy.model 2)
           (Tensor [1; 2; 2] [1; 2; 3; 4]%Z) (Tensor [1; 2; 2] (map Z.succ [0; 1; 2; 3]%Z))
           (Tensor [1; 2; 1; 2] [1; 3; 2; 4]%Z) 1 2 1 2
           eq_refl eq_refl eq_refl eq_refl eq_refl eq_refl).
Defined.

(** ** The layout of the loaded text conditioning *)

Lemma zip_mul_ones (s : list nat) : zip_with Nat.mul (replicate (length s) 1) s = s.
Proof.
  induction s as [|d s IH]; cbn [length replicate zip_with]; [reflexivity|].
  rewrite IH, Nat.mul_1_l. reflexivity.
Qed.

Section GuidanceLayout.
Context {R : Type} `{Scalar R} `{Externals R}.

Lemma tensor_eta_shape (t : tensor R) (s : list nat) :
  shape t = s -> Tensor s (data t) = t.
Proof. intros <-. destruct t. reflexivity. Qed.

(** [t.half().repeat(B, 1, ..., 1)] on one sample. *)
Lemma repeat_sample (B : nat) (s : list nat) (t : tensor R) :
  shape t = 1 :: s -> wf_tensor t ->
  exists out,
    repeat_ (B :: replicate (length s) 1) (tmap half t) = Ok out /\
    shape out = B :: s /\ wf_tensor out /\
    forall i idx, i < B -> in_bounds s idx ->
                  tget out (i :: idx) = half (tget t (0 :: idx)).
Proof.
  intros Hs Hw. unfold repeat_. cbn [tmap shape data]. rewrite Hs.
  cbn [length]. rewrite length_replicate.
  assert (El : (S (length s) <? S (length s)) = false) by (apply Nat.ltb_irrefl).
  rewrite El, Nat.sub_diag. cbn [replicate app zip_with].
  rewrite zip_mul_ones, Nat.mul_1_r.
  eexists. split; [reflexivity|]. split; [reflexivity|]. split; [apply wf_tabulate|].
  intros i idx Hi Hb.
  rewrite tget_tabulate by (constructor; assumption).
  cbn [zip_with]. rewrite (mod_same_in_bounds s idx Hb), Nat.mod_1_r.
  change (map half (data t)) with (data (tmap half t)).
  rewrite (tensor_eta_shape (tmap half t) (1 :: s)) by exact Hs.
  apply tget_tmap. unfold wf_tensor in Hw. rewrite Hw, Hs.
  apply ravel_lt. constructor; [lia|exact Hb].
Qed.

(** [torch.cat((a, b))] of two batches of [B] samples. *)
Lemma cat_batches (B : nat) (s : list nat) (a b : tensor R) :
  shape a = B :: s -> shape b = B :: s ->
  exists out,
    cat 0 a b = Ok out /\ shape out = (B + B) :: s /\ wf_tensor out /\
    forall i idx, i < B + B -> in_bounds s idx ->
                  tget out (i :: idx)
                  = if i <? B then tget a (i :: idx) else tget b ((i - B) :: idx).
Proof.
  intros Ha Hb. unfold cat. rewrite Ha, Hb. cbn [lookup list_lookup insert list_insert].
  rewrite bool_decide_eq_true_2 by reflexivity.
  eexists. split; [reflexivity|]. split; [reflexivity|]. split; [apply wf_tabulate|].
  intros i idx Hi Hidx.
  rewrite tget_tabulate by (constructor; assumption).
  cbn [lookup list_lookup insert list_insert]. reflexivity.
Qed.

Lemma load_embeds_sample (w : world R) (name : string) (t : tensor R) (s : list nat)
    (B : nat) :
  embedding_file w name t s ->
  exists out,
    (load_embeds name (B :: replicate (length s) 1) w).1 = Ok out /\
    shape out = B :: s /\ wf_tensor out /\
    forall i idx, i < B -> in_bounds s idx ->
                  tget out (i :: idx) = half (tget t (0 :: idx)).
Proof.
  intros (Hf & Hs & Hw).
  destruct (repeat_sample B s t Hs Hw) as (out & E & Hrest).
  exists out. split; [|exact Hrest].
  unfold load_embeds, bind, torch_load. rewrite Hf. unfold lift. cbn [fst]. exact E.
Qed.

Lemma guidance_pair_cat (B : nat) (s : list nat) (pos neg a b : tensor R) :
  shape a = B :: s -> shape b = B :: s ->
  (forall i idx, i < B -> in_bounds s idx -> tget a (i :: idx) = half (tget pos (0 :: idx))) ->
  (forall i idx, i < B -> in_bounds s idx -> tget b (i :: idx) = half (tget neg (0 :: idx))) ->
  exists out, cat 0 a b = Ok out /\ guidance_pair B s pos neg out.
Proof.
  intros Ha Hb Hga Hgb.
  destruct (cat_batches B s a b Ha Hb) as (out & E & Hs & Hw & Hg).
  exists out. split; [exact E|]. split; [exact Hs|]. split; [exact Hw|].
  intros i idx Hi Hidx. rewrite (Hg i idx Hi Hidx).
  destruct (i <? B) eqn:Ei.
  - apply Nat.ltb_lt in Ei. apply Hga; assumption.
  - apply Nat.ltb_ge in Ei. apply Hgb; [lia|assumption].
Qed.

(** X16.  When the eight embedding files hold one sample each (prompt and
    negative prompt of the same shape), [forward_raw]'s loading stage
    returns without changing the world, and each tensor it builds is a
    batch of [2 * batch_size] samples laid out for classifier-free
    guidance: the first [batch_size] rows are the float16 cast of the
    prompt sample, the last [batch_size] rows that of the negative
    prompt.  This holds for both encoders and for both masks. *)
Theorem load_text_conditioning_layout (batch_size L D L5 D5 : nat)
    (cp cm cnp cnm mp mm mnp mnm : tensor R) (w : world R) :
  embedding_file w "clip_prompt_embeds.pt" cp [L; D] ->
  embedding_file w "clip_attention_mask.pt" cm [L] ->
  embedding_file w "clip_negative_prompt_embeds.pt" cnp [L; D] ->
  embedding_file w "clip_negative_attention_mask.pt" cnm [L] ->
  embedding_file w "mt5_prompt_embeds.pt" mp [L5; D5] ->
  embedding_file w "mt5_attention_mask.pt" mm [L5] ->
  embedding_file w "mt5_negative_prompt_embeds.pt" mnp [L5; D5] ->
  embedding_file w "mt5_negative_attention_mask.pt" mnm [L5] ->
  exists ehs ehs_t5 mask mask_t5,
    load_text_conditioning batch_size w = (Ok (ehs, ehs_t5, mask, mask_t5), w) /\
    guidance_pair batch_size [L; D] cp cnp ehs /\
    guidance_pair batch_size [L5; D5] mp mnp ehs_t5 /\
    guidance_pair batch_size [L] cm cnm mask /\
    guidance_pair batch_size [L5] mm mnm mask_t5.
Proof.
  intros F1 F2 F3 F4 F5 F6 F7 F8.
  destruct (load_embeds_sample w _ cp [L; D] batch_size F1) as (a1 & E1 & S1 & _ & G1).
  destruct (load_embeds_sample w _ cm [L] batch_size F2) as (a2 & E2 & S2 & _ & G2).
  destruct (load_embeds_sample w _ cnp [L; D] batch_size F3) as (a3 & E3 & S3 & _ & G3).
  destruct (load_embeds_sample w _ cnm [L] batch_size F4) as (a4 & E4 & S4 & _ & G4).
  destruct (load_embeds_sample w _ mp [L5; D5] batch_size F5) as (a5 & E5 & S5 & _ & G5).
  destruct (load_embeds_sample w _ mm [L5] batch_size F6) as (a6 & E6 & S6 & _ & G6).
  destruct (load_embeds_sample w _ mnp [L5; D5] batch_size F7) as (a7 & E7 & S7 & _ & G7).
  destruct (load_embeds_sample w _ mnm [L5] batch_size F8) as (a8 & E8 & S8 & _ & G8).
  cbn [length replicate] in E1, E2, E3, E4, E5, E6, E7, E8.
  destruct (guidance_pair_cat batch_size _ cp cnp a1 a3 S1 S3 G1 G3) as (ehs & C1 & P1).
  destruct (guidance_pair_cat batch_size _ mp mnp a5 a7 S5 S7 G5 G7) as (ehs_t5 & C2 & P2).
  destruct (guidance_pair_cat batch_size _ cm cnm a2 a4 S2 S4 G2 G4) as (mask & C3 & P3).
  destruct (guidance_pair_cat batch_size _ mm mnm a6 a8 S6 S8 G6 G8) as (mask_t5 & C4 & P4).
  exists ehs, ehs_t5, mask, mask_t5.
  split; [|repeat split; assumption || apply P1 || apply P2 || apply P3 || apply P4].
  unfold load_text_conditioning.
  rewrite bind_load_embeds, E1, bind_load_embeds, E2, bind_load_embeds, E3,
    bind_load_embeds, E4, bind_load_embeds, E5, bind_load_embeds, E6,
    bind_load_embeds, E7, bind_load_embeds, E8.
  rewrite bind_lift, C1, bind_lift, C2, bind_lift, C3, bind_lift, C4. reflexivity.
Qed.

End GuidanceLayout.

Lemma load_text_conditioning_layout_witness :
  exists ehs ehs_t5 mask mask_t5,
    load_text_conditioning 1 Toy.world1 = (Ok (ehs, ehs_t5, mask, mask_t5), Toy.world1) /\
    guidance_pair 1 [1; 2] (Tensor [1; 1; 2] [1; 2]%Z) (Tensor [1; 1; 2] [3; 4]%Z) ehs.
Proof.
  destruct (load_text_conditioning_layout (R := Z) 1 1 2 1 2
              (Tensor [1; 1; 2] [1; 2]%Z) (Tensor [1; 1] [1]%Z)
              (Tensor [1; 1; 2] [3; 4]%Z) (Tensor [1; 1] [0]%Z)
              (Tensor [1; 1; 2] [5; 6]%Z) (Tensor [1; 1] [1]%Z)
              (Tensor [1; 1; 2] [7; 8]%Z) (Tensor [1; 1] [1]%Z) Toy.world1)
    as (ehs & ehs_t5 & mask & mask_t5 & E & G & _);
    try (split; [vm_compute; reflexivity|split; reflexivity]).
  exists ehs, ehs_t5, mask, mask_t5. split; [exact E|exact G].
Defined.

(** ** [return_dict] *)

Section ReturnDictFacts.
Context {R : Type} `{Scalar R} `{Externals R}.

Lemma wrapped_in_dict_bind {A} (m : M R A) (k1 k2 : A -> M R (@raw_output R))
    (w : world R) :
  (forall a w', wrapped_in_dict (k1 a w') (k2 a w')) ->
  wrapped_in_dict (bind m k1 w) (bind m k2 w).
Proof.
  intros Hk. unfold bind. destruct (m w) as [[a|e] w']; [apply Hk|reflexivity].
Qed.

(** X17.  [return_dict] changes nothing but the wrapping of the result:
    a call of [forward_raw] with [return_dict=True] raises what the same
    call with [return_dict=False] raises, or returns [{'x': x}] for the
    tensor [x] that the latter returns, and it leaves the same world.
    With [return_dict=False] no dictionary is returned. *)
Theorem forward_raw_return_dict (self : HunYuan) (x t : tensor R) (y : tensor Z)
    (kw kw' : raw_kwargs) (w : world R) :
  return_dict kw = false -> return_dict kw' = true ->
  wrapped_in_dict (forward_raw self x t y kw w) (forward_raw self x t y kw' w).
Proof.
  intros Hkw Hkw'. unfold forward_raw. rewrite Hkw, Hkw'.
  destruct (shape x) as [|ob [|c0 [|oh [|ow [|? ?]]]]]; try reflexivity.
  apply wrapped_in_dict_bind. intros [[[ehs ehs_t5] mask] mask_t5] w1.
  do 3 (apply wrapped_in_dict_bind; intros ? ?).
  apply wrapped_in_dict_bind. intros [t' x'] w5.
  do 9 (apply wrapped_in_dict_bind; intros ? ?).
  reflexivity.
Qed.

End ReturnDictFacts.

Lemma forward_raw_return_dict_witness :
  forward_raw (Toy.net 2) Toy.image Toy.timestep (Tensor [1] [1]%Z)
    {| encoder_hidden_states := None; text_embedding_mask := None;
       encoder_hidden_states_t5 := None; text_embedding_mask_t5 := None;
       image_meta_size := None; style := None;
       cos_cis_img := None; sin_cis_img := None; return_dict := true |}
    Toy.world0
  = (Raise (FileNotFoundError "output/clip_prompt_embeds.pt"), Toy.world0).
Proof.
  exact (forward_raw_return_dict (Toy.net 2) Toy.image Toy.timestep (Tensor [1] [1]%Z)
           raw_defaults
           {| encoder_hidden_states := None; text_embedding_mask := None;
              encoder_hidden_states_t5 := None; text_embedding_mask_t5 := None;
              image_meta_size := None; style := None;
              cos_cis_img := None; sin_cis_img := None; return_dict := true |}
           Toy.world0 eq_refl eq_refl).
Defined.

(** ** The final layer *)

Section FinalLayerFormula.
Context {R : Type} `{Scalar R} `{Externals R}.

Lemma slice_1_entries (t : tensor R) (N n start stop : nat) :
  shape t = [N; n] ->
  exists a, slice_ 1 start stop t = Ok a /\
            shape a = [N; Nat.min stop n - Nat.min start n] /\ wf_tensor a /\
            forall b d, b < N -> d < Nat.min stop n - Nat.min start n ->
                        tget a [b; d] = tget t [b; d + Nat.min start n].
Proof.
  intros Hs. unfold slice_. rewrite Hs. cbn [lookup list_lookup].
  eexists. split; [reflexivity|]. split; [reflexivity|]. split; [apply wf_tabulate|].
  intros b d Hb Hd. cbn [insert list_insert].
  rewrite tget_tabulate by (repeat (constructor; try assumption)).
  reflexivity.
Qed.

(** [shift, scale = m.chunk(2, dim=1)]: the first half and the second
    half of every row. *)
Lemma chunk2_dim1_entries (t : tensor R) (N h : nat) :
  shape t = [N; 2 * h] ->
  exists a b, chunk2_dim1 t = Ok (a, b) /\
              shape a = [N; h] /\ wf_tensor a /\ shape b = [N; h] /\ wf_tensor b /\
              forall i d, i < N -> d < h ->
                          tget a [i; d] = tget t [i; d] /\
                          tget b [i; d] = tget t [i; h + d].
Proof.
  intros Hs. unfold chunk2_dim1. rewrite Hs. cbn [lookup list_lookup].
  assert (Hk : (2 * h + 1) / 2 = h).
  { symmetry. apply Nat.div_unique with (r := 1); lia. }
  rewrite Hk.
  assert (Hc : (2 * h =? 0) || (h <? 2 * h) = true).
  { destruct h as [|h']; [reflexivity|].
    apply orb_true_iff. right. apply Nat.ltb_lt. lia. }
  rewrite Hc.
  destruct (slice_1_entries t N (2 * h) 0 h Hs) as (a & Ea & Sa & Wa & Ga).
  destruct (slice_1_entries t N (2 * h) h (2 * h) Hs) as (b & Eb & Sb & Wb & Gb).
  rewrite Ea, Eb. cbn [rbind]. exists a, b.
  split; [reflexivity|].
  replace (Nat.min h (2 * h) - Nat.min 0 (2 * h)) with h in * by lia.
  replace (Nat.min (2 * h) (2 * h) - Nat.min h (2 * h)) with h in * by lia.
  repeat split; try assumption.
  - rewrite (Ga i d) by assumption. cbn [Nat.min]. rewrite Nat.add_0_r. reflexivity.
  - rewrite (Gb i d) by assumption.
    replace (Nat.min h (2 * h)) with h by lia. rewrite Nat.add_comm. reflexivity.
Qed.

(** X18.  [FinalLayer.forward] on tokens [x] of shape [(N, L, n_h)], for
    a width [n_h] other than 0, and a conditioning [c] of shape
    [(N, n_c)]: with [m] the output of
    [adaLN_modulation] on [c], of width [2 * n_h], and [y] the layer
    normalisation of [x], the result is [linear] applied to the tensor
    [z] with [z[b, l, d] = y[b, l, d] * (1 + m[b, n_h + d]) + m[b, d]]:
    the shift is the first half of [m] and the scale its second half. *)
Theorem FinalLayer_forward_formula (f : FinalLayer) (x c y : tensor R)
    (n_h n_c n_out N L : nat) :
  wf_Linear (linear f) n_h n_out ->
  wf_Linear (adaLN_modulation f) n_c (2 * n_h) ->
  norm_final f = n_h -> n_h <> 0 ->
  shape x = [N; L; n_h] -> shape c = [N; n_c] ->
  F_layer_norm x [n_h] None None eps_1e_6 = Ok y ->
  shape y = [N; L; n_h] -> wf_tensor y ->
  exists m z out,
    SiLU_Linear_forward (adaLN_modulation f) c = Ok m /\ shape m = [N; 2 * n_h] /\
    shape z = [N; L; n_h] /\
    (forall b l d, b < N -> l < L -> d < n_h ->
        tget z [b; l; d]
        = sadd (smul (tget y [b; l; d]) (sadd s1 (tget m [b; n_h + d]))) (tget m [b; d])) /\
    Linear_forward (linear f) z = Ok out /\
    FinalLayer_forward f x c = Ok out /\ shape out = [N; L; n_out].
Proof.
  intros Hl Ha Hn _ Hx Hc Ey Sy Wy. unfold FinalLayer_forward, SiLU_Linear_forward.
  destruct (Linear_forward_Ok (adaLN_modulation f) (FP32_SiLU_forward c) n_c (2 * n_h) Ha)
    as (m & Em & Sm & _).
  { unfold FP32_SiLU_forward. cbn [tmap shape]. rewrite Hc. reflexivity. }
  rewrite Em. cbn [rbind].
  unfold FP32_SiLU_forward in Sm. cbn [tmap shape] in Sm. rewrite Hc in Sm.
  cbn [length firstn Nat.sub app] in Sm.
  destruct (chunk2_dim1_entries m N n_h Sm)
    as (shift & scale & Ech & Ssh & Wsh & Ssc & Wsc & Gch).
  rewrite Ech. cbn [rbind]. rewrite Hn, Ey. cbn [rbind].
  destruct (modulate_entries y shift scale N L n_h Sy Wy Ssh Wsh Ssc Wsc)
    as (z & Ez & Sz & _ & Gz).
  rewrite Ez. cbn [rbind].
  destruct (Linear_forward_Ok (linear f) z n_h n_out Hl) as (out & Eo & So & _).
  { rewrite Sz. reflexivity. }
  exists m, z, out. split; [reflexivity|]. split; [exact Sm|]. split; [exact Sz|].
  split.
  - intros b l d Hb Hl' Hd. rewrite (Gz b l d Hb Hl' Hd).
    destruct (Gch b d Hb Hd) as [-> ->]. reflexivity.
  - split; [exact Eo|]. split; [exact Eo|]. rewrite So, Sz. reflexivity.
Qed.

End FinalLayerFormula.

Lemma FinalLayer_forward_formula_witness :
  exists out,
    FinalLayer_forward (final_layer (Toy.net 2))
      (Tensor [1; 1; 2] [3; 4]%Z) (Tensor [1; 2] [5; 6]%Z) = Ok out /\
    shape out = [1; 1; 2].
Proof.
  destruct (FinalLayer_forward_formula (R := Z) (final_layer (Toy.net 2))
              (Tensor [1; 1; 2] [3; 4]%Z) (Tensor [1; 2] [5; 6]%Z)
              (Tensor [1; 1; 2] [3; 4]%Z) 2 2 2 1 1)
    as (m & z & out & _ & _ & _ & _ & _ & Eo & So);
    try reflexivity; try (repeat split; reflexivity); try discriminate.
  exists out. split; [exact Eo|exact So].
Defined.

(** ** The text states *)

Section TextStates.
Context {R : Type} `{Scalar R} `{Externals R}.

Lemma view_rows {A} (t : tensor A) (n c : nat) :
  c <> 0 -> length (data t) = n * c ->
  view [None; Some c] t = Ok (Tensor [n; c] (data t)).
Proof.
  intros Hc Hlen. unfold view. cbn. rewrite Nat.mul_1_r.
  assert (E1 : (c =? 0) = false) by (apply Nat.eqb_neq; exact Hc).
  rewrite E1, Hlen, Nat.Div0.mod_mul, Nat.div_mul by exact Hc. reflexivity.
Qed.

Lemma view_batch {A} (t : tensor A) (b l d : nat) :
  b * l <> 0 -> length (data t) = b * l * d ->
  view [Some b; Some l; None] t = Ok (Tensor [b; l; d] (data t)).
Proof.
  intros Hbl Hlen. unfold view. cbn. rewrite Nat.mul_1_r.
  assert (E1 : (b * l =? 0) = false) by (apply Nat.eqb_neq; exact Hbl).
  rewrite E1, Hlen.
  replace (b * l * d) with (d * (b * l)) by ring.
  rewrite Nat.Div0.mod_mul, Nat.div_mul by exact Hbl. reflexivity.
Qed.

Lemma cat_1_3d {A} `{Inhabited A} (a b : tensor A) (B L L' D : nat) :
  shape a = [B; L; D] -> shape b = [B; L'; D] ->
  exists out,
    cat 1 a b = Ok out /\ shape out = [B; L + L'; D] /\ wf_tensor out /\
    forall i j d, i < B -> j < L + L' -> d < D ->
                  tget out [i; j; d]
                  = if j <? L then tget a [i; j; d] else tget b [i; j - L; d].
Proof.
  intros Ha Hb. unfold cat. rewrite Ha, Hb. cbn [lookup list_lookup insert list_insert].
  rewrite bool_decide_eq_true_2 by reflexivity.
  eexists. split; [reflexivity|]. split; [reflexivity|]. split; [apply wf_tabulate|].
  intros i j d Hi Hj Hd.
  rewrite tget_tabulate by (repeat (constructor; try assumption)).
  cbn [lookup list_lookup insert list_insert]. reflexivity.
Qed.

Lemma cat_1_2d {A} `{Inhabited A} (a b : tensor A) (B L L' : nat) :
  shape a = [B; L] -> shape b = [B; L'] ->
  exists out,
    cat 1 a b = Ok out /\ shape out = [B; L + L'] /\ wf_tensor out /\
    forall i j, i < B -> j < L + L' ->
                tget out [i; j] = if j <? L then tget a [i; j] else tget b [i; j - L].
Proof.
  intros Ha Hb. unfold cat. rewrite Ha, Hb. cbn [lookup list_lookup insert list_insert].
  rewrite bool_decide_eq_true_2 by reflexivity.
  eexists. split; [reflexivity|]. split; [reflexivity|]. split; [apply wf_tabulate|].
  intros i j Hi Hj.
  rewrite tget_tabulate by (repeat (constructor; try assumption)).
  cbn [lookup list_lookup insert list_insert]. reflexivity.
Qed.

Lemma broadcast_shapes_suffix (B J D : nat) :
  broadcast_shapes [B; J; D] [J; D] = Ok [B; J; D].
Proof.
  unfold broadcast_shapes. cbn [rev app broadcast_rev rbind].
  rewrite !Nat.eqb_refl. reflexivity.
Qed.

Lemma broadcast_shapes_last_one (B J D : nat) :
  broadcast_shapes [B; J; 1] [B; J; D] = Ok [B; J; D].
Proof.
  unfold broadcast_shapes. cbn [rev app broadcast_rev rbind].
  rewrite !Nat.eqb_refl. cbn [rbind].
  destruct (1 =? D) eqn:E; [apply Nat.eqb_eq in E; subst D|]; reflexivity.
Qed.

Lemma bidx_suffix (B J D b j d : nat) :
  j < J -> d < D -> bidx [J; D] [b; j; d] = [j; d].
Proof.
  intros Hj Hd. unfold bidx. cbn [length Nat.sub skipn].
  apply clamp_same. repeat (constructor; try assumption).
Qed.

Lemma bidx_last_one (B J b j d : nat) :
  b < B -> j < J -> bidx [B; J; 1] [b; j; d] = [b; j; 0].
Proof.
  intros Hb Hj. unfold bidx. cbn [length Nat.sub skipn zip_with Nat.eqb].
  destruct (B =? 1) eqn:EB; destruct (J =? 1) eqn:EJ;
    try apply Nat.eqb_eq in EB; try apply Nat.eqb_eq in EJ;
    repeat f_equal; lia.
Qed.

(** [torch.where(cond, a, pad)] for a mask with one entry per token and a
    padding row per position. *)
Lemma where_entries {A} `{Inhabited A} (cond : tensor bool) (a pad : tensor A)
    (B J D : nat) :
  shape cond = [B; J; 1] -> shape a = [B; J; D] -> shape pad = [J; D] ->
  exists out,
    where_ cond a pad = Ok out /\ shape out = [B; J; D] /\ wf_tensor out /\
    forall b j d, b < B -> j < J -> d < D ->
                  tget out [b; j; d]
                  = if tget cond [b; j; 0] then tget a [b; j; d] else tget pad [j; d].
Proof.
  intros Hc Ha Hp. unfold where_, broadcast2.
  rewrite Ha, Hp, broadcast_shapes_suffix. cbn [rbind shape tabulate].
  rewrite Hc, broadcast_shapes_last_one. cbn [rbind].
  eexists. split; [reflexivity|]. split; [reflexivity|]. split; [apply wf_tabulate|].
  intros b j d Hb Hj Hd.
  assert (Hin : in_bounds [B; J; D] [b; j; d]) by (repeat (constructor; try assumption)).
  rewrite tget_tabulate by exact Hin.
  rewrite (bidx_same _ _ Hin), (bidx_last_one B J b j d Hb Hj).
  match goal with
  | |- (if _ then (tget ?m _).1 else _) = _ =>
      change m with (tabulate [B; J; D] (fun idx =>
        (tget a (bidx [B; J; D] idx), tget pad (bidx [J; D] idx))))
  end.
  rewrite tget_tabulate by exact Hin.
  rewrite (bidx_same _ _ Hin), (bidx_suffix B J D b j d Hj Hd).
  reflexivity.
Qed.

(** X19.  The text states that [forward_raw] builds from the two
    encoders' batches of shapes [(B, L, D)] and [(B, L5, D5)] (none of
    them empty on the side of the second encoder) and their masks: the
    result has shape [(B, L + L5, D)]; its first [L] positions
    are the first encoder's states, the remaining [L5] positions are the
    second encoder's states passed through [mlp_t5]; and wherever the
    mask of a position is zero, the whole row is replaced by the row of
    [text_embedding_padding] for that position (cast to float16). *)
Theorem build_text_states_formula (self : HunYuan)
    (ehs ehs_t5 mask mask_t5 : tensor R) (B L D L5 D5 hid : nat) :
  shape ehs = [B; L; D] -> wf_tensor ehs ->
  shape ehs_t5 = [B; L5; D5] -> wf_tensor ehs_t5 ->
  shape mask = [B; L] -> wf_tensor mask ->
  shape mask_t5 = [B; L5] -> wf_tensor mask_t5 ->
  wf_Linear (mlp_t5 self).1 D5 hid -> wf_Linear (mlp_t5 self).2 hid D ->
  shape (text_embedding_padding self) = [L + L5; D] ->
  wf_tensor (text_embedding_padding self) ->
  B * L5 <> 0 -> D5 <> 0 -> D <> 0 ->
  exists t5 out,
    Linear_SiLU_Linear_forward (mlp_t5 self) (Tensor [B * L5; D5] (data ehs_t5)) = Ok t5 /\
    shape t5 = [B * L5; D] /\
    build_text_states self ehs ehs_t5 mask mask_t5 = Ok out /\
    shape out = [B; L + L5; D] /\
    forall b j d, b < B -> j < L + L5 -> d < D ->
      tget out [b; j; d]
      = if j <? L then
          if truthy (tget mask [b; j]) then tget ehs [b; j; d]
          else half (tget (text_embedding_padding self) [j; d])
        else
          if truthy (tget mask_t5 [b; j - L]) then tget t5 [b * L5 + (j - L); d]
          else half (tget (text_embedding_padding self) [j; d]).
Proof.
  intros He Hwe He5 Hwe5 Hm Hwm Hm5 Hwm5 Hl1 Hl2 Hp Hwp Hbl Hd5 _.
  unfold build_text_states. rewrite He5.
  assert (Hlen5 : length (data ehs_t5) = B * L5 * D5).
  { unfold wf_tensor in Hwe5. rewrite Hwe5, He5. cbn [numel fold_right]. ring. }
  rewrite (view_rows ehs_t5 (B * L5) D5 Hd5 Hlen5). cbn [rbind].
  unfold Linear_SiLU_Linear_forward.
  destruct (Linear_forward_Ok (mlp_t5 self).1 (Tensor [B * L5; D5] (data ehs_t5)) D5 hid Hl1)
    as (y1 & E1 & S1 & _); [reflexivity|].
  rewrite E1. cbn [rbind]. cbn [shape length Nat.sub firstn app] in S1.
  destruct (Linear_forward_Ok (mlp_t5 self).2 (FP32_SiLU_forward y1) hid D Hl2)
    as (t5 & E2 & S2 & W2).
  { unfold FP32_SiLU_forward. cbn [tmap shape]. rewrite S1. reflexivity. }
  rewrite E2. cbn [rbind].
  unfold FP32_SiLU_forward in S2. cbn [tmap shape] in S2. rewrite S1 in S2.
  cbn [length Nat.sub firstn app] in S2.
  assert (Hlt5 : length (data t5) = B * L5 * D).
  { unfold wf_tensor in W2. rewrite W2, S2. cbn [numel fold_right]. ring. }
  rewrite (view_batch t5 B L5 D Hbl Hlt5). cbn [rbind].
  destruct (cat_1_3d ehs (Tensor [B; L5; D] (data t5)) B L L5 D He eq_refl)
    as (ts & Ec & Sc & Wc & Gc).
  rewrite Ec. cbn [rbind].
  cbn [tmap shape]. rewrite Hm. cbn [length Nat.sub].
  destruct (cat_1_2d (tmap truthy mask) (tmap truthy mask_t5) B L L5 Hm Hm5)
    as (cm & Em & Sm & Wm & Gm).
  rewrite Em. cbn [rbind].
  unfold unsqueeze. rewrite Sm. cbn [length Nat.leb firstn skipn app rbind].
  destruct (where_entries (Tensor [B; L + L5; 1] (data cm)) ts
              (tmap half (text_embedding_padding self)) B (L + L5) D eq_refl Sc Hp)
    as (out & Eo & So & _ & Go).
  rewrite Eo.
  exists t5, out. split; [reflexivity|]. split; [exact S2|]. split; [reflexivity|].
  split; [exact So|].
  intros b j d Hb Hj Hd. rewrite (Go b j d Hb Hj Hd).
  assert (Hcm : tget (Tensor [B; L + L5; 1] (data cm)) [b; j; 0] = tget cm [b; j]).
  { unfold tget. cbn [shape data]. rewrite Sm.
    f_equal; cbn [ravel numel fold_right]; ring. }
  rewrite Hcm, (Gm b j Hb Hj), (Gc b j d Hb Hj Hd).
  assert (Hpad : tget (tmap half (text_embedding_padding self)) [j; d]
                 = half (tget (text_embedding_padding self) [j; d])).
  { apply tget_tmap. unfold wf_tensor in Hwp. rewrite Hwp, Hp.
    apply ravel_lt. repeat (constructor; try assumption). }
  rewrite Hpad.
  destruct (j <? L) eqn:Ej.
  - apply Nat.ltb_lt in Ej.
    rewrite tget_tmap.
    + reflexivity.
    + unfold wf_tensor in Hwm. rewrite Hwm, Hm.
      apply ravel_lt. repeat (constructor; try assumption).
  - apply Nat.ltb_ge in Ej.
    rewrite tget_tmap.
    + assert (Ht5 : tget (Tensor [B; L5; D] (data t5)) [b; j - L; d]
                    = tget t5 [b * L5 + (j - L); d]).
      { unfold tget. cbn [shape data]. rewrite S2.
        f_equal; cbn [ravel numel fold_right]; ring. }
      rewrite Ht5. reflexivity.
    + unfold wf_tensor in Hwm5. rewrite Hwm5, Hm5.
      apply ravel_lt. repeat (constructor; try assumption). lia.
Qed.

End TextStates.

Lemma build_text_states_formula_witness :
  exists out,
    build_text_states (Toy.net 2)
      (Tensor [2; 1; 2] [1; 2; 3; 4]%Z) (Tensor [2; 1; 2] [5; 6; 7; 8]%Z)
      (Tensor [2; 1] [1; 0]%Z) (Tensor [2; 1] [1; 1]%Z) = Ok out /\
    shape out = [2; 2; 2].
Proof.
  destruct (build_text_states_formula (R := Z) (Toy.net 2)
              (Tensor [2; 1; 2] [1; 2; 3; 4]%Z) (Tensor [2; 1; 2] [5; 6; 7; 8]%Z)
              (Tensor [2; 1] [1; 0]%Z) (Tensor [2; 1] [1; 1]%Z) 2 1 2 1 2 1)
    as (t5 & out & _ & _ & Eo & So & _);
    try reflexivity; try (repeat split; reflexivity); try discriminate.
  exists out. split; [exact Eo|exact So].
Defined.

(** ** The pairing that the skip stack realises *)

Section MirrorFacts.
Context {R : Type} `{Scalar R} `{Externals R}.

Lemma rev_take_S {A} (l : list A) (n : nat) (a : A) :
  l !! n = Some a -> rev (take (S n) l) = a :: rev (take n l).
Proof.
  intros Hl. rewrite (take_S_r l n a Hl), rev_app_distr. reflexivity.
Qed.

Lemma run_blocks_mirror_gen (self : HunYuan) (k : nat) (c text_states : tensor R)
    (freqs_cis_img : rope) :
  depth self = 2 * k ->
  forall (bs : list HunYuanDiTBlock) (layer : nat) (x : tensor R)
         (skips hist : list (tensor R)) (w : world R),
    layer + length bs = 2 * k ->
    length hist = layer ->
    skips = rev (take (height_at k layer) hist) ->
    match run_blocks self layer bs x c text_states freqs_cis_img skips w with
    | (Ok xs, w') =>
        run_blocks_mirrored self layer bs x c text_states freqs_cis_img hist w
        = (Ok xs.1, w')
    | (Raise e, w') =>
        run_blocks_mirrored self layer bs x c text_states freqs_cis_img hist w
        = (Raise e, w')
    end.
Proof.
  intros Hd bs. induction bs as [|block bs IH]; intros layer x skips hist w Hlen Hh Hs.
  - reflexivity.
  - cbn [length] in Hlen. cbn [run_blocks run_blocks_mirrored].
    rewrite Hd, consumes_skip_even, produces_skip_even.
    unfold height_at in Hs.
    destruct (k <? layer) eqn:Ec.
    + apply Nat.ltb_lt in Ec.
      assert (El : (layer <=? k) = false) by (apply Nat.leb_gt; lia).
      rewrite El in Hs.
      assert (Ep : (S layer <? k) = false) by (apply Nat.ltb_ge; lia).
      rewrite Ep.
      assert (Hidx : 2 * k - 1 - layer < length hist) by lia.
      destruct (lookup_lt_is_Some_2 hist _ Hidx) as [skip Hskip].
      rewrite Hskip.
      replace (2 * k - layer) with (S (2 * k - 1 - layer)) in Hs by lia.
      rewrite (rev_take_S hist _ skip Hskip) in Hs. subst skips.
      unfold bind, ret.
      destruct (HunYuanDiTBlock_forward block x c text_states freqs_cis_img
                  (Some skip) w) as [[y|e] w1]; [|reflexivity].
      cbn [fst snd].
      apply IH; [lia|rewrite length_app; cbn [length]; lia|].
      unfold height_at.
      assert (El' : (S layer <=? k) = false) by (apply Nat.leb_gt; lia).
      rewrite El'. rewrite take_app_le by lia.
      replace (2 * k - S layer) with (2 * k - 1 - layer) by lia. reflexivity.
    + apply Nat.ltb_ge in Ec.
      assert (El : (layer <=? k) = true) by (apply Nat.leb_le; lia).
      rewrite El in Hs.
      unfold bind, ret.
      destruct (HunYuanDiTBlock_forward block x c text_states freqs_cis_img None w)
        as [[y|e] w1]; [|reflexivity].
      cbn [fst snd].
      apply IH; [lia|rewrite length_app; cbn [length]; lia|].
      unfold height_at. subst skips.
      destruct (S layer <? k) eqn:Ep.
      * apply Nat.ltb_lt in Ep.
        assert (El' : (S layer <=? k) = true) by (apply Nat.leb_le; lia).
        rewrite El'.
        replace (Nat.min layer (k - 1)) with (length hist) by lia.
        replace (Nat.min (S layer) (k - 1)) with (length (hist ++ [y]))
          by (rewrite length_app; cbn [length]; lia).
        rewrite !firstn_all, rev_app_distr. reflexivity.
      * apply Nat.ltb_ge in Ep.
        destruct (S layer <=? k) eqn:El'.
        -- apply Nat.leb_le in El'.
           replace (Nat.min (S layer) (k - 1)) with (Nat.min layer (k - 1)) by lia.
           rewrite take_app_le by lia. reflexivity.
        -- apply Nat.leb_gt in El'.
           replace (2 * k - S layer) with (Nat.min layer (k - 1)) by lia.
           rewrite take_app_le by lia. reflexivity.
Qed.

(** X20.  For an even depth, the stack of [forward_raw] realises the
    mirrored pairing of a U-Net: run with an explicit plan in which the
    block of index [layer > depth // 2] receives the output of block
    [depth - 1 - layer], the loop returns the same tensor, or raises the
    same exception, and leaves the same world. *)
Theorem run_blocks_mirrors (self : HunYuan) (x c text_states : tensor R)
    (freqs_cis_img : rope) (w : world R) :
  Nat.even (depth self) = true ->
  length (blocks self) = depth self ->
  match run_blocks self 0 (blocks self) x c text_states freqs_cis_img [] w with
  | (Ok xs, w') =>
      run_blocks_mirrored self 0 (blocks self) x c text_states freqs_cis_img [] w
      = (Ok xs.1, w')
  | (Raise e, w') =>
      run_blocks_mirrored self 0 (blocks self) x c text_states freqs_cis_img [] w
      = (Raise e, w')
  end.
Proof.
  intros He Hl. apply Nat.even_spec in He. destruct He as [k Hk].
  apply (run_blocks_mirror_gen self k c text_states freqs_cis_img Hk).
  - cbn [Nat.add]. rewrite Hl. exact Hk.
  - reflexivity.
  - reflexivity.
Qed.

End MirrorFacts.

Lemma run_blocks_mirrors_witness :
  (run_blocks_mirrored (Toy.model 12) 0 (blocks (Toy.model 12))
     (Toy.zeros [1; 1; 2]) (Toy.zeros [1; 2]) (Toy.zeros [1; 1; 2]) tt [] Toy.world0).1
  = Ok (Toy.zeros [1; 1; 2]).
Proof.
  pose proof (run_blocks_mirrors (Toy.model 12)
                (Toy.zeros [1; 1; 2]) (Toy.zeros [1; 2]) (Toy.zeros [1; 1; 2]) tt
                Toy.world0 eq_refl eq_refl) as Hm.
  rewrite (surjective_pairing (run_blocks _ _ _ _ _ _ _ _ _)) in Hm.
  assert (E : (run_blocks (Toy.model 12) 0 (blocks (Toy.model 12))
                 (Toy.zeros [1; 1; 2]) (Toy.zeros [1; 2]) (Toy.zeros [1; 1; 2]) tt []
                 Toy.world0).1
              = Ok (Toy.zeros [1; 1; 2], []))
    by (vm_compute; reflexivity).
  rewrite E in Hm. rewrite Hm. reflexivity.
Defined.

(** ** The geometry of the output *)

Section OutputGeometry.
Context {R : Type} `{Scalar R} `{Externals R}.

Lemma floordiv_Ok (a b q : nat) : floordiv a b = Ok q -> b <> 0 /\ q = a / b.
Proof.
  unfold floordiv. destruct (b =? 0) eqn:E; [discriminate|].
  intros Eq. injection Eq as <-. apply Nat.eqb_neq in E. split; [exact E|reflexivity].
Qed.

Lemma forward_raw_geometry (self : HunYuan) (x t : tensor R) (y : tensor Z)
    (o : raw_output) (w w' : world R) (ob c0 oh ow : nat) :
  forward_raw self x t y raw_defaults w = (Ok o, w') ->
  shape x = [ob; c0; oh; ow] ->
  patch_size self <> 0 /\
  exists out n,
    o = Out_tensor out /\ wf_tensor out /\
    shape out
    = [n; unpatchify_channels self;
       oh / patch_size self * (pe_patch_size (x_embedder self)).1;
       ow / patch_size self * (pe_patch_size (x_embedder self)).1].
Proof.
  unfold forward_raw. intros E Hx. rewrite Hx in E.
  apply bind_inv in E. destruct E as ([[[ehs ehs_t5] mask] mask_t5] & w1 & _ & E).
  apply bind_inv in E. destruct E as (text_states & w2 & _ & E).
  apply bind_inv in E. destruct E as (th & w3 & Hth & E).
  apply bind_inv in E. destruct E as (tw & w4 & Htw & E).
  apply lift_inv in Hth. destruct Hth as [Hth _].
  apply lift_inv in Htw. destruct Htw as [Htw _].
  apply floordiv_Ok in Hth. destruct Hth as [Hp ->].
  apply floordiv_Ok in Htw. destruct Htw as [_ ->].
  apply bind_inv in E. destruct E as ([t' x'] & w5 & _ & E).
  apply bind_inv in E. destruct E as (extra_vec & w6 & _ & E).
  apply bind_inv in E. destruct E as (freqs & w7 & _ & E).
  apply bind_inv in E. destruct E as ([] & w8 & _ & E).
  apply bind_inv in E. destruct E as ([] & w9 & _ & E).
  apply bind_inv in E. destruct E as (e & w10 & _ & E).
  apply bind_inv in E. destruct E as (c & w11 & _ & E).
  apply bind_inv in E. destruct E as (xs & w12 & _ & E).
  apply bind_inv in E. destruct E as (x1 & w13 & _ & E).
  apply bind_inv in E. destruct E as (x2 & w14 & Hu & E).
  apply lift_inv in Hu. destruct Hu as [Hu _].
  cbn [return_dict raw_defaults] in E. unfold ret in E. injection E as <- _.
  destruct (unpatchify_shape self x1 x2 _ _ Hu) as (Hwf & n & Hn).
  split; [exact Hp|]. exists x2, n. split; [reflexivity|]. split; [exact Hwf|exact Hn].
Qed.

(** X21.  The size of what [forward] returns.  When [forward] returns on
    an input [x] of shape [(B, C, oh, ow)], the patch size of the model is
    not 0 and the result has the spatial size
    [(oh // patch_size) * p] by [(ow // patch_size) * p], for the patch
    size [p] of the patch embedder; so when [p] is [patch_size] and
    [patch_size] divides [oh] and [ow], the output has the spatial size of
    the input.  Its batch has at most [B] rows and it has at most
    [in_channels] channels. *)
Theorem forward_output_geometry (self : HunYuan)
    (x timesteps context : tensor R) (y : option (tensor R)) (kwargs : pyobj)
    (w w' : world R) (res : tensor R) (B C oh ow : nat) :
  forward self x timesteps context y kwargs w = (Ok res, w') ->
  shape x = [B; C; oh; ow] ->
  let p := (pe_patch_size (x_embedder self)).1 in
  patch_size self <> 0 /\
  (exists n c,
      n <= B /\ c <= in_channels self /\
      shape res = [n; c; oh / patch_size self * p; ow / patch_size self * p]) /\
  (p = patch_size self -> oh mod patch_size self = 0 -> ow mod patch_size self = 0 ->
   exists n c, shape res = [n; c; oh; ow]).
Proof.
  intros E Hx p. unfold forward in E. rewrite bind_forward_dumps in E.
  apply bind_inv in E. destruct E as (ctx & w1 & _ & E).
  apply bind_inv in E. destruct E as (o & w2 & Hraw & E).
  destruct (forward_raw_geometry self _ _ _ _ _ _ B C oh ow Hraw Hx)
    as (Hp & out & n & -> & Hwf & Hs).
  fold p in Hs. cbv zeta in E.
  destruct (forward_slices out n (unpatchify_channels self) _ _ (in_channels self) B
              Hs Hwf) as (eps & rest & res' & E1 & E2 & E3 & Hsr & _).
  rewrite E1, bind_lift, E2, bind_lift, Hx in E. unfold lift in E. rewrite E3 in E.
  injection E as <- _.
  assert (Hshape : exists n0 c0,
             n0 <= B /\ c0 <= in_channels self /\
             shape res'
             = [n0; c0; oh / patch_size self * p; ow / patch_size self * p]).
  { eexists _, _. split; [|split; [|exact Hsr]]; lia. }
  split; [exact Hp|]. split; [exact Hshape|].
  intros Hpe Hoh How. destruct Hshape as (n0 & c0 & _ & _ & Hs0).
  exists n0, c0. rewrite Hs0, Hpe.
  assert (Hd : forall a, a mod patch_size self = 0 ->
                         a / patch_size self * patch_size self = a).
  { intros a Ha. pose proof (Nat.div_mod_eq a (patch_size self)). lia. }
  rewrite (Hd oh Hoh), (Hd ow How). reflexivity.
Qed.

End OutputGeometry.

Lemma forward_output_geometry_witness :
  exists n c,
    shape (Tensor [1; 1; 2; 2] [129; 257; 385; 513]%Z) = [n; c; 2; 2].
Proof.
  destruct (forward_output_geometry (Toy.net 2) Toy.image Toy.timestep
              (Tensor [1; 3; 2] [1; 2; 3; 4; 5; 6]%Z) None tt Toy.world1 _ _
              1 1 2 2 toy_forward_run eq_refl) as (_ & _ & Hsame).
  exact (Hsame eq_refl eq_refl eq_refl).
Defined.

(** ** Freshly initialised blocks and the conditioning *)

Section ZeroedModulation.
Context {R : Type} `{Scalar R} `{Externals R} `{!ScalarLaws R}.

(** A linear layer with zero weight and zero bias sees only the shape of
    its input. *)
Lemma Linear_forward_zero_shape (l : Linear R) (x1 x2 : tensor R) :
  zero_params l -> shape x1 = shape x2 -> Linear_forward l x1 = Linear_forward l x2.
Proof.
  intros [Hw Hb] Hs. unfold Linear_forward. rewrite <- Hs.
  destruct (shape (weight l)) as [|n_out [|n_in [|? ?]]]; try reflexivity.
  destruct (last (shape x1)) as [n|]; [|reflexivity].
  destruct ((n =? n_in) && bool_decide (shape (bias l) = [n_out])); [|reflexivity].
  f_equal. unfold tabulate. f_equal. apply map_ext. intros i. cbv zeta.
  f_equal.
  induction (seq 0 n_in) as [|k ks IH]; cbn [fold_right]; [reflexivity|].
  rewrite IH, !(tget_all_zero (weight l) _ Hw), !smul_0_r. reflexivity.
Qed.

(** X22.  A block whose [default_modulation] layer is zero, as
    [initialize_weights] leaves every block, ignores the entries of the
    conditioning vector [c]: two calls of [forward] that differ only in
    the entries of [c] (not in its shape) do the same, to the value
    returned and to the files written.  So right after initialisation the
    conditioning reaches the output through no block. *)
Theorem zeroed_block_ignores_conditioning (b : HunYuanDiTBlock) (c1 c2 : tensor R) :
  zero_params (default_modulation b) -> shape c1 = shape c2 ->
  forall (x text_states : tensor R) (freq_cis_img : rope) (skip : option (tensor R))
         (w : world R),
    HunYuanDiTBlock_forward b x c1 text_states freq_cis_img skip w
    = HunYuanDiTBlock_forward b x c2 text_states freq_cis_img skip w.
Proof.
  intros Hz Hs x text_states freq_cis_img skip w.
  unfold HunYuanDiTBlock_forward, SiLU_Linear_forward.
  rewrite (Linear_forward_zero_shape (default_modulation b)
             (FP32_SiLU_forward c1) (FP32_SiLU_forward c2) Hz)
    by (unfold FP32_SiLU_forward; cbn [tmap shape]; exact Hs).
  reflexivity.
Qed.

End ZeroedModulation.

Lemma zeroed_block_ignores_conditioning_witness :
  HunYuanDiTBlock_forward (Toy.block 2) (Toy.zeros [1; 1; 2])
    (Tensor [1; 2] [3; 4]%Z) (Toy.zeros [1; 1; 2]) tt None Toy.world0
  = HunYuanDiTBlock_forward (Toy.block 2) (Toy.zeros [1; 1; 2])
      (Tensor [1; 2] [7; 9]%Z) (Toy.zeros [1; 1; 2]) tt None Toy.world0.
Proof.
  apply (zeroed_block_ignores_conditioning (R := Z) (Toy.block 2)
           (Tensor [1; 2] [3; 4]%Z) (Tensor [1; 2] [7; 9]%Z)).
  - split; repeat constructor.
  - reflexivity.
Defined.

(** ** Calls of [forward] that follow one another *)

Section ActsAlike.
Context {R : Type} `{Scalar R} `{Externals R}.

Lemma world_eq (a b : world R) : files a = files b -> rng a = rng b -> a = b.
Proof. destruct a, b. cbn. intros -> ->. reflexivity. Qed.

Lemma acts_alike_agree {A} (names : list string) (m : M R A) (w1 w2 : world R) :
  acts_alike names m -> agree_on names w1 w2 -> agree_on names (m w1).2 (m w2).2.
Proof.
  intros Hm Ha. destruct (Hm w1 w2 Ha) as (_ & _ & _ & Hp).
  intros n Hn. destruct (Hp (path_of n)) as [E|[E1 E2]]; [exact E|].
  rewrite E1, E2. apply Ha, Hn.
Qed.

Lemma acts_alike_ret {A} (names : list string) (a : A) : acts_alike names (ret a).
Proof. intros w1 w2 _. repeat split. intros p. right. split; reflexivity. Qed.

Lemma acts_alike_raise {A} (names : list string) (e : exn) :
  acts_alike names (raise e : M R A).
Proof. intros w1 w2 _. repeat split. intros p. right. split; reflexivity. Qed.

Lemma acts_alike_lift {A} (names : list string) (r : result A) :
  acts_alike names (lift r).
Proof. intros w1 w2 _. repeat split. intros p. right. split; reflexivity. Qed.

Lemma acts_alike_write_text (names : list string) (name text : string) :
  acts_alike names (write_text name text).
Proof.
  intros w1 w2 _. unfold write_text. cbn [fst snd files rng].
  repeat split. intros p.
  destruct (decide (p = path_of name)) as [->|Hne].
  - left. rewrite !lookup_insert_eq. reflexivity.
  - right. rewrite !lookup_insert_ne by congruence. split; reflexivity.
Qed.

Lemma acts_alike_torch_load (names : list string) (name : string) :
  In name names -> acts_alike names (torch_load name).
Proof.
  intros Hin w1 w2 Ha. unfold torch_load. rewrite <- (Ha name Hin).
  destruct (files w1 !! path_of name) as [[t|s]|]; cbn [fst snd];
    (repeat split; intros p; right; split; reflexivity).
Qed.

Lemma acts_alike_bind {A B} (names : list string) (m : M R A) (k : A -> M R B) :
  acts_alike names m -> (forall a, acts_alike names (k a)) ->
  acts_alike names (bind m k).
Proof.
  intros Hm Hk w1 w2 Ha.
  pose proof (acts_alike_agree names m w1 w2 Hm Ha) as Ha'.
  destruct (Hm w1 w2 Ha) as (E & R1 & R2 & Hp).
  unfold bind.
  destruct (m w1) as [r1 w1'], (m w2) as [r2 w2']. cbn [fst snd] in *. subst r2.
  destruct r1 as [a|e]; cbn [fst snd].
  - destruct (Hk a w1' w2' Ha') as (E' & R1' & R2' & Hp').
    split; [exact E'|]. split; [congruence|]. split; [congruence|].
    intros p. destruct (Hp' p) as [Eq|[Eq1 Eq2]]; [left; exact Eq|].
    rewrite Eq1, Eq2. apply Hp.
  - split; [reflexivity|]. split; [exact R1|]. split; [exact R2|]. exact Hp.
Qed.

End ActsAlike.

(** One step of a proof that a computation is [acts_alike embedding_names]. *)
Ltac alike_step :=
  first
    [ apply acts_alike_ret
    | apply acts_alike_raise
    | apply acts_alike_lift
    | apply acts_alike_write_text
    | apply acts_alike_torch_load; cbn; tauto
    | apply acts_alike_bind; [|intros ?] ].

Section ForwardAlike.
Context {R : Type} `{Scalar R} `{Externals R}.

Lemma acts_alike_block (self : HunYuanDiTBlock)
    (x c text_states : tensor R) (freq_cis_img : rope) (skip : option (tensor R)) :
  acts_alike embedding_names
    (HunYuanDiTBlock_forward self x c text_states freq_cis_img skip).
Proof.
  unfold HunYuanDiTBlock_forward.
  apply acts_alike_bind; [apply acts_alike_write_text|intros _].
  apply acts_alike_bind.
  { destruct (skip_layers self) as [[skip_norm skip_linear]|]; [|apply acts_alike_ret].
    apply acts_alike_bind; [destruct skip; alike_step|intros ?].
    repeat alike_step. }
  intros ?. repeat alike_step.
Qed.

Lemma acts_alike_run_blocks (self : HunYuan) (bs : list HunYuanDiTBlock) :
  forall (layer : nat) (x c text_states : tensor R) (freqs_cis_img : rope)
         (skips : list (tensor R)),
    acts_alike embedding_names
      (run_blocks self layer bs x c text_states freqs_cis_img skips).
Proof.
  induction bs as [|block bs IH]; intros layer x c text_states freqs skips;
    cbn [run_blocks].
  - apply acts_alike_ret.
  - apply acts_alike_bind.
    + destruct (consumes_skip (depth self) layer).
      * destruct skips as [|skip skips']; [apply acts_alike_raise|].
        apply acts_alike_bind; [apply acts_alike_block|intros ?; apply acts_alike_ret].
      * apply acts_alike_bind; [apply acts_alike_block|intros ?; apply acts_alike_ret].
    + intros xs. apply IH.
Qed.

Lemma acts_alike_load_text_conditioning (batch_size : nat) :
  acts_alike embedding_names (load_text_conditioning batch_size).
Proof.
  unfold load_text_conditioning, load_embeds.
  repeat alike_step.
Qed.

Lemma acts_alike_forward_raw (self : HunYuan) (x t : tensor R) (y : tensor Z)
    (kw : raw_kwargs) :
  acts_alike embedding_names (forward_raw self x t y kw).
Proof.
  unfold forward_raw.
  destruct (shape x) as [|ob [|c0 [|oh [|ow [|? ?]]]]]; try apply acts_alike_raise.
  apply acts_alike_bind; [apply acts_alike_load_text_conditioning|].
  intros [[[ehs ehs_t5] mask] mask_t5].
  do 3 (apply acts_alike_bind; [apply acts_alike_lift|intros ?]).
  apply acts_alike_bind.
  { unfold build_time_and_image_embedding. repeat alike_step. }
  intros [t' x'].
  apply acts_alike_bind.
  { unfold build_extra_vec. repeat alike_step. }
  intros extra_vec.
  apply acts_alike_bind; [apply acts_alike_lift|intros freqs].
  do 2 (apply acts_alike_bind; [apply acts_alike_write_text|intros ?]).
  do 2 (apply acts_alike_bind; [apply acts_alike_lift|intros ?]).
  apply acts_alike_bind; [apply acts_alike_run_blocks|intros xs].
  do 2 (apply acts_alike_bind; [apply acts_alike_lift|intros ?]).
  destruct (return_dict kw); apply acts_alike_ret.
Qed.

Lemma acts_alike_forward (self : HunYuan) (x timesteps context : tensor R)
    (y : option (tensor R)) (kwargs : pyobj) :
  acts_alike embedding_names (forward self x timesteps context y kwargs).
Proof.
  unfold forward. apply acts_alike_bind.
  { unfold forward_dumps. repeat alike_step. }
  intros _.
  apply acts_alike_bind; [apply acts_alike_lift|intros ctx].
  apply acts_alike_bind; [apply acts_alike_forward_raw|].
  intros [out|d]; [|apply acts_alike_raise].
  cbv zeta.
  do 2 (apply acts_alike_bind; [apply acts_alike_lift|intros ?]).
  destruct (shape x); [apply acts_alike_raise|apply acts_alike_lift].
Qed.

Lemma agree_on_after_forward (self : HunYuan) (x timesteps context : tensor R)
    (y : option (tensor R)) (kwargs : pyobj) (w : world R) :
  agree_on embedding_names w (forward self x timesteps context y kwargs w).2.
Proof.
  destruct (writes_within_forward self x timesteps context y kwargs w) as [_ Hf].
  intros n Hn. symmetry. apply Hf. intros name Hin E.
  apply path_of_inj in E. subst name. cbn in Hn, Hin.
  repeat (destruct Hn as [Hn|Hn];
          [subst n; repeat (destruct Hin as [Hin|Hin]; [discriminate Hin|]);
           exact Hin|]).
  exact Hn.
Qed.

(** X23.  What a call of [forward] returns (its tensor, or the exception
    it raises) is not changed by any call of [forward] made before it, on
    the same or on another model and with whatever arguments: the debug
    files that the earlier call leaves behind are never read. *)
Theorem forward_unaffected_by_earlier_call (self self' : HunYuan)
    (x timesteps context x' timesteps' context' : tensor R)
    (y y' : option (tensor R)) (kwargs kwargs' : pyobj) (w : world R) :
  (forward self x timesteps context y kwargs
     (forward self' x' timesteps' context' y' kwargs' w).2).1
  = (forward self x timesteps context y kwargs w).1.
Proof.
  symmetry.
  apply (acts_alike_forward self x timesteps context y kwargs).
  apply agree_on_after_forward.
Qed.

(** X24.  Calling [forward] a second time with the same arguments changes
    nothing: the second call has the outcome of the first and leaves
    every file, the debug dumps included, and the random generator as the
    first call left them. *)
Theorem forward_twice (self : HunYuan) (x timesteps context : tensor R)
    (y : option (tensor R)) (kwargs : pyobj) (w : world R) :
  forward self x timesteps context y kwargs
    (forward self x timesteps context y kwargs w).2
  = forward self x timesteps context y kwargs w.
Proof.
  set (f := forward self x timesteps context y kwargs).
  destruct (acts_alike_forward self x timesteps context y kwargs w (f w).2
              (agree_on_after_forward self x timesteps context y kwargs w))
    as (E & R1 & R2 & Hp).
  fold f in E, R1, R2, Hp.
  rewrite (surjective_pairing (f (f w).2)), (surjective_pairing (f w)).
  f_equal; [symmetry; exact E|].
  apply world_eq; [|exact R2].
  apply map_eq. intros p.
  destruct (Hp p) as [Eq|[_ Eq]]; [symmetry; exact Eq|exact Eq].
Qed.

End ForwardAlike.

(** ** C10: what a block call returns and what it leaves on disk *)

Section BlockEffects.
Context {R : Type} `{Scalar R} `{Externals R}.

Lemma norm_forward_normalised (o : norm_object) (x y : tensor R) :
  norm_forward o x = Ok y <-> normalised o x y.
Proof.
  destruct o as [n [w|] [b|] eps|m]; cbn [norm_forward normalised];
    try (split; [discriminate|contradiction]); [|reflexivity].
  destruct (F_layer_norm (tmap float_ x) [n] (Some (tmap float_ w))
              (Some (tmap float_ b)) eps) as [z|e]; cbn [rbind]; split.
  - intros E. injection E as <-. exists z. split; reflexivity.
  - intros (z' & E & ->). injection E as ->. reflexivity.
  - discriminate.
  - intros (z' & E & _). discriminate E.
Qed.

Lemma skip_step_after_skip (self : HunYuanDiTBlock) (x : tensor R)
    (skip : option (tensor R)) (x0 : tensor R) :
  skip_step self x skip = Ok x0 <-> after_skip self x skip x0.
Proof.
  unfold skip_step, after_skip.
  destruct (skip_layers self) as [[skip_norm skip_linear]|].
  - destruct skip as [s|]; split.
    + intros E.
      destruct (cat (length (shape x) - 1) x s) as [c1|] eqn:Ec; [|discriminate].
      cbn [rbind] in E.
      destruct (norm_forward skip_norm c1) as [n|] eqn:En; [|discriminate].
      cbn [rbind] in E. exists s, c1, n.
      split; [reflexivity|]. split; [exact Ec|].
      split; [apply norm_forward_normalised, En|exact E].
    + intros (s' & c1 & n & Es & Ec & En & El). injection Es as <-.
      apply norm_forward_normalised in En. rewrite Ec. cbn [rbind].
      rewrite En. exact El.
    + discriminate.
    + intros (s' & c1 & n & Es & _). discriminate Es.
  - split; [intros E; injection E as <-; reflexivity|intros ->; reflexivity].
Qed.

(** The value of a block call is [out] exactly when its trace exists. *)
Lemma block_steps_trace (self : HunYuanDiTBlock) (x c text_states : tensor R)
    (freq_cis_img : rope) (skip : option (tensor R)) (out : tensor R) :
  block_steps self x c text_states freq_cis_img skip = Ok out <->
  exists v, block_trace self x c text_states freq_cis_img skip v out.
Proof.
  unfold block_steps, self_attention_step, shift_msa_of, cross_attention_step, ffn_step,
    SiLU_Linear_forward, FP32_SiLU_forward.
  split.
  - intros E.
    destruct (skip_step self x skip) as [x0|] eqn:E0; [|discriminate]. cbn [rbind] in E.
    destruct (Linear_forward (default_modulation self) _) as [m|] eqn:Em; [|discriminate].
    cbn [rbind] in E.
    destruct (unsqueeze 1 m) as [sm|] eqn:Esm; [|discriminate]. cbn [rbind] in E.
    destruct (norm_forward (norm1 self) x0) as [n1|] eqn:En1; [|discriminate].
    cbn [rbind] in E.
    destruct (tadd n1 sm) as [a|] eqn:Ea; [|discriminate]. cbn [rbind] in E.
    destruct (call (attn1 self) (a, freq_cis_img)) as [o1|] eqn:Eo1; [|discriminate].
    cbn [rbind] in E.
    destruct (tadd x0 o1.1) as [x1|] eqn:Ex1; [|discriminate]. cbn [rbind] in E.
    destruct (norm_forward (norm3 self) x1) as [n3|] eqn:En3; [|discriminate].
    cbn [rbind] in E.
    destruct (call (attn2 self) (n3, text_states, freq_cis_img)) as [o2|] eqn:Eo2;
      [|discriminate].
    cbn [rbind] in E.
    destruct (tadd x1 o2.1) as [x2|] eqn:Ex2; [|discriminate]. cbn [rbind] in E.
    destruct (norm_forward (norm2 self) x2) as [n2|] eqn:En2; [|discriminate].
    cbn [rbind] in E.
    destruct (call (mlp self) n2) as [o3|] eqn:Eo3; [|discriminate]. cbn [rbind] in E.
    exists {| v_x0 := x0; v_m := m; v_shift_msa := sm; v_n1 := n1; v_a := a;
              v_o1 := o1; v_x1 := x1; v_n3 := n3; v_o2 := o2; v_x2 := x2;
              v_n2 := n2; v_o3 := o3 |}.
    unfold block_trace. cbn.
    repeat split; try assumption;
      first [apply skip_step_after_skip; assumption
            |apply norm_forward_normalised; assumption].
  - intros ([x0 m sm n1 a o1 x1 n3 o2 x2 n2 o3] & Ht). unfold block_trace in Ht.
    cbn in Ht.
    destruct Ht as (H0' & Em & Esm & En1 & Ea & Eo1 & Ex1 & En3 & Eo2 & Ex2 & En2 & Eo3 & Eo).
    apply skip_step_after_skip in H0'. apply norm_forward_normalised in En1, En3, En2.
    rewrite H0'. cbn [rbind]. rewrite Em. cbn [rbind]. rewrite Esm. cbn [rbind].
    rewrite En1. cbn [rbind]. rewrite Ea. cbn [rbind]. rewrite Eo1. cbn [rbind].
    rewrite Ex1. cbn [rbind]. rewrite En3. cbn [rbind]. rewrite Eo2. cbn [rbind].
    rewrite Ex2. cbn [rbind]. rewrite En2. cbn [rbind]. rewrite Eo3. cbn [rbind].
    exact Eo.
Qed.

Lemma keeps_file_write_text (name name' text : string) :
  name <> name' -> keeps_file name (write_text name' text).
Proof.
  intros Hne w. unfold write_text. cbn [snd files].
  apply lookup_insert_ne. intros E. apply path_of_inj in E. congruence.
Qed.

(** The dump [x1.txt] is written first and stays. *)
Lemma block_writes_x1 (self : HunYuanDiTBlock) (x c text_states : tensor R)
    (freq_cis_img : rope) (skip : option (tensor R)) (w : world R) :
  files (HunYuanDiTBlock_forward self x c text_states freq_cis_img skip w).2
    !! path_of "x1.txt"
  = Some (TextFile (dump "x" x)).
Proof.
  unfold HunYuanDiTBlock_forward. rewrite bind_write_text.
  match goal with
  | |- files (?k ?w1).2 !! _ = _ =>
      assert (Hk : keeps_file "x1.txt" k); [|rewrite (Hk w1)]
  end.
  - apply keeps_file_bind.
    + destruct (skip_layers self) as [[skip_norm skip_linear]|]; [|apply keeps_file_ret].
      apply keeps_file_bind; [destruct skip; [apply keeps_file_ret|apply keeps_file_raise]|].
      intros ?. repeat (apply keeps_file_bind; [apply keeps_file_lift|intros ?]).
      apply keeps_file_lift.
    + intros ?.
      repeat first
        [ apply keeps_file_ret
        | apply keeps_file_lift
        | apply keeps_file_write_text; discriminate
        | apply keeps_file_bind; [|intros ?] ].
  - cbn [files]. apply lookup_insert_eq.
Qed.

(** The skip step touches no file. *)
Lemma skip_part_inv (self : HunYuanDiTBlock) (x x0 : tensor R) (skip : option (tensor R))
    (w w' : world R) :
  match skip_layers self with
  | Some (skip_norm, skip_linear) =>
      s <- match skip with Some s => ret s | None => raise TypeError end ;;
      c <- lift (cat (length (shape x) - 1) x s) ;;
      c <- lift (norm_forward skip_norm c) ;;
      lift (Linear_forward skip_linear c)
  | None => ret x
  end w = (Ok x0, w') ->
  skip_step self x skip = Ok x0 /\ w' = w.
Proof.
  unfold skip_step.
  destruct (skip_layers self) as [[skip_norm skip_linear]|].
  - destruct skip as [s|]; [|discriminate].
    unfold bind at 1, ret at 1. rewrite !bind_lift.
    destruct (cat (length (shape x) - 1) x s) as [c1|]; [|discriminate].
    rewrite bind_lift. cbn [rbind].
    destruct (norm_forward skip_norm c1) as [n|]; [|discriminate].
    cbn [rbind]. intros E. apply lift_inv in E. exact E.
  - unfold ret. intros E. injection E as <- <-. split; reflexivity.
Qed.

(** The entries of [norm1(x) + shift_msa]: the shift of a sample is added
    to each of its tokens. *)
Lemma shift_entries (n1 m sm a : tensor R) (N L D : nat) :
  shape n1 = [N; L; D] -> wf_tensor n1 -> shape m = [N; D] -> wf_tensor m ->
  unsqueeze 1 m = Ok sm -> tadd n1 sm = Ok a ->
  shape a = [N; L; D] /\
  forall b l d, b < N -> l < L -> d < D ->
    tget a [b; l; d] = sadd (tget n1 [b; l; d]) (tget m [b; d]).
Proof.
  intros Hn Hwn Hm Hwm Esm Ea.
  unfold unsqueeze in Esm. rewrite Hm in Esm.
  cbn [length Nat.leb firstn skipn app] in Esm. injection Esm as <-.
  unfold tadd, broadcast2 in Ea. cbn [shape] in Ea.
  rewrite Hn, broadcast_shapes_unsqueezed in Ea. cbn [rbind] in Ea.
  injection Ea as <-. split; [reflexivity|].
  intros b l d Hb Hl Hd.
  assert (Hin : in_bounds [N; L; D] [b; l; d]) by (repeat (constructor; try assumption)).
  rewrite tget_tabulate by exact Hin.
  rewrite (bidx_same _ _ Hin), (bidx_unsqueezed N L D b l d Hb Hd).
  f_equal. unfold tget. cbn [shape data]. rewrite Hm. f_equal.
  cbn [ravel numel fold_right]. ring.
Qed.

(** The entries of a residual sum of two tensors of one shape. *)
Lemma residual_entries (x o y : tensor R) (s : list nat) :
  shape x = s -> shape o = s -> tadd x o = Ok y ->
  shape y = s /\
  forall idx, in_bounds s idx -> tget y idx = sadd (tget x idx) (tget o idx).
Proof.
  intros Hx Ho Ey. unfold tadd, broadcast2 in Ey. rewrite Hx, Ho in Ey.
  destruct (broadcast_shapes s s) as [s'|] eqn:Es; [|discriminate].
  cbn [rbind] in Ey. injection Ey as <-.
  assert (Hs : s' = s).
  { unfold broadcast_shapes in Es.
    assert (Hr : forall r, broadcast_rev r r = Ok r).
    { induction r as [|k r IH]; cbn [broadcast_rev]; [reflexivity|].
      rewrite IH. cbn [rbind]. rewrite Nat.eqb_refl. reflexivity. }
    rewrite Hr in Es. cbn [rbind] in Es. rewrite rev_involutive in Es.
    injection Es as <-. reflexivity. }
  subst s'. split; [reflexivity|].
  intros idx Hin. rewrite tget_tabulate by exact Hin.
  rewrite (bidx_same _ _ Hin). reflexivity.
Qed.

(** C10.  [HunYuanDiTBlock.forward] is not a pure function: every call
    leaves the text of [x] in the file [x1.txt] of the output directory,
    whether it returns or raises, and a call that returns leaves as well
    the texts of [shift_msa] and of [self.norm1(x)] in [shift_msa.txt]
    and [x.txt].  These three files are all that a call changes, and it
    reads none of them: what it returns or raises is the same from every
    state of the disk, so it is determined by the block and
    [(x, c, text_states, freq_cis_img, skip)].  A call returns [out]
    exactly when the values of the steps exist, in the order: the skip
    step (concatenate, normalise, project) in a block that has skip
    layers; self-attention on [norm1(x) + shift_msa] with
    [shift_msa = default_modulation(c).unsqueeze(1)], its first output
    added to the [x] that entered [norm1]; cross-attention on [norm3(x)]
    and [text_states], with its residual; the feed-forward layer on
    [norm2(x)], with its residual.  The shift of a sample is added to
    each of its tokens, and a residual of the shape of [x] is added entry
    by entry. *)
Theorem HunYuanDiTBlock_forward_value_and_files (self : HunYuanDiTBlock)
    (x c text_states : tensor R) (freq_cis_img : rope) (skip : option (tensor R)) :
  (forall w : world R,
      files (HunYuanDiTBlock_forward self x c text_states freq_cis_img skip w).2
        !! path_of "x1.txt"
      = Some (TextFile (dump "x" x))) /\
  (forall (w w' : world R) (out : tensor R),
      HunYuanDiTBlock_forward self x c text_states freq_cis_img skip w = (Ok out, w') ->
      exists v,
        block_trace self x c text_states freq_cis_img skip v out /\
        files w' !! path_of "shift_msa.txt"
        = Some (TextFile (dump "shift_msa" (v_shift_msa v))) /\
        files w' !! path_of "x.txt"
        = Some (TextFile ("self.norm1(x)" +:+ shape_repr (shape (v_n1 v))
                            +:+ tensor_repr (v_n1 v)))) /\
  (forall w : world R,
      writes_only ["x1.txt"; "shift_msa.txt"; "x.txt"] w
        (HunYuanDiTBlock_forward self x c text_states freq_cis_img skip w).2) /\
  (forall w1 w2 : world R,
      (HunYuanDiTBlock_forward self x c text_states freq_cis_img skip w1).1
      = (HunYuanDiTBlock_forward self x c text_states freq_cis_img skip w2).1) /\
  (forall (v : block_values) (out : tensor R),
      block_trace self x c text_states freq_cis_img skip v out ->
      (forall w : world R,
          (HunYuanDiTBlock_forward self x c text_states freq_cis_img skip w).1 = Ok out) /\
      (forall N L D,
          shape (v_n1 v) = [N; L; D] -> wf_tensor (v_n1 v) ->
          shape (v_m v) = [N; D] -> wf_tensor (v_m v) ->
          shape (v_a v) = [N; L; D] /\
          forall b l d, b < N -> l < L -> d < D ->
            tget (v_a v) [b; l; d]
            = sadd (tget (v_n1 v) [b; l; d]) (tget (v_m v) [b; d])) /\
      (forall s,
          shape (v_x0 v) = s -> shape (v_o1 v).1 = s ->
          shape (v_x1 v) = s /\
          forall idx, in_bounds s idx ->
            tget (v_x1 v) idx = sadd (tget (v_x0 v) idx) (tget (v_o1 v).1 idx))).
Proof.
  pose proof (HunYuanDiTBlock_forward_pure_as self x c text_states freq_cis_img skip)
    as Hp.
  split; [intros w; apply block_writes_x1|].
  split.
  { intros w w' out E.
    pose proof (proj1 (Hp w)) as Hv. rewrite E in Hv. cbn [fst] in Hv. symmetry in Hv.
    unfold HunYuanDiTBlock_forward in E. rewrite bind_write_text in E.
    apply bind_inv in E. destruct E as (x0 & w1 & E0 & E).
    apply skip_part_inv in E0. destruct E0 as [E0 ->].
    rewrite bind_lift in E.
    destruct (SiLU_Linear_forward (default_modulation self) c) as [m|] eqn:Em;
      [|discriminate].
    rewrite bind_lift in E.
    destruct (unsqueeze 1 m) as [sm|] eqn:Esm; [|discriminate].
    rewrite bind_write_text in E. unfold open_w in E. rewrite bind_write_text in E.
    rewrite bind_lift in E.
    destruct (norm_forward (norm1 self) x0) as [n1|] eqn:En1; [|discriminate].
    rewrite bind_lift, bind_write_text, bind_lift in E.
    destruct (tadd n1 sm) as [a|] eqn:Ea; [|discriminate].
    rewrite bind_lift in E.
    destruct (call (attn1 self) (a, freq_cis_img)) as [o1|] eqn:Eo1; [|discriminate].
    rewrite bind_lift in E.
    destruct (tadd x0 o1.1) as [x1|] eqn:Ex1; [|discriminate].
    rewrite bind_lift in E.
    destruct (norm_forward (norm3 self) x1) as [n3|] eqn:En3; [|discriminate].
    rewrite bind_lift in E.
    destruct (call (attn2 self) (n3, text_states, freq_cis_img)) as [o2|] eqn:Eo2;
      [|discriminate].
    rewrite bind_lift in E.
    destruct (tadd x1 o2.1) as [x2|] eqn:Ex2; [|discriminate].
    rewrite bind_lift in E.
    destruct (norm_forward (norm2 self) x2) as [n2|] eqn:En2; [|discriminate].
    rewrite bind_lift in E.
    destruct (call (mlp self) n2) as [o3|] eqn:Eo3; [|discriminate].
    rewrite bind_lift in E.
    destruct (tadd x2 o3) as [x3|] eqn:Ex3; [|discriminate].
    unfold ret in E. injection E as <- <-.
    exists {| v_x0 := x0; v_m := m; v_shift_msa := sm; v_n1 := n1; v_a := a;
              v_o1 := o1; v_x1 := x1; v_n3 := n3; v_o2 := o2; v_x2 := x2;
              v_n2 := n2; v_o3 := o3 |}.
    cbn [v_shift_msa v_n1 files].
    split; [|split].
    - unfold block_trace. cbn.
      repeat split; try assumption;
        first [apply skip_step_after_skip; assumption
              |apply norm_forward_normalised; assumption].
    - rewrite !lookup_insert_ne
        by (intros Hq; apply path_of_inj in Hq; discriminate Hq).
      apply lookup_insert_eq.
    - apply lookup_insert_eq. }
  split; [intros w; apply (proj2 (Hp w))|].
  split.
  { intros w1 w2. rewrite (proj1 (Hp w1)), (proj1 (Hp w2)). reflexivity. }
  intros v out Ht. split; [|split].
  - intros w. rewrite (proj1 (Hp w)). apply block_steps_trace. exists v. exact Ht.
  - intros N L D Hn Hwn Hm Hwm.
    destruct Ht as (_ & _ & Esm & _ & Ea & _).
    exact (shift_entries _ _ _ _ N L D Hn Hwn Hm Hwm Esm Ea).
  - intros s Hx Ho.
    destruct Ht as (_ & _ & _ & _ & _ & _ & Ex1 & _).
    exact (residual_entries _ _ _ s Hx Ho Ex1).
Qed.

End BlockEffects.

(** A call of a block on a disk without debug files returns and leaves
    three files behind: the state after the call is not the state
    before it. *)
Lemma HunYuanDiTBlock_forward_pure_counterexample :
  files Toy.world0 !! path_of "x1.txt" = None /\
  exists w',
    HunYuanDiTBlock_forward (Toy.block 2)
      (Tensor [1; 1; 2] [1; 2]%Z) (Tensor [1; 2] [3; 4]%Z) (Tensor [1; 1; 2] [5; 6]%Z)
      tt None Toy.world0
    = (Ok (Tensor [1; 1; 2] [8; 16]%Z), w') /\
    files w' !! path_of "x1.txt"
    = Some (TextFile "xtorch.Size([1, 1, 2])tensor(...)") /\
    files w' !! path_of "shift_msa.txt"
    = Some (TextFile "shift_msatorch.Size([1, 1, 2])tensor(...)") /\
    files w' !! path_of "x.txt"
    = Some (TextFile "self.norm1(x)torch.Size([1, 1, 2])tensor(...)") /\
    w' <> Toy.world0.
Proof.
  split; [reflexivity|].
  exists (HunYuanDiTBlock_forward (Toy.block 2)
            (Tensor [1; 1; 2] [1; 2]%Z) (Tensor [1; 2] [3; 4]%Z)
            (Tensor [1; 1; 2] [5; 6]%Z) tt None Toy.world0).2.
  split.
  { assert (E1 : (HunYuanDiTBlock_forward (Toy.block 2)
                    (Tensor [1; 1; 2] [1; 2]%Z) (Tensor [1; 2] [3; 4]%Z)
                    (Tensor [1; 1; 2] [5; 6]%Z) tt None Toy.world0).1
                 = Ok (Tensor [1; 1; 2] [8; 16]%Z))
      by (vm_compute; reflexivity).
    rewrite <- E1. apply surjective_pairing. }
  split; [vm_compute; reflexivity|].
  split; [vm_compute; reflexivity|].
  split; [vm_compute; reflexivity|].
  intros E.
  assert (E' : files (HunYuanDiTBlock_forward (Toy.block 2)
                        (Tensor [1; 1; 2] [1; 2]%Z) (Tensor [1; 2] [3; 4]%Z)
                        (Tensor [1; 1; 2] [5; 6]%Z) tt None Toy.world0).2
               !! path_of "x1.txt" = files Toy.world0 !! path_of "x1.txt")
    by (rewrite E; reflexivity).
  vm_compute in E'. discriminate E'.
Qed.

(** ** C6: batch doubling and the slices of [forward] *)

(** *** Shapes of broadcast results *)

Lemma broadcast_rev_same_length (ra : list nat) :
  forall rb r,
    length ra = length rb -> broadcast_rev ra rb = Ok r ->
    length r = length ra /\
    forall i a b,
      ra !! i = Some a -> rb !! i = Some b -> (a <> 1 \/ b = a) -> r !! i = Some a.
Proof.
  induction ra as [|a ra IH]; intros [|b rb] r Hl E; try discriminate Hl.
  - cbn in E. injection E as <-. split; [reflexivity|].
    intros i a b Ha. discriminate Ha.
  - cbn [broadcast_rev] in E.
    destruct (broadcast_rev ra rb) as [r0|] eqn:E0; [|discriminate]. cbn [rbind] in E.
    injection Hl as Hl. destruct (IH rb r0 Hl E0) as [Hlen Hi].
    assert (Hh : exists h, r = h :: r0 /\ ((a <> 1 \/ b = a) -> h = a)).
    { destruct (a =? b) eqn:Eab; [injection E as <-; exists a; auto|].
      destruct (a =? 1) eqn:Ea1.
      - injection E as <-. exists b. split; [reflexivity|].
        apply Nat.eqb_eq in Ea1. intros [Hn| ->]; [contradiction|reflexivity].
      - destruct (b =? 1); [|discriminate]. injection E as <-. exists a; auto. }
    destruct Hh as (h & -> & Hh). split; [cbn [length]; lia|].
    intros [|i] a' b' Ha Hb Hc; cbn in Ha, Hb |- *.
    + injection Ha as <-. injection Hb as <-. f_equal. auto.
    + eauto.
Qed.

(** Two shapes of one rank whose batch extents agree, or whose first
    batch extent is not 1, broadcast to a shape with the first batch
    extent. *)
Lemma broadcast_shapes_head (N M : nat) (sa sb s : list nat) :
  length sa = length sb ->
  broadcast_shapes (N :: sa) (M :: sb) = Ok s ->
  N <> 1 \/ M = N ->
  exists s', s = N :: s' /\ length s' = length sa.
Proof.
  intros Hl E Hc. unfold broadcast_shapes in E.
  destruct (broadcast_rev (rev (N :: sa)) (rev (M :: sb))) as [r|] eqn:Er; [|discriminate].
  cbn [rbind] in E. injection E as <-.
  assert (Hlr : length (rev (N :: sa)) = length (rev (M :: sb)))
    by (rewrite !length_rev; cbn [length]; lia).
  destruct (broadcast_rev_same_length _ _ _ Hlr Er) as [Hlen Hi].
  rewrite length_rev in Hlen. cbn [length] in Hlen.
  specialize (Hi (length sa) N M).
  cbn [rev] in Hi.
  rewrite !lookup_app_r in Hi by (rewrite length_rev; lia).
  rewrite !length_rev, Hl, Nat.sub_diag in Hi. specialize (Hi eq_refl eq_refl Hc).
  destruct (rev r) as [|h s'] eqn:Es.
  { apply (f_equal (@length nat)) in Es. rewrite length_rev in Es. cbn in Es. lia. }
  assert (Hr : r = rev s' ++ [h]).
  { rewrite <- (rev_involutive r), Es. reflexivity. }
  assert (Hls : length s' = length sa).
  { apply (f_equal (@length nat)) in Es. rewrite length_rev in Es. cbn [length] in Es. lia. }
  rewrite Hr in Hi. rewrite lookup_app_r in Hi by (rewrite length_rev; lia).
  rewrite length_rev, <- Hl, Hls, Nat.sub_diag in Hi. injection Hi as ->.
  exists s'. split; [reflexivity|exact Hls].
Qed.

Lemma broadcast_shapes_same_length (sa sb s : list nat) :
  length sa = length sb -> broadcast_shapes sa sb = Ok s -> length s = length sa.
Proof.
  intros Hl E. unfold broadcast_shapes in E.
  destruct (broadcast_rev (rev sa) (rev sb)) as [r|] eqn:Er; [|discriminate].
  cbn [rbind] in E. injection E as <-.
  assert (Hlr : length (rev sa) = length (rev sb)) by (rewrite !length_rev; exact Hl).
  destruct (broadcast_rev_same_length _ _ _ Hlr Er) as [Hlen _].
  rewrite length_rev in Hlen |- *. exact Hlen.
Qed.

Section Shapes.
Context {R : Type} `{Scalar R} `{Externals R}.

Lemma broadcast2_shape (f : R -> R -> R) (a b c : tensor R) :
  broadcast2 f a b = Ok c -> broadcast_shapes (shape a) (shape b) = Ok (shape c).
Proof.
  unfold broadcast2.
  destruct (broadcast_shapes (shape a) (shape b)) as [s|]; [|discriminate].
  cbn [rbind]. intros E. injection E as <-. reflexivity.
Qed.

(** A sum of a batch of [N] sequences and a tensor of three axes, of [N]
    rows unless [N] is not 1, is a batch of [N] sequences. *)
Lemma batch3_broadcast2 (f : R -> R -> R) (a b c : tensor R) (N M : nat) (sb : list nat) :
  batch3 N a -> shape b = M :: sb -> length sb = 2 -> N <> 1 \/ M = N ->
  broadcast2 f a b = Ok c -> batch3 N c.
Proof.
  intros (T & D & Ha) Hb Hl Hc E. apply broadcast2_shape in E.
  rewrite Ha, Hb in E.
  destruct (broadcast_shapes_head N M [T; D] sb (shape c) (eq_sym Hl) E Hc)
    as (s' & Hs & Hls).
  destruct s' as [|T' [|D' [|? ?]]]; try discriminate Hls.
  exists T', D'. exact Hs.
Qed.

Lemma Linear_forward_shape (l : Linear R) (x y : tensor R) :
  Linear_forward l x = Ok y ->
  exists n_out, shape y = take (length (shape x) - 1) (shape x) ++ [n_out].
Proof.
  unfold Linear_forward.
  destruct (shape (weight l)) as [|n_out [|n_in [|? ?]]]; try discriminate.
  destruct (last (shape x)) as [n|]; [|discriminate].
  destruct ((n =? n_in) && bool_decide (shape (bias l) = [n_out])); [|discriminate].
  intros E. injection E as <-. exists n_out. reflexivity.
Qed.

Lemma Linear_forward_length (l : Linear R) (x y : tensor R) :
  Linear_forward l x = Ok y -> length (shape y) = length (shape x).
Proof.
  intros E. pose proof E as E'. apply Linear_forward_shape in E. destruct E as (n & ->).
  unfold Linear_forward in E'.
  destruct (shape (weight l)) as [|? [|? [|? ?]]]; try discriminate.
  destruct (shape x) as [|d s] eqn:Hs; [discriminate|].
  rewrite length_app, length_take. cbn [length]. lia.
Qed.

Lemma batch3_Linear_forward (l : Linear R) (x y : tensor R) (N : nat) :
  batch3 N x -> Linear_forward l x = Ok y -> batch3 N y.
Proof.
  intros (T & D & Hx) E. apply Linear_forward_shape in E. destruct E as (n & Hy).
  rewrite Hx in Hy. exists T, n. exact Hy.
Qed.

Lemma cat_shape (d : nat) (a b c : tensor R) :
  cat d a b = Ok c ->
  exists na nb,
    shape a !! d = Some na /\ shape b !! d = Some nb /\
    <[d := 0]> (shape a) = <[d := 0]> (shape b) /\
    shape c = <[d := na + nb]> (shape a).
Proof.
  unfold cat.
  destruct (shape a !! d) as [na|]; [|discriminate].
  destruct (shape b !! d) as [nb|]; [|discriminate].
  destruct (bool_decide (<[d := 0]> (shape a) = <[d := 0]> (shape b))) eqn:Eb;
    [|discriminate].
  intros E. injection E as <-. apply bool_decide_eq_true in Eb.
  exists na, nb. auto.
Qed.

Lemma cat_length (d : nat) (a b c : tensor R) :
  cat d a b = Ok c ->
  length (shape c) = length (shape a) /\ length (shape a) = length (shape b).
Proof.
  intros E. apply cat_shape in E. destruct E as (na & nb & _ & _ & He & ->).
  split; [apply length_insert|].
  apply (f_equal (@length nat)) in He. rewrite !length_insert in He. exact He.
Qed.

Lemma slice_length (d start stop : nat) (t a : tensor R) :
  slice_ d start stop t = Ok a -> length (shape a) = length (shape t).
Proof.
  unfold slice_. destruct (shape t !! d); [|discriminate].
  intros E. injection E as <-. apply length_insert.
Qed.

Lemma unsqueeze_shape (d : nat) (t a : tensor R) :
  unsqueeze d t = Ok a -> shape a = take d (shape t) ++ 1 :: drop d (shape t).
Proof.
  unfold unsqueeze. destruct (d <=? length (shape t)); [|discriminate].
  intros E. injection E as <-. reflexivity.
Qed.

(** [m.unsqueeze(1)] of a tensor of two axes has three. *)
Lemma unsqueeze_1_rank2 (m sm : tensor R) :
  length (shape m) = 2 -> unsqueeze 1 m = Ok sm ->
  exists M sb, shape sm = M :: sb /\ length sb = 2.
Proof.
  intros Hl E. apply unsqueeze_shape in E.
  destruct (shape m) as [|M [|D [|? ?]]]; try discriminate Hl.
  exists M, [1; D]. split; [exact E|reflexivity].
Qed.

End Shapes.

(** *** The batch through the blocks and the final layer *)

Section Batch.
Context {R : Type} `{Scalar R} `{Externals R}.
Hypothesis layer_norm_shape :
  forall x ns w b eps y, F_layer_norm x ns w b eps = Ok y -> shape y = shape x.

Lemma norm_forward_shape (o : norm_object) (x y : tensor R) :
  norm_keeps_shape o -> norm_forward o x = Ok y -> shape y = shape x.
Proof.
  destruct o as [n [w|] [b|] eps|m]; cbn [norm_forward norm_keeps_shape];
    try discriminate.
  - intros _ E.
    destruct (F_layer_norm (tmap float_ x) [n] (Some (tmap float_ w))
                (Some (tmap float_ b)) eps) as [z|] eqn:Ez; [|discriminate].
    cbn [rbind] in E. injection E as <-. cbn [tmap shape].
    exact (layer_norm_shape _ _ _ _ _ _ Ez).
  - intros Hk E. exact (Hk _ _ E).
Qed.

Lemma batch3_shape (N : nat) (x y : tensor R) :
  batch3 N x -> shape y = shape x -> batch3 N y.
Proof. intros (T & D & Hx) Hy. exists T, D. congruence. Qed.

(** A sum with a tensor of the same shape. *)
Lemma batch3_residual (N : nat) (x o y : tensor R) :
  batch3 N x -> shape o = shape x -> tadd x o = Ok y -> batch3 N y.
Proof.
  intros Hx Ho Ey. destruct Hx as (T & D & Hs).
  apply (batch3_broadcast2 sadd x o y N N [T; D]); auto.
  - exists T, D. exact Hs.
  - congruence.
Qed.

Lemma batch3_skip_step (b : HunYuanDiTBlock) (N : nat) (x x0 : tensor R)
    (skip : option (tensor R)) :
  block_keeps_shape b -> batch3 N x -> skip_step b x skip = Ok x0 -> batch3 N x0.
Proof.
  intros (_ & _ & _ & _ & _ & _ & Hsk) Hx E. unfold skip_step in E.
  destruct (skip_layers b) as [[skip_norm skip_linear]|];
    [|injection E as <-; exact Hx].
  destruct skip as [s|]; [|discriminate].
  destruct (cat (length (shape x) - 1) x s) as [c1|] eqn:Ec; [|discriminate].
  cbn [rbind] in E.
  destruct (norm_forward skip_norm c1) as [n|] eqn:En; [|discriminate].
  cbn [rbind] in E.
  apply (batch3_Linear_forward skip_linear n x0 N); [|exact E].
  apply (batch3_shape N c1 n); [|exact (norm_forward_shape _ _ _ Hsk En)].
  destruct Hx as (T & D & Hs). apply cat_shape in Ec.
  destruct Ec as (na & nb & _ & _ & _ & Hc). rewrite Hs in Hc. cbn in Hc.
  exists T, (na + nb). exact Hc.
Qed.

(** A block maps a batch of [N] sequences to a batch of [N] sequences. *)
Lemma batch3_block_steps (b : HunYuanDiTBlock) (N : nat) (x c text_states out : tensor R)
    (freq_cis_img : rope) (skip : option (tensor R)) :
  block_keeps_shape b -> N <> 1 -> batch3 N x -> length (shape c) = 2 ->
  block_steps b x c text_states freq_cis_img skip = Ok out -> batch3 N out.
Proof.
  intros Hb HN Hx Hc E. pose proof Hb as (Hn1 & Hn2 & Hn3 & Ha1 & Ha2 & Hmlp & _).
  unfold block_steps in E.
  destruct (skip_step b x skip) as [x0|] eqn:E0; [|discriminate]. cbn [rbind] in E.
  pose proof (batch3_skip_step b N x x0 skip Hb Hx E0) as Hx0.
  unfold self_attention_step, shift_msa_of, SiLU_Linear_forward in E.
  destruct (Linear_forward (default_modulation b) (FP32_SiLU_forward c)) as [m|] eqn:Em;
    [|discriminate].
  cbn [rbind] in E.
  destruct (unsqueeze 1 m) as [sm|] eqn:Esm; [|discriminate]. cbn [rbind] in E.
  destruct (norm_forward (norm1 b) x0) as [n1|] eqn:En1; [|discriminate].
  cbn [rbind] in E.
  destruct (tadd n1 sm) as [a|] eqn:Ea; [|discriminate]. cbn [rbind] in E.
  destruct (call (attn1 b) (a, freq_cis_img)) as [o1|] eqn:Eo1; [|discriminate].
  cbn [rbind] in E.
  destruct (tadd x0 o1.1) as [x1|] eqn:Ex1; [|discriminate]. cbn [rbind] in E.
  unfold cross_attention_step in E.
  destruct (norm_forward (norm3 b) x1) as [n3|] eqn:En3; [|discriminate].
  cbn [rbind] in E.
  destruct (call (attn2 b) (n3, text_states, freq_cis_img)) as [o2|] eqn:Eo2;
    [|discriminate].
  cbn [rbind] in E.
  destruct (tadd x1 o2.1) as [x2|] eqn:Ex2; [|discriminate]. cbn [rbind] in E.
  unfold ffn_step in E.
  destruct (norm_forward (norm2 b) x2) as [n2|] eqn:En2; [|discriminate].
  cbn [rbind] in E.
  destruct (call (mlp b) n2) as [o3|] eqn:Eo3; [|discriminate]. cbn [rbind] in E.
  (* the shift has three axes *)
  assert (Hm : length (shape m) = 2).
  { rewrite (Linear_forward_length _ _ _ Em). exact Hc. }
  destruct (unsqueeze_1_rank2 m sm Hm Esm) as (M & sb & Hsm & Hsb).
  pose proof (norm_forward_shape _ _ _ Hn1 En1) as Sn1.
  assert (Hba : batch3 N a).
  { apply (batch3_broadcast2 sadd n1 sm a N M sb); auto.
    apply (batch3_shape N x0 n1 Hx0 Sn1). }
  pose proof (Ha1 _ _ _ Eo1) as So1.
  assert (Hbx1 : batch3 N x1).
  { destruct Hx0 as (T & D & Hs0). destruct Hba as (T' & D' & Hsa).
    apply (batch3_broadcast2 sadd x0 o1.1 x1 N N [T'; D']); auto.
    - exists T, D. exact Hs0.
    - congruence. }
  pose proof (norm_forward_shape _ _ _ Hn3 En3) as Sn3.
  pose proof (Ha2 _ _ _ _ Eo2) as So2.
  assert (Hbx2 : batch3 N x2).
  { apply (batch3_residual N x1 o2.1 x2 Hbx1); [congruence|exact Ex2]. }
  pose proof (norm_forward_shape _ _ _ Hn2 En2) as Sn2.
  pose proof (Hmlp _ _ Eo3) as So3.
  apply (batch3_residual N x2 o3 out Hbx2); [congruence|exact E].
Qed.

Lemma batch3_block (b : HunYuanDiTBlock) (N : nat) (x c text_states out : tensor R)
    (freq_cis_img : rope) (skip : option (tensor R)) (w w' : world R) :
  block_keeps_shape b -> N <> 1 -> batch3 N x -> length (shape c) = 2 ->
  HunYuanDiTBlock_forward b x c text_states freq_cis_img skip w = (Ok out, w') ->
  batch3 N out.
Proof.
  intros Hb HN Hx Hc E.
  pose proof (proj1 (HunYuanDiTBlock_forward_pure_as b x c text_states freq_cis_img
                       skip w)) as Hv.
  rewrite E in Hv. cbn [fst] in Hv. symmetry in Hv.
  exact (batch3_block_steps b N x c text_states out freq_cis_img skip Hb HN Hx Hc Hv).
Qed.

Lemma batch3_run_blocks (self : HunYuan) (N : nat) (c text_states : tensor R)
    (freqs_cis_img : rope) (bs : list HunYuanDiTBlock) :
  Forall block_keeps_shape bs -> N <> 1 -> length (shape c) = 2 ->
  forall (layer : nat) (x : tensor R) (skips : list (tensor R))
         (xs : tensor R * list (tensor R)) (w w' : world R),
    batch3 N x ->
    run_blocks self layer bs x c text_states freqs_cis_img skips w = (Ok xs, w') ->
    batch3 N xs.1.
Proof.
  intros Hbs HN Hc. induction Hbs as [|b bs Hb _ IH];
    intros layer x skips xs w w' Hx E; cbn [run_blocks] in E.
  - unfold ret in E. injection E as <- _. exact Hx.
  - apply bind_inv in E. destruct E as (xs1 & w1 & E1 & E).
    apply (IH _ _ _ _ _ _) in E; [exact E|].
    destruct (consumes_skip (depth self) layer).
    + destruct skips as [|skip skips']; [discriminate|].
      apply bind_inv in E1. destruct E1 as (x1 & w2 & Eb & E1).
      unfold ret in E1. injection E1 as <- _. cbn [fst].
      exact (batch3_block b N x c text_states x1 freqs_cis_img _ w w2 Hb HN Hx Hc Eb).
    + apply bind_inv in E1. destruct E1 as (x1 & w2 & Eb & E1).
      unfold ret in E1. injection E1 as <- _. cbn [fst].
      exact (batch3_block b N x c text_states x1 freqs_cis_img _ w w2 Hb HN Hx Hc Eb).
Qed.

(** The final layer maps a batch of [N] sequences to a batch of [N]
    sequences. *)
Lemma batch3_FinalLayer_forward (f : FinalLayer) (N : nat) (x c z : tensor R) :
  N <> 1 -> batch3 N x -> length (shape c) = 2 ->
  FinalLayer_forward f x c = Ok z -> batch3 N z.
Proof.
  intros HN Hx Hc E. unfold FinalLayer_forward, SiLU_Linear_forward in E.
  destruct (Linear_forward (adaLN_modulation f) (FP32_SiLU_forward c)) as [m|] eqn:Em;
    [|discriminate].
  cbn [rbind] in E.
  destruct (chunk2_dim1 m) as [[shift scale]|] eqn:Ech; [|discriminate].
  cbn [rbind] in E.
  destruct (F_layer_norm x [norm_final f] None None eps_1e_6) as [y|] eqn:Ey;
    [|discriminate].
  cbn [rbind] in E.
  destruct (modulate y shift scale) as [z0|] eqn:Ez; [|discriminate].
  cbn [rbind] in E.
  apply (batch3_Linear_forward (linear f) z0 z N); [|exact E].
  assert (Hm : length (shape m) = 2).
  { rewrite (Linear_forward_length _ _ _ Em). exact Hc. }
  assert (Hch : length (shape shift) = 2 /\ length (shape scale) = 2).
  { unfold chunk2_dim1 in Ech.
    destruct (shape m !! 1) as [n|]; [|discriminate].
    destruct ((n =? 0) || ((n + 1) / 2 <? n)); [|discriminate].
    destruct (slice_ 1 0 ((n + 1) / 2) m) as [a'|] eqn:Ea; [|discriminate].
    destruct (slice_ 1 ((n + 1) / 2) n m) as [b'|] eqn:Eb; [|discriminate].
    cbn [rbind] in Ech. injection Ech as <- <-.
    rewrite (slice_length _ _ _ _ _ Ea), (slice_length _ _ _ _ _ Eb). auto. }
  destruct Hch as [Hsh Hsc].
  unfold modulate in Ez.
  destruct (unsqueeze 1 scale) as [sc|] eqn:Esc; [|discriminate]. cbn [rbind] in Ez.
  destruct (tmul y (tmap (sadd s1) sc)) as [p|] eqn:Ep; [|discriminate].
  cbn [rbind] in Ez.
  destruct (unsqueeze 1 shift) as [sh|] eqn:Esh; [|discriminate]. cbn [rbind] in Ez.
  destruct (unsqueeze_1_rank2 scale sc Hsc Esc) as (M1 & sb1 & Hs1 & Hl1).
  destruct (unsqueeze_1_rank2 shift sh Hsh Esh) as (M2 & sb2 & Hs2 & Hl2).
  assert (Hy : batch3 N y).
  { apply (batch3_shape N x y Hx). exact (layer_norm_shape _ _ _ _ _ _ Ey). }
  assert (Hp : batch3 N p).
  { apply (batch3_broadcast2 smul y (tmap (sadd s1) sc) p N M1 sb1); auto. }
  apply (batch3_broadcast2 sadd p sh z0 N M2 sb2); auto.
Qed.

Lemma unpatchify_batch (self : HunYuan) (N : nat) (z out : tensor R) (h w : nat) :
  batch3 N z -> unpatchify self z h w = Ok out -> exists s, shape out = N :: s.
Proof.
  intros (T & D & Hz). unfold unpatchify. rewrite Hz.
  destruct (h * w =? T); [|discriminate].
  unfold reshape at 1.
  match goal with |- context [if ?b then _ else _] => destruct b end; [|discriminate].
  cbn [rbind einsum_nhwpqc_nchpwq shape tabulate].
  unfold reshape.
  match goal with |- context [if ?b then _ else _] => destruct b end; [|discriminate].
  intros E. injection E as <-. eexists. reflexivity.
Qed.

End Batch.

(** *** The stages of [forward_raw] *)

Section Doubling.
Context {R : Type} `{Scalar R} `{Externals R}.

Lemma view_pair_length {A} (k : nat) (t v : tensor A) :
  view [None; Some k] t = Ok v -> length (shape v) = 2.
Proof.
  unfold view.
  change (length (filter (fun o : option nat => o = None) [None; Some k])) with 1.
  cbv zeta.
  destruct ((numel (omap id [None; Some k]) =? 0)
            || negb (length (data t) mod numel (omap id [None; Some k]) =? 0));
    [discriminate|].
  intros E. injection E as <-. reflexivity.
Qed.

Lemma write_text_inv (name text : string) (w w' : world R) (u : unit) :
  write_text name text w = (Ok u, w') ->
  w' = World (<[path_of name := TextFile text]> (files w)) (rng w).
Proof. unfold write_text. intros E. injection E as _ <-. reflexivity. Qed.

(** "Build time and image embedding": both embedders are called on the
    batch followed by itself, and the embedded images are dumped. *)
Lemma build_time_and_image_embedding_inv (self : HunYuan) (t x t' x' : tensor R)
    (B C Hh W : nat) (w w' : world R) :
  shape x = [B; C; Hh; W] -> wf_tensor x -> shape t = [B] -> wf_tensor t ->
  build_time_and_image_embedding self t x w = (Ok (t', x'), w') ->
  call (t_embedder self) (Tensor [2 * B] (data t ++ data t)) = Ok t' /\
  call (pe_module (x_embedder self)) (Tensor [2 * B; C; Hh; W] (data x ++ data x)) = Ok x' /\
  w' = World (<[path_of "x3.txt" := TextFile (dump "x" x')]> (files w)) (rng w).
Proof.
  intros Hx Hwx Ht Hwt E. unfold build_time_and_image_embedding in E.
  rewrite (repeat_double_1 t B Ht Hwt), bind_lift in E.
  rewrite (repeat_double_4 x B C Hh W Hx Hwx), bind_lift in E.
  rewrite bind_lift in E.
  destruct (call (t_embedder self) (Tensor [2 * B] (data t ++ data t))) as [t2|];
    [|discriminate].
  rewrite bind_lift in E.
  destruct (call (pe_module (x_embedder self))
              (Tensor [2 * B; C; Hh; W] (data x ++ data x))) as [x2|]; [|discriminate].
  rewrite bind_write_text in E. unfold ret in E. injection E as <- <- <-.
  repeat split.
Qed.

(** "Concatenate all extra vectors": the result has two axes, and of the
    files only [image_meta_size.txt] is written. *)
Lemma build_extra_vec_inv (self : HunYuan) (ehs_t5 ev : tensor R)
    (batch_size target_width target_height : nat) (w w' : world R) :
  build_extra_vec self ehs_t5 batch_size target_width target_height w = (Ok ev, w') ->
  length (shape ev) = 2 /\
  exists text,
    w' = World (<[path_of "image_meta_size.txt" := TextFile text]> (files w)) (rng w).
Proof.
  intros E. unfold build_extra_vec in E.
  rewrite bind_lift in E.
  destruct (call (pooler self) ehs_t5) as [pooled|]; [|discriminate].
  cbv zeta in E. rewrite bind_write_text, bind_lift in E.
  destruct (view [None] _) as [flat|]; [|discriminate].
  rewrite bind_lift in E.
  destruct (timestep_embedding flat 256) as [ims|]; [|discriminate].
  rewrite bind_lift in E.
  destruct (view [None; Some (6 * 256)] _) as [ims2|] eqn:Ev; [|discriminate].
  rewrite bind_lift in E.
  destruct (cat 1 pooled ims2) as [ev1|] eqn:E1; [|discriminate].
  rewrite bind_lift in E.
  destruct (call (style_embedder self) _) as [style_embedding|]; [|discriminate].
  apply lift_inv in E. destruct E as [E2 ->].
  split; [|eexists; reflexivity].
  destruct (cat_length _ _ _ _ E2) as [-> _].
  destruct (cat_length _ _ _ _ E1) as [-> ->].
  exact (view_pair_length _ _ _ Ev).
Qed.

Lemma writes_within_run_blocks_dumps (self : HunYuan) (bs : list HunYuanDiTBlock) :
  forall (layer : nat) (x c text_states : tensor R) (freqs_cis_img : rope)
         (skips : list (tensor R)),
    writes_within block_debug_files
      (run_blocks self layer bs x c text_states freqs_cis_img skips).
Proof.
  induction bs as [|block bs IH]; intros layer x c text_states freqs skips;
    cbn [run_blocks].
  - apply writes_within_ret.
  - apply writes_within_bind.
    + destruct (consumes_skip (depth self) layer).
      * destruct skips as [|skip skips']; [apply writes_within_raise|].
        apply writes_within_bind;
          [eapply writes_within_pure_as, HunYuanDiTBlock_forward_pure_as|].
        intros ?; apply writes_within_ret.
      * apply writes_within_bind;
          [eapply writes_within_pure_as, HunYuanDiTBlock_forward_pure_as|].
        intros ?; apply writes_within_ret.
    + intros xs. apply IH.
Qed.

(** What a call of [forward_raw] that returns has computed. *)
Lemma forward_raw_inv (self : HunYuan) (x t : tensor R) (y : tensor Z) (kw : raw_kwargs)
    (B C Hh W : nat) (o : raw_output) (w w' : world R) :
  shape x = [B; C; Hh; W] -> wf_tensor x -> shape t = [B] -> wf_tensor t ->
  forward_raw self x t y kw w = (Ok o, w') ->
  exists (t2 x2 ev e c text_states : tensor R) (freqs : rope)
         (xs : tensor R * list (tensor R)) (z out : tensor R) (wa : world R),
    call (t_embedder self) (Tensor [2 * B] (data t ++ data t)) = Ok t2 /\
    call (pe_module (x_embedder self)) (Tensor [2 * B; C; Hh; W] (data x ++ data x))
    = Ok x2 /\
    length (shape ev) = 2 /\
    Linear_SiLU_Linear_forward (extra_embedder self) ev = Ok e /\
    tadd t2 e = Ok c /\
    files wa !! path_of "x3.txt" = Some (TextFile (dump "x" x2)) /\
    files wa !! path_of "t.txt" = Some (TextFile (dump "t" t2)) /\
    run_blocks self 0 (blocks self) x2 c text_states freqs [] wa = (Ok xs, w') /\
    FinalLayer_forward (final_layer self) xs.1 c = Ok z /\
    unpatchify self z (Hh / patch_size self) (W / patch_size self) = Ok out /\
    o = (if return_dict kw then Out_dict [("x", out)] else Out_tensor out).
Proof.
  intros Hx Hwx Ht Hwt E. unfold forward_raw in E. rewrite Hx in E.
  apply bind_inv in E. destruct E as ([[[ehs ehs_t5] mask] mask_t5] & w1 & _ & E).
  apply bind_inv in E. destruct E as (text_states & w2 & _ & E).
  apply bind_inv in E. destruct E as (th & w3 & Hth & E).
  apply bind_inv in E. destruct E as (tw & w4 & Htw & E).
  apply lift_inv in Hth. destruct Hth as [Hth _].
  apply lift_inv in Htw. destruct Htw as [Htw _].
  apply floordiv_Ok in Hth. destruct Hth as [_ ->].
  apply floordiv_Ok in Htw. destruct Htw as [_ ->].
  apply bind_inv in E. destruct E as ([t2 x2] & w5 & E5 & E).
  destruct (build_time_and_image_embedding_inv self t x t2 x2 B C Hh W w4 w5
              Hx Hwx Ht Hwt E5) as (Et & Ex & ->).
  apply bind_inv in E. destruct E as (ev & w6 & E6 & E).
  destruct (build_extra_vec_inv _ _ _ _ _ _ _ _ E6) as (Hev & text & ->).
  apply bind_inv in E. destruct E as (freqs & w7 & E7 & E).
  apply lift_inv in E7. destruct E7 as [_ ->].
  apply bind_inv in E. destruct E as ([] & w8 & E8 & E).
  apply write_text_inv in E8. subst w8.
  apply bind_inv in E. destruct E as ([] & w9 & E9 & E).
  apply write_text_inv in E9. subst w9.
  apply bind_inv in E. destruct E as (e & w10 & E10 & E).
  apply lift_inv in E10. destruct E10 as [Ee ->].
  apply bind_inv in E. destruct E as (c & w11 & E11 & E).
  apply lift_inv in E11. destruct E11 as [Ec ->].
  apply bind_inv in E. destruct E as (xs & w12 & Erun & E).
  apply bind_inv in E. destruct E as (z & w13 & E13 & E).
  apply lift_inv in E13. destruct E13 as [Ez ->].
  apply bind_inv in E. destruct E as (out & w14 & E14 & E).
  apply lift_inv in E14. destruct E14 as [Eo ->].
  assert (Ho : o = (if return_dict kw then Out_dict [("x", out)] else Out_tensor out)
               /\ w' = w12).
  { destruct (return_dict kw); unfold ret in E; injection E as <- <-; auto. }
  destruct Ho as [-> ->].
  exists t2, x2, ev, e, c, text_states, freqs, xs, z, out. eexists.
  split; [exact Et|]. split; [exact Ex|]. split; [exact Hev|].
  split; [exact Ee|]. split; [exact Ec|].
  split; [|split; [|split; [exact Erun|]]].
  - cbn [files].
    rewrite !lookup_insert_ne by (intros Hq; apply path_of_inj in Hq; discriminate Hq).
    apply lookup_insert_eq.
  - cbn [files].
    rewrite lookup_insert_ne by (intros Hq; apply path_of_inj in Hq; discriminate Hq).
    apply lookup_insert_eq.
  - split; [exact Ez|]. split; [exact Eo|reflexivity].
Qed.

End Doubling.

(** *** The theorem *)

Section ForwardDoubles.
Context {R : Type} `{Scalar R} `{Externals R}.

Lemma Linear_SiLU_Linear_length (p : Linear R * Linear R) (x y : tensor R) :
  Linear_SiLU_Linear_forward p x = Ok y -> length (shape y) = length (shape x).
Proof.
  unfold Linear_SiLU_Linear_forward.
  destruct (Linear_forward p.1 x) as [m|] eqn:Em; [|discriminate].
  cbn [rbind]. intros E.
  rewrite (Linear_forward_length _ _ _ E). unfold FP32_SiLU_forward. cbn [tmap shape].
  exact (Linear_forward_length _ _ _ Em).
Qed.

Lemma wf_tmap {A B} (f : A -> B) (t : tensor A) : wf_tensor t -> wf_tensor (tmap f t).
Proof. unfold wf_tensor, tmap. cbn [shape data]. rewrite length_map. auto. Qed.

(** With layers that keep the batch, the output of the final stages has
    the doubled batch. *)
Lemma doubled_batch_out (self : HunYuan) (B C Hh W : nat) (dt dx : list R)
    (t2 x2 ev e c text_states : tensor R) (freqs : rope)
    (xs : tensor R * list (tensor R)) (z out : tensor R) (h w : nat) (wa w' : world R) :
  keeps_batch self ->
  call (t_embedder self) (Tensor [2 * B] dt) = Ok t2 ->
  call (pe_module (x_embedder self)) (Tensor [2 * B; C; Hh; W] dx) = Ok x2 ->
  length (shape ev) = 2 ->
  Linear_SiLU_Linear_forward (extra_embedder self) ev = Ok e ->
  tadd t2 e = Ok c ->
  run_blocks self 0 (blocks self) x2 c text_states freqs [] wa = (Ok xs, w') ->
  FinalLayer_forward (final_layer self) xs.1 c = Ok z ->
  unpatchify self z h w = Ok out ->
  exists s, shape out = 2 * B :: s.
Proof.
  intros (Hln & Hte & Hxe & Hbs) Et Ex Hev Ee Ec Erun Ez Eo.
  destruct (Hte (Tensor [2 * B] dt) (2 * B) t2 eq_refl Et) as (d & Ht2).
  destruct (Hxe (Tensor [2 * B; C; Hh; W] dx) (2 * B) C Hh W x2 eq_refl Ex)
    as (T & D & Hx2).
  assert (Hc : length (shape c) = 2).
  { apply broadcast2_shape in Ec.
    assert (Hl : length (shape t2) = length (shape e)).
    { rewrite (Linear_SiLU_Linear_length _ _ _ Ee), Hev, Ht2. reflexivity. }
    rewrite (broadcast_shapes_same_length _ _ _ Hl Ec), Ht2. reflexivity. }
  assert (HN : 2 * B <> 1) by lia.
  assert (Hb2 : batch3 (2 * B) x2) by (exists T, D; exact Hx2).
  pose proof (batch3_run_blocks Hln self (2 * B) c text_states freqs (blocks self)
                Hbs HN Hc 0 x2 [] xs wa w' Hb2 Erun) as Hxs.
  pose proof (batch3_FinalLayer_forward Hln (final_layer self) (2 * B) xs.1 c z
                HN Hxs Hc Ez) as Hz.
  exact (unpatchify_batch self (2 * B) z out h w Hz Eo).
Qed.

(** C6.  For [x] of shape [(B, C, Hh, W)] and [timesteps] of shape
    [(B)]:
    (1) when [forward] returns, [context[:, 0]] exists and [forward_raw]
    has returned a tensor [out]; in [forward_raw] the timestep embedder
    was called on the [2 * B] timesteps [t ++ t] and the patch embedder
    on the batch [(2 * B, C, Hh, W)] of the images [x ++ x], and the
    dumps [t.txt] and [x3.txt] that the call leaves hold what these two
    calls returned; the result of [forward] is the float16 cast of [out]
    restricted to its first [in_channels] channels and its first [B]
    rows (all its rows, should it have fewer); and when the imported
    layers keep the batch, [out] has exactly [2 * B] rows, so that the
    result has exactly [B];
    (2) when [context[:, 0]] exists and [forward_raw] returns, [forward]
    returns;
    (3) a model built by [HunYuan_init] has
    [out_channels = in_channels * 2] when [learn_sigma] ([in_channels]
    otherwise) and unpatchifies to [out_channels] channels, so the
    channels kept are the first [in_channels] and the ones dropped are
    the learned-variance channels. *)
Theorem forward_doubles_and_slices (self : HunYuan)
    (x timesteps context : tensor R) (y : option (tensor R)) (kwargs : pyobj)
    (B C Hh W : nat) (w : world R) :
  shape x = [B; C; Hh; W] -> wf_tensor x ->
  shape timesteps = [B] -> wf_tensor timesteps ->
  (forall (res : tensor R) (w' : world R),
     forward self x timesteps context y kwargs w = (Ok res, w') ->
     exists (ctx t2 x2 out : tensor R) (N : nat),
       select_col0 context = Ok ctx /\
       call (t_embedder self)
         (Tensor [2 * B] (data (tmap half timesteps) ++ data (tmap half timesteps)))
       = Ok t2 /\
       call (pe_module (x_embedder self))
         (Tensor [2 * B; C; Hh; W] (data (tmap half x) ++ data (tmap half x)))
       = Ok x2 /\
       files w' !! path_of "t.txt" = Some (TextFile (dump "t" t2)) /\
       files w' !! path_of "x3.txt" = Some (TextFile (dump "x" x2)) /\
       forward_raw self (tmap half x) (tmap half timesteps) (tmap to_int ctx)
         raw_defaults (forward_dumps x context y kwargs w).2
       = (Ok (Out_tensor out), w') /\
       shape out
       = [N; unpatchify_channels self;
          Hh / patch_size self * (pe_patch_size (x_embedder self)).1;
          W / patch_size self * (pe_patch_size (x_embedder self)).1] /\
       shape res
       = [Nat.min B N; Nat.min (in_channels self) (unpatchify_channels self);
          Hh / patch_size self * (pe_patch_size (x_embedder self)).1;
          W / patch_size self * (pe_patch_size (x_embedder self)).1] /\
       (forall n c i j,
           n < Nat.min B N ->
           c < Nat.min (in_channels self) (unpatchify_channels self) ->
           i < Hh / patch_size self * (pe_patch_size (x_embedder self)).1 ->
           j < W / patch_size self * (pe_patch_size (x_embedder self)).1 ->
           tget res [n; c; i; j] = half (tget out [n; c; i; j])) /\
       (keeps_batch self -> N = 2 * B /\ Nat.min B N = B)) /\
  (forall (ctx : tensor R) (o : raw_output) (w' : world R),
     select_col0 context = Ok ctx ->
     forward_raw self (tmap half x) (tmap half timesteps) (tmap to_int ctx)
       raw_defaults (forward_dumps x context y kwargs w).2
     = (Ok o, w') ->
     exists res, forward self x timesteps context y kwargs w = (Ok res, w')) /\
  (forall input_size p cin hs d nh mlp_ratio ls tsd tsd_t5 tl tl_t5
          norm_type infer_mode fp16 net w0 w1,
     HunYuan_init input_size p cin hs d nh mlp_ratio ls tsd tsd_t5 tl tl_t5
       norm_type infer_mode fp16 w0 = (Ok net, w1) ->
     in_channels net = cin /\
     out_channels net = (if ls then cin * 2 else cin) /\
     unpatchify_channels net = out_channels net /\
     Nat.min (in_channels net) (unpatchify_channels net) = in_channels net).
Proof.
  intros Hx Hwx Ht Hwt.
  assert (Hx' : shape (tmap half x) = [B; C; Hh; W]) by exact Hx.
  assert (Ht' : shape (tmap half timesteps) = [B]) by exact Ht.
  pose proof (wf_tmap half x Hwx) as Hwx'.
  pose proof (wf_tmap half timesteps Hwt) as Hwt'.
  split; [|split].
  - intros res w' E. unfold forward in E. rewrite bind_forward_dumps in E.
    rewrite bind_lift in E.
    destruct (select_col0 context) as [ctx|] eqn:Ectx; [|discriminate].
    apply bind_inv in E. destruct E as (o & w2 & Eraw & E).
    destruct (forward_raw_geometry self _ _ _ _ _ _ B C Hh W Eraw Hx')
      as (_ & out & N & -> & Hwf & Hs).
    destruct (forward_raw_inv self _ _ _ _ B C Hh W _ _ _ Hx' Hwx' Ht' Hwt' Eraw)
      as (t2 & x2 & ev & e & c & ts & freqs & xs & z & out' & wa
          & Et & Ex & Hev & Ee & Ec & Fx3 & Ft & Erun & Ez & Eo & Eout).
    cbn [return_dict raw_defaults] in Eout. injection Eout as <-.
    cbv zeta in E.
    destruct (forward_slices out N (unpatchify_channels self) _ _ (in_channels self) B
                Hs Hwf) as (eps & rest & res' & E1 & E2 & E3 & Hsr & Hres).
    rewrite E1, bind_lift, E2, bind_lift, Hx in E. unfold lift in E. rewrite E3 in E.
    injection E as <- <-.
    pose proof (writes_within_run_blocks_dumps self (blocks self) 0 x2 c ts freqs [])
      as Hrun.
    assert (Hkeep : forall name,
               ~ In name block_debug_files ->
               files w2 !! path_of name = files wa !! path_of name).
    { intros name Hn.
      pose proof (keeps_file_writes_within block_debug_files name _ Hn Hrun wa) as Hk.
      rewrite Erun in Hk. exact Hk. }
    exists ctx, t2, x2, out, N.
    split; [reflexivity|]. split; [exact Et|]. split; [exact Ex|].
    split.
    { rewrite Hkeep; [exact Ft|]. cbn. intros [Hq|[Hq|[Hq|[]]]]; discriminate Hq. }
    split.
    { rewrite Hkeep; [exact Fx3|]. cbn. intros [Hq|[Hq|[Hq|[]]]]; discriminate Hq. }
    split; [exact Eraw|]. split; [exact Hs|]. split; [exact Hsr|].
    split; [exact Hres|].
    intros Hk.
    destruct (doubled_batch_out self B C Hh W _ _ t2 x2 ev e c ts freqs xs z out
                _ _ wa w2 Hk Et Ex Hev Ee Ec Erun Ez Eo) as (s & Hs2).
    rewrite Hs in Hs2. injection Hs2 as -> _. split; [reflexivity|lia].
  - intros ctx o w' Hctx Eraw.
    destruct (forward_raw_geometry self _ _ _ _ _ _ B C Hh W Eraw Hx')
      as (_ & out & N & -> & Hwf & Hs).
    destruct (forward_slices out N (unpatchify_channels self) _ _ (in_channels self) B
                Hs Hwf) as (eps & rest & res & E1 & E2 & E3 & _ & _).
    exists res. unfold forward. rewrite bind_forward_dumps.
    rewrite Hctx, bind_lift. unfold bind at 1. rewrite Eraw.
    rewrite E1, bind_lift, E2, bind_lift, Hx. unfold lift. rewrite E3. reflexivity.
  - intros input_size p cin hs d nh mlp_ratio ls tsd tsd_t5 tl tl_t5
           norm_type infer_mode fp16 net w0 w1 E.
    destruct (HunYuan_init_channels _ _ _ _ _ _ _ _ _ _ _ _ _ _ _ _ _ _ E)
      as (E1 & E2 & E3).
    rewrite E3, E2, E1. repeat split.
    destruct ls; lia.
Qed.

End ForwardDoubles.

(** The stand-ins of the small instance keep the batch. *)
Lemma toy_keeps_batch : keeps_batch (Toy.net 2).
Proof.
  split; [|split; [|split]].
  - intros x ns w b eps y E. injection E as <-. reflexivity.
  - intros t n t2 Ht E. cbn in E. rewrite Ht in E. injection E as <-.
    exists 2. reflexivity.
  - intros x n c h w e Hx E. cbn in E. rewrite Hx in E. injection E as <-.
    exists (h * w), 2. reflexivity.
  - assert (Hb : block_keeps_shape (Toy.block 2)).
    { repeat split.
      - intros x y E. injection E as <-. reflexivity.
      - intros x y E. injection E as <-. reflexivity.
      - intros x y E. injection E as <-. reflexivity.
      - intros a f o E. injection E as <-. reflexivity.
      - intros n ts f o E. injection E as <-. reflexivity.
      - intros x y E. injection E as <-. reflexivity. }
    cbn [blocks Toy.net replicate]. repeat (constructor; [exact Hb|]). constructor.
Qed.

Lemma forward_doubles_and_slices_witness :
  exists (res x2 out : tensor Z) (w' : world Z),
    forward (Toy.net 2) Toy.image Toy.timestep (Tensor [1; 3; 2] [1; 2; 3; 4; 5; 6]%Z)
      None tt Toy.world1 = (Ok res, w') /\
    call (pe_module (x_embedder (Toy.net 2)))
      (Tensor [2; 1; 2; 2] [1; 2; 3; 4; 1; 2; 3; 4]%Z) = Ok x2 /\
    files w' !! path_of "x3.txt" = Some (TextFile (dump "x" x2)) /\
    shape out = [2; 2; 2; 2] /\
    shape res = [1; 1; 2; 2].
Proof.
  destruct (forward_doubles_and_slices (Toy.net 2) Toy.image Toy.timestep
              (Tensor [1; 3; 2] [1; 2; 3; 4; 5; 6]%Z) None tt 1 1 2 2 Toy.world1
              eq_refl eq_refl eq_refl eq_refl) as (Hf & _ & _).
  destruct (Hf _ _ toy_forward_run)
    as (ctx & t2 & x2 & out & N & _ & _ & Ex & _ & Fx3 & _ & Hs & _ & _ & Hk).
  destruct (Hk toy_keeps_batch) as [-> _].
  exists (Tensor [1; 1; 2; 2] [129; 257; 385; 513]%Z), x2, out. eexists.
  split; [exact toy_forward_run|]. split; [exact Ex|]. split; [exact Fx3|].
  split; [exact Hs|reflexivity].
Defined.
